(** * The Android device manager of the MCP server

    A shallow embedding of [AdbDeviceManager] (src/adbdevicemanager.py):
    the visual diff [compare_screen_with_figma] with its helpers
    [_coarse_mae] and [_resolve_figma_token]; the choice of the device in
    [__init__]; the device commands [get_packages],
    [get_package_action_intents], [execute_adb_shell_command] and
    [launch_app]; the managed flutter process ([start_flutter_run],
    [hot_reload_flutter_run], [hot_restart_flutter_run],
    [stop_flutter_run], [get_flutter_run_log], [_tail_file]); and the
    choice of the endpoint in [_run_attach_and_trigger_action].

    Conventions of the embedding:
    - Python [int] is [Z]; [//] is [Z.div], which floors as Python does.
    - Python [float] is an exact rational [Q], with [float("inf")] added
      where the code uses it.  The sums the code accumulates are sums of
      integers, which binary64 holds exactly below 2^53; its quotients and
      decimal constants are rounded by binary64 and exact here.  [x ** 0.5]
      has no rational value and is a parameter, [pow_half].
    - A raised exception is the [Raise] branch of [result]; loops are
      folds in that monad, in the iteration order of the source.
    - A PIL image is its size and its row-major RGB buffer; the resampling
      filter of [Image.resize] is a parameter of the world.
    - What the function does to the outside (directories, the device, the
      network, image files) is written to an event log, and what the
      outside answers is read from a [world].
    - A path is a string; [Path(output_dir) / name] follows [pathlib] on
      a POSIX host: repeated separators and "." segments are dropped,
      ".." segments are kept, a root of exactly two separators is kept.
    - A string is a [string] of code points below 256.  The device is a
      function from the commands received so far and a command to an
      answer; the host (processes, files, [os], [shutil], [shlex]) is a
      record of answers that may depend on what has been done so far.
      Regular expressions, XML and YAML parsing and the loops of
      [_run_attach_and_trigger_action] that wait on the clock are not
      embedded: what they return is an answer of the host or a
      parameter.  The two searches of the logcat may raise, as
      [_read_pid_logcat] does when [adb] fails; the search among the
      processes of the host catches every exception. *)

From Stdlib Require Import ZArith QArith Qround Qabs List String Ascii Bool Lia Lqa.
From Stdlib Require Import DecimalString Sorting.Sorted Permutation.
Import ListNotations.

Local Open Scope Z_scope.

(* ================================================================== *)
(** * Part I: definitions                                              *)
(* ================================================================== *)

(** ** The Python runtime *)

Inductive exn : Type :=
| RuntimeError (msg : string)
| IndexError
| ValueError
| ZeroDivisionError
| ExternalError (msg : string).

Inductive result (A : Type) : Type :=
| Ok (a : A)
| Raise (e : exn).

Arguments Ok {A} a.
Arguments Raise {A} e.

Definition bind {A B : Type} (c : result A) (k : A -> result B) : result B :=
  match c with
  | Ok a => k a
  | Raise e => Raise e
  end.

Declare Scope py_scope.
Delimit Scope py_scope with py.
Notation "x <- c ;; k" := (bind c (fun x => k))
  (at level 61, c at next level, right associativity) : py_scope.
Notation "' pat <- c ;; k" := (bind c (fun x => match x with pat => k end))
  (at level 61, pat pattern, c at next level, right associativity) : py_scope.
Local Open Scope py_scope.

(** A [for] loop over [l] whose body may raise: the accumulator is the
    tuple of the variables the body assigns. *)
Fixpoint for_each {A B : Type} (body : A -> B -> result A) (l : list B) (a : A)
  : result A :=
  match l with
  | [] => Ok a
  | x :: l' =>
      match body a x with
      | Ok a' => for_each body l' a'
      | Raise e => Raise e
      end
  end.

(** [range(start, stop, step)] for a non-zero [step]. *)
Definition range3 (start stop step : Z) : list Z :=
  let n := if 0 <? step
           then (stop - start + step - 1) / step
           else (start - stop - step - 1) / (- step) in
  map (fun i => start + Z.of_nat i * step) (seq 0 (Z.to_nat n)).

(** [range(n)]. *)
Definition range (n : Z) : list Z := map Z.of_nat (seq 0 (Z.to_nat n)).

(** Floats: a rational, or [float("inf")]. *)
Inductive pyfloat : Type :=
| Fin (q : Q)
| PosInf.

Definition Qltb (a b : Q) : bool :=
  match (a ?= b)%Q with Lt => true | _ => false end.

Definition float_ltb (a b : pyfloat) : bool :=
  match a, b with
  | Fin x, Fin y => Qltb x y
  | Fin _, PosInf => true
  | PosInf, _ => false
  end.

(** [round(x)]: to the nearest integer, a tie to the even one. *)
Definition py_round (q : Q) : Z :=
  let f := Qfloor q in
  match (q - inject_Z f ?= 1 # 2)%Q with
  | Lt => f
  | Gt => f + 1
  | Eq => if Z.even f then f else f + 1
  end.

(** [round(x, 3)] and [round(x, 4)]. *)
Definition round3 (q : Q) : Q := (inject_Z (py_round (q * 1000)) / 1000)%Q.
Definition round4 (q : Q) : Q := (inject_Z (py_round (q * 10000)) / 10000)%Q.

Definition round_float4 (f : pyfloat) : pyfloat :=
  match f with
  | Fin q => Fin (round4 q)
  | PosInf => PosInf
  end.

(** [max(0.0, x)]. *)
Definition max0 (q : Q) : Q := if Qltb 0 q then q else 0%Q.

(** [str(n)] as an f-string renders an integer. *)
Definition str_of_int (n : Z) : string := NilZero.string_of_int (Z.to_int n).

(** [str.isspace] on the code points below 256. *)
Definition is_space (c : ascii) : bool :=
  let n := Z.of_nat (nat_of_ascii c) in
  ((9 <=? n) && (n <=? 13)) || ((28 <=? n) && (n <=? 32))
  || (n =? 133) || (n =? 160).

Fixpoint lstrip (s : string) : string :=
  match s with
  | EmptyString => EmptyString
  | String c s' => if is_space c then lstrip s' else s
  end.

Fixpoint rstrip (s : string) : string :=
  match s with
  | EmptyString => EmptyString
  | String c s' =>
      match rstrip s' with
      | EmptyString => if is_space c then EmptyString else String c EmptyString
      | t => String c t
      end
  end.

(** [s.strip()]. *)
Definition strip (s : string) : string := rstrip (lstrip s).

(** Truth value of a string: non-empty. *)
Definition truthy (s : string) : bool :=
  match s with
  | EmptyString => false
  | String _ _ => true
  end.

(** ** PIL images *)

Definition rgb : Type := (Z * Z * Z)%type.

Record image : Type := mkImage {
  im_width : Z;
  im_height : Z;
  im_data : list rgb
}.

Definition image_size (im : image) : Z * Z := (im_width im, im_height im).

(** The buffer holds one pixel per position. *)
Definition wf_image (im : image) : Prop :=
  0 <= im_width im /\ 0 <= im_height im /\
  Z.of_nat (List.length (im_data im)) = im_width im * im_height im.

(** Every sample is a byte. *)
Definition byte_sample (p : rgb) : Prop :=
  let '(r, g, b) := p in
  0 <= r <= 255 /\ 0 <= g <= 255 /\ 0 <= b <= 255.

Definition byte_image (im : image) : Prop := Forall byte_sample (im_data im).

(** The pixel stored at (x, y), for coordinates inside the image. *)
Definition pixel_at (im : image) (x y : Z) : rgb :=
  nth (Z.to_nat (y * im_width im + x)) (im_data im) (0, 0, 0).

Definition in_image (im : image) (x y : Z) : bool :=
  (0 <=? x) && (x <? im_width im) && (0 <=? y) && (y <? im_height im).

(** [px[x, y]] on the access object of [Image.load()]: a negative
    coordinate counts from the far edge, anything else outside the image
    raises [IndexError]. *)
Definition getpixel (im : image) (x y : Z) : result rgb :=
  let x' := if x <? 0 then im_width im + x else x in
  let y' := if y <? 0 then im_height im + y else y in
  if in_image im x' y' then Ok (pixel_at im x' y') else Raise IndexError.

(** [Image.crop((left, upper, right, lower))]: the window, black where it
    leaves the source. *)
Definition crop (im : image) (left upper right lower : Z) : image :=
  let w := right - left in
  let h := lower - upper in
  {| im_width := w;
     im_height := h;
     im_data :=
       flat_map
         (fun y =>
            map (fun x =>
                   if in_image im (x + left) (y + upper)
                   then pixel_at im (x + left) (y + upper)
                   else (0, 0, 0))
                (range w))
         (range h) |}.

(** ** [_coarse_mae] *)

(** Body of the inner loop: [acc] is ([total], [count]). *)
Definition coarse_pixel (fig_img emu_scaled : image) (y source_y : Z)
    (acc : Q * Z) (x : Z) : result (Q * Z) :=
  '(r1, g1, b1) <- getpixel fig_img x y ;;
  '(r2, g2, b2) <- getpixel emu_scaled x source_y ;;
  Ok ((fst acc + inject_Z (Z.abs (r1 - r2) + Z.abs (g1 - g2) + Z.abs (b1 - b2)))%Q,
      snd acc + 3).

Definition coarse_row (fig_img emu_scaled : image) (y_offset step : Z)
    (acc : Q * Z) (y : Z) : result (Q * Z) :=
  let source_y := y + y_offset in
  for_each (coarse_pixel fig_img emu_scaled y source_y)
           (range3 0 (im_width fig_img) step) acc.

Definition _coarse_mae (fig_img emu_scaled : image) (y_offset step : Z)
  : result Q :=
  let '(width, height) := image_size fig_img in
  if step =? 0 then Raise ValueError else
  '(total, count) <-
     for_each (coarse_row fig_img emu_scaled y_offset step)
              (range3 0 height step) (0%Q, 0) ;;
  if count =? 0 then Ok 255%Q else Ok (total / inject_Z count)%Q.

(** The coarse score in the words of the specification: over the pixels
    of every second row and column, the sum of the absolute channel
    differences divided by the number of samples compared. *)
Definition visited (fig_img : image) : list (Z * Z) :=
  list_prod (range3 0 (im_height fig_img) 2) (range3 0 (im_width fig_img) 2).

Definition abs_delta (p q : rgb) : Z :=
  let '(r1, g1, b1) := p in
  let '(r2, g2, b2) := q in
  Z.abs (r1 - r2) + Z.abs (g1 - g2) + Z.abs (b1 - b2).

Definition sumZ (l : list Z) : Z := fold_right Z.add 0 l.

Definition coarse_total (fig_img emu_scaled : image) (y_offset : Z) : Z :=
  sumZ (map (fun '(y, x) =>
               abs_delta (pixel_at fig_img x y)
                         (pixel_at emu_scaled x (y + y_offset)))
            (visited fig_img)).

Definition coarse_samples (fig_img : image) : Z :=
  3 * Z.of_nat (List.length (visited fig_img)).

Definition coarse_score (fig_img emu_scaled : image) (y_offset : Z) : Q :=
  if coarse_samples fig_img =? 0 then 255%Q
  else (inject_Z (coarse_total fig_img emu_scaled y_offset)
        / inject_Z (coarse_samples fig_img))%Q.

(** ** The vertical offset search *)

(** Body of the search loop: [best] is ([best_y], [best_mae]). *)
Definition search_step (fig_img emu_scaled : image)
    (best : Z * pyfloat) (y_offset : Z) : result (Z * pyfloat) :=
  score <- _coarse_mae fig_img emu_scaled y_offset 2 ;;
  if float_ltb (Fin score) (snd best)
  then Ok (y_offset, Fin score)
  else Ok best.

Definition offset_search (fig_img emu_scaled : image) (scaled_h target_h : Z)
  : result (Z * pyfloat) :=
  let max_offset := scaled_h - target_h in
  for_each (search_step fig_img emu_scaled) (range (max_offset + 1))
           (0, PosInf).

(** ** Lists indexed the Python way *)

(** The position [l[i]] names: a negative index counts from the end, an
    index outside the list raises [IndexError]. *)
Definition py_index {A : Type} (l : list A) (i : Z) : result nat :=
  let n := Z.of_nat (List.length l) in
  let i' := if i <? 0 then i + n else i in
  if (0 <=? i') && (i' <? n) then Ok (Z.to_nat i') else Raise IndexError.

Fixpoint list_set {A : Type} (l : list A) (k : nat) (v : A) : list A :=
  match l, k with
  | [], _ => []
  | _ :: t, O => v :: t
  | x :: t, S k' => x :: list_set t k' v
  end.

(** [l[i]]. *)
Definition list_get {A : Type} (l : list A) (i : Z) : result A :=
  k <- py_index l i ;;
  match nth_error l k with
  | Some v => Ok v
  | None => Raise IndexError
  end.

(** [l[i] += d], written with the update [upd] of the element. *)
Definition list_iadd {A : Type} (upd : A -> A) (l : list A) (i : Z)
  : result (list A) :=
  v <- list_get l i ;;
  k <- py_index l i ;;
  Ok (list_set l k (upd v)).

(** [Image.new("RGB", (w, h))]: a black image. *)
Definition new_image (w h : Z) : image :=
  {| im_width := w; im_height := h;
     im_data := repeat (0, 0, 0) (Z.to_nat (w * h)) |}.

(** [px[x, y] = p]. *)
Definition putpixel (im : image) (x y : Z) (p : rgb) : result image :=
  let x' := if x <? 0 then im_width im + x else x in
  let y' := if y <? 0 then im_height im + y else y in
  if in_image im x' y'
  then Ok {| im_width := im_width im; im_height := im_height im;
             im_data := list_set (im_data im)
                                 (Z.to_nat (y' * im_width im + x')) p |}
  else Raise IndexError.

(** ** The diff pass *)

(** One entry of the [zones] list: a named band of normalised height with
    its running sum and count. *)
Record zone : Type := mkZone {
  z_name : string;
  z_y0 : Q;
  z_y1 : Q;
  z_sum : Q;
  z_count : Z
}.

Definition initial_zones : list zone :=
  [ mkZone "header" 0 (24 # 100) 0 0;
    mkZone "cards" (24 # 100) (47 # 100) 0 0;
    mkZone "gap_analysis" (47 # 100) (72 # 100) 0 0;
    mkZone "strategy_band" (72 # 100) (87 # 100) 0 0;
    mkZone "bottom_nav" (87 # 100) 1 0 0 ].

(** [zone["y0"] <= y_norm < zone["y1"]]. *)
Definition in_band (z : zone) (y_norm : Q) : bool :=
  Qle_bool (z_y0 z) y_norm && Qltb y_norm (z_y1 z).

Definition zone_bump (z : zone) (d_avg : Q) : zone :=
  {| z_name := z_name z; z_y0 := z_y0 z; z_y1 := z_y1 z;
     z_sum := (z_sum z + d_avg)%Q; z_count := z_count z + 1 |}.

(** The [for zone in zones: if ...: ...; break] loop. *)
Fixpoint zone_add (zones : list zone) (y_norm d_avg : Q) : list zone :=
  match zones with
  | [] => []
  | z :: rest =>
      if in_band z y_norm then zone_bump z d_avg :: rest
      else z :: zone_add rest y_norm d_avg
  end.

(** The variables the pass assigns. *)
Record diff_acc : Type := mkAcc {
  sum_abs : Q;
  sum_sq : Q;
  diff_gt_10 : Z;
  diff_gt_25 : Z;
  diff_gt_50 : Z;
  cell_sums : list Q;
  cell_pixels : list Z;
  zones : list zone;
  heatmap : image
}.

Definition diff_init (target_w target_h grid_cols grid_rows : Z) : diff_acc :=
  let cell_count := grid_cols * grid_rows in
  {| sum_abs := 0; sum_sq := 0;
     diff_gt_10 := 0; diff_gt_25 := 0; diff_gt_50 := 0;
     cell_sums := repeat 0%Q (Z.to_nat cell_count);
     cell_pixels := repeat 0 (Z.to_nat cell_count);
     zones := initial_zones;
     heatmap := new_image target_w target_h |}.

(** Index of the grid cell of pixel (x, y). *)
Definition cell_index (target_w target_h grid_cols grid_rows x y : Z) : Z :=
  let cx := Z.min (grid_cols - 1) ((x * grid_cols) / target_w) in
  let cy := Z.min (grid_rows - 1) ((y * grid_rows) / target_h) in
  cy * grid_cols + cx.

(** Body of the inner loop, at pixel (x, y). *)
Definition diff_pixel (fig_img emu_aligned : image)
    (target_w target_h grid_cols grid_rows : Z)
    (y : Z) (y_norm : Q) (a : diff_acc) (x : Z) : result diff_acc :=
  '(r1, g1, b1) <- getpixel fig_img x y ;;
  '(r2, g2, b2) <- getpixel emu_aligned x y ;;
  let dr := Z.abs (r1 - r2) in
  let dg := Z.abs (g1 - g2) in
  let db := Z.abs (b1 - b2) in
  let sum_abs' := (sum_abs a + inject_Z (dr + dg + db))%Q in
  let sum_sq' := (sum_sq a + inject_Z (dr * dr + dg * dg + db * db))%Q in
  let d_avg := (inject_Z (dr + dg + db) / 3)%Q in
  let gt10 := if Qltb 10 d_avg then diff_gt_10 a + 1 else diff_gt_10 a in
  let gt25 := if Qltb 25 d_avg then diff_gt_25 a + 1 else diff_gt_25 a in
  let gt50 := if Qltb 50 d_avg then diff_gt_50 a + 1 else diff_gt_50 a in
  let idx := cell_index target_w target_h grid_cols grid_rows x y in
  cell_sums' <- list_iadd (fun v => (v + d_avg)%Q) (cell_sums a) idx ;;
  cell_pixels' <- list_iadd (fun n => n + 1) (cell_pixels a) idx ;;
  let zones' := zone_add (zones a) y_norm d_avg in
  let heat_val := Z.min 255 (py_round (d_avg * 4)) in
  heatmap' <- putpixel (heatmap a) x y (heat_val, 0, 0) ;;
  Ok {| sum_abs := sum_abs'; sum_sq := sum_sq';
        diff_gt_10 := gt10; diff_gt_25 := gt25; diff_gt_50 := gt50;
        cell_sums := cell_sums'; cell_pixels := cell_pixels';
        zones := zones'; heatmap := heatmap' |}.

(** Body of the outer loop, at row [y]; the row is entered only when
    [target_h] is positive, so the division is defined. *)
Definition diff_row (fig_img emu_aligned : image)
    (target_w target_h grid_cols grid_rows : Z)
    (a : diff_acc) (y : Z) : result diff_acc :=
  let y_norm := (inject_Z y / inject_Z target_h)%Q in
  for_each (diff_pixel fig_img emu_aligned target_w target_h grid_cols grid_rows
                       y y_norm)
           (range target_w) a.

Definition diff_pass (fig_img emu_aligned : image) (grid_cols grid_rows : Z)
  : result diff_acc :=
  let '(target_w, target_h) := image_size fig_img in
  for_each (diff_row fig_img emu_aligned target_w target_h grid_cols grid_rows)
           (range target_h)
           (diff_init target_w target_h grid_cols grid_rows).

(** The pixels in the order the pass visits them. *)
Definition pixels (target_w target_h : Z) : list (Z * Z) :=
  flat_map (fun y => map (fun x => (x, y)) (range target_w)) (range target_h).

(** ** After the pass: metrics, grid cells, zones *)

(** Float division; a zero divisor raises. *)
Definition fdiv (a b : Q) : result Q :=
  if Qeq_bool b 0 then Raise ZeroDivisionError else Ok (a / b)%Q.

(** [max(0.0, 100.0 - ((avg / 255.0) * 100.0))]. *)
Definition similarity (avg : Q) : Q := max0 (100 - (avg / 255) * 100)%Q.

Record grid_cell : Type := mkCell {
  c_row : Z;
  c_col : Z;
  c_avgDiff : Q;
  c_similarityPct : Q
}.

Record zone_entry : Type := mkZoneEntry {
  ze_name : string;
  ze_avgDiff : Q;
  ze_similarityPct : Q
}.

Record metrics : Type := mkMetrics {
  m_mae : Q;
  m_rmse : Q;
  m_similarityPct : Q;
  m_pxDiffGt10Pct : Q;
  m_pxDiffGt25Pct : Q;
  m_pxDiffGt50Pct : Q
}.

(** The entry appended for cell ([row], [col]). *)
Definition grid_cell_entry (a : diff_acc) (grid_cols row col : Z)
  : result grid_cell :=
  let idx := row * grid_cols + col in
  n <- list_get (cell_pixels a) idx ;;
  avg <- (if n =? 0 then Ok 0%Q
          else s <- list_get (cell_sums a) idx ;; Ok (s / inject_Z n)%Q) ;;
  Ok {| c_row := row; c_col := col;
        c_avgDiff := round3 avg;
        c_similarityPct := round3 (similarity avg) |}.

Definition grid_cells_of (a : diff_acc) (grid_cols grid_rows : Z)
  : result (list grid_cell) :=
  for_each
    (fun cells row =>
       for_each
         (fun cells col =>
            c <- grid_cell_entry a grid_cols row col ;; Ok (cells ++ [c]))
         (range grid_cols) cells)
    (range grid_rows) [].

Definition zone_avg (z : zone) : Q :=
  if z_count z =? 0 then 0%Q else (z_sum z / inject_Z (z_count z))%Q.

Definition zone_report_of (zs : list zone) : list zone_entry :=
  map (fun z =>
         {| ze_name := z_name z;
            ze_avgDiff := round3 (zone_avg z);
            ze_similarityPct := round3 (similarity (zone_avg z)) |})
      zs.

(** [sorted(cells, key=..., reverse=True)]: the stable sort by
    descending key; cells of equal key keep their order. *)
Fixpoint insert_desc {A : Type} (key : A -> Q) (c : A) (l : list A) : list A :=
  match l with
  | [] => [c]
  | d :: l' =>
      if Qltb (key c) (key d) then d :: insert_desc key c l' else c :: l
  end.

Definition sorted_desc {A : Type} (key : A -> Q) (l : list A) : list A :=
  fold_right (insert_desc key) [] l.

Definition worst_cells (cells : list grid_cell) : list grid_cell :=
  firstn 12 (sorted_desc c_avgDiff cells).

(** What the function computes between the pass and its [return]. *)
Record diff_stats : Type := mkStats {
  mae : Q;
  rmse : Q;
  similarity_pct : Q;
  grid_cells : list grid_cell;
  zone_report : list zone_entry;
  worst_grid_cells : list grid_cell
}.

Section FloatPower.

(** [x ** 0.5] on floats. *)
Variable pow_half : Q -> Q.

Definition summarize (a : diff_acc) (target_w target_h grid_cols grid_rows : Z)
  : result diff_stats :=
  let channels := target_w * target_h * 3 in
  mae <- fdiv (sum_abs a) (inject_Z channels) ;;
  msq <- fdiv (sum_sq a) (inject_Z channels) ;;
  let rmse := pow_half msq in
  let similarity_pct := similarity mae in
  cells <- grid_cells_of a grid_cols grid_rows ;;
  let zone_report := zone_report_of (zones a) in
  Ok {| mae := mae; rmse := rmse; similarity_pct := similarity_pct;
        grid_cells := cells; zone_report := zone_report;
        worst_grid_cells := worst_cells cells |}.

(** The ["metrics"] entry of the returned dictionary. *)
Definition metrics_of (a : diff_acc) (s : diff_stats) (target_w target_h : Z)
  : result metrics :=
  let px_total := target_w * target_h in
  p10 <- fdiv (inject_Z (diff_gt_10 a) * 100) (inject_Z px_total) ;;
  p25 <- fdiv (inject_Z (diff_gt_25 a) * 100) (inject_Z px_total) ;;
  p50 <- fdiv (inject_Z (diff_gt_50 a) * 100) (inject_Z px_total) ;;
  Ok {| m_mae := round4 (mae s);
        m_rmse := round4 (rmse s);
        m_similarityPct := round4 (similarity_pct s);
        m_pxDiffGt10Pct := round4 p10;
        m_pxDiffGt25Pct := round4 p25;
        m_pxDiffGt50Pct := round4 p50 |}.

(** The diff of a reference and an aligned capture: the pass, then the
    statistics and the metrics drawn from it. *)
Definition diff_engine (fig_img emu_aligned : image) (grid_cols grid_rows : Z)
  : result (diff_acc * diff_stats * metrics) :=
  let '(target_w, target_h) := image_size fig_img in
  a <- diff_pass fig_img emu_aligned grid_cols grid_rows ;;
  s <- summarize a target_w target_h grid_cols grid_rows ;;
  m <- metrics_of a s target_w target_h ;;
  Ok (a, s, m).

End FloatPower.

(** A square root to four decimals, to run the definitions. *)
Definition sqrt4 (q : Q) : Q :=
  (inject_Z (Z.sqrt (Qfloor (q * 100000000))) / 10000)%Q.

(** ** Run identifiers and artifact paths *)

(** What [datetime.now()] returns. *)
Record datetime : Type := mkDatetime {
  dt_year : Z;
  dt_month : Z;
  dt_day : Z;
  dt_hour : Z;
  dt_minute : Z;
  dt_second : Z;
  dt_microsecond : Z
}.

Definition digit (n : Z) : ascii := ascii_of_nat (48 + Z.to_nat (n mod 10)).

(** A field printed on two and on four digits, zero-padded. *)
Definition pad2 (n : Z) : string :=
  String (digit (n / 10)) (String (digit n) EmptyString).

Definition pad4 (n : Z) : string :=
  String (digit (n / 1000)) (String (digit (n / 100)) (pad2 n)).

(** [t.strftime("%Y%m%d_%H%M%S")]. *)
Definition strftime_run_id (t : datetime) : string :=
  (pad4 (dt_year t) ++ pad2 (dt_month t) ++ pad2 (dt_day t) ++ "_"
   ++ pad2 (dt_hour t) ++ pad2 (dt_minute t) ++ pad2 (dt_second t))%string.

(** A date and time of day the clock can return, with a year of four
    digits. *)
Definition valid_datetime (t : datetime) : Prop :=
  1000 <= dt_year t <= 9999 /\ 1 <= dt_month t <= 12 /\ 1 <= dt_day t <= 31 /\
  0 <= dt_hour t <= 23 /\ 0 <= dt_minute t <= 59 /\ 0 <= dt_second t <= 59 /\
  0 <= dt_microsecond t <= 999999.

(** The segments of a path between its separators. *)
Fixpoint path_segments (s : string) : list string :=
  match s with
  | EmptyString => [EmptyString]
  | String c s' =>
      if Ascii.eqb c "/" then EmptyString :: path_segments s'
      else match path_segments s' with
           | [] => [String c EmptyString]
           | p :: ps => String c p :: ps
           end
  end.

(** The root of a POSIX path: nothing for a relative path, two
    separators when the path starts with exactly two, one otherwise. *)
Definition path_root (s : string) : string :=
  match s with
  | String "/" (String "/" (String "/" _)) => "/"
  | String "/" (String "/" _) => "//"
  | String "/" _ => "/"
  | _ => EmptyString
  end.

(** The parts [Path(s)] keeps: the segments that are neither empty nor
    ".". *)
Definition path_parts (s : string) : list string :=
  filter (fun p => negb (String.eqb p "") && negb (String.eqb p "."))
         (path_segments s).

(** What [str(Path(output_dir) / name)] puts before a file name on a
    POSIX host: the root, then every part followed by one separator.
    Repeated separators and "." segments are dropped, ".." segments are
    kept. *)
Definition path_dir_prefix (output_dir : string) : string :=
  (path_root output_dir
   ++ fold_right (fun p rest => p ++ "/" ++ rest) EmptyString
                 (path_parts output_dir))%string.

(** [str(Path(output_dir) / name)] for a file name [name]. *)
Definition path_join (output_dir name : string) : string :=
  (path_dir_prefix output_dir ++ name)%string.

Definition artifact_suffixes : list string :=
  ["_emulator_raw.png"; "_figma_node.png"; "_emulator_scaled.png";
   "_emulator_aligned.png"; "_heatmap.png"]%string.

(** The five files of a run, in the order the function names them. *)
Definition artifact_paths (output_dir run_id : string) : list string :=
  map (fun suffix => path_join output_dir (run_id ++ suffix)%string)
      artifact_suffixes.

(** ** The outside world *)

(** What the function does outside of its own memory. *)
Inductive event : Type :=
| EvMkdir (path : string)
| EvScreencap (path : string)
| EvFigmaApi (file_key node_id token : string) (scale : Q)
             (use_absolute_bounds : bool)
| EvDownload (url path : string)
| EvOpenImage (path : string)
| EvSaveImage (path : string).

(** How the outside answers during one run: the environment variable,
    the clock, the outcome of each call, the images the two files decode
    to, and the resampling filter of [Image.resize]. *)
Record world : Type := mkWorld {
  env_FIGMA_TOKEN : option string;
  now : datetime;
  mkdir_result : result unit;
  capture_result : result unit;
  figma_api_result : result string;
  download_result : result unit;
  open_figma : result image;
  open_emulator : result image;
  lanczos : image -> Z -> Z -> Z -> Z -> rgb
}.

(** Computations that may raise and that log their events. *)
Definition io (A : Type) : Type := list event -> result A * list event.

Definition io_ret {A : Type} (a : A) : io A := fun log => (Ok a, log).

Definition io_raise {A : Type} (e : exn) : io A := fun log => (Raise e, log).

Definition io_bind {A B : Type} (c : io A) (k : A -> io B) : io B :=
  fun log =>
    match c log with
    | (Ok a, log') => k a log'
    | (Raise e, log') => (Raise e, log')
    end.

(** A computation without effect. *)
Definition io_lift {A : Type} (r : result A) : io A := fun log => (r, log).

(** A call to the outside: the event is logged, the outcome is the
    world's. *)
Definition io_call {A : Type} (ev : event) (r : result A) : io A :=
  fun log => (r, log ++ [ev]).

Declare Scope io_scope.
Delimit Scope io_scope with io.
Notation "x <- c ;; k" := (io_bind c (fun x => k))
  (at level 61, c at next level, right associativity) : io_scope.
Notation "' pat <- c ;; k" := (io_bind c (fun x => match x with pat => k end))
  (at level 61, pat pattern, c at next level, right associativity) : io_scope.

(** ** [_resolve_figma_token] *)

(** [a or b] on an optional string and a string. *)
Definition or_else (a : option string) (b : string) : string :=
  match a with
  | Some s => if truthy s then s else b
  | None => b
  end.

Definition token_required : string :=
  "Figma token is required. Pass figma_token or set FIGMA_TOKEN env var.".

Definition _resolve_figma_token (W : world) (figma_token : option string)
  : result string :=
  let token := strip (or_else figma_token (or_else (env_FIGMA_TOKEN W) "")) in
  if negb (truthy token) then Raise (RuntimeError token_required)
  else Ok token.

(** ** [compare_screen_with_figma] *)

(** [Image.resize((w, h), LANCZOS)]; a size below 1 is refused. *)
Definition resize (W : world) (im : image) (w h : Z) : result image :=
  if (w <? 1) || (h <? 1) then Raise ValueError
  else Ok {| im_width := w; im_height := h;
             im_data := flat_map (fun y => map (fun x => lanczos W im w h x y)
                                               (range w))
                                 (range h) |}.

(** [int(round(emu_raw_img.height * target_w / emu_raw_img.width))]. *)
Definition scaled_height (emu_raw_img : image) (target_w : Z) : result Z :=
  if im_width emu_raw_img =? 0 then Raise ZeroDivisionError
  else Ok (py_round (inject_Z (im_height emu_raw_img * target_w)
                     / inject_Z (im_width emu_raw_img))).

Definition dimension_message (scaled_h target_h : Z) : string :=
  ("Scaled emulator image is shorter than Figma image ("
   ++ str_of_int scaled_h ++ " < " ++ str_of_int target_h ++ ").")%string.

(** The dictionary returned. *)
Record report : Type := mkReport {
  r_fileKey : string;
  r_nodeId : string;
  r_scale : Q;
  r_width : Z;
  r_height : Z;
  r_useAbsoluteBounds : bool;
  r_scaledWidth : Z;
  r_scaledHeight : Z;
  r_bestYOffset : Z;
  r_coarseMaeAtBestOffset : pyfloat;
  r_metrics : metrics;
  r_zones : list zone_entry;
  r_worstGridCells : list grid_cell;
  r_emulatorRaw : string;
  r_figmaNode : string;
  r_emulatorScaled : string;
  r_emulatorAligned : string;
  r_heatmap : string
}.

Section Compare.

Variable pow_half : Q -> Q.

Definition compare_screen_with_figma (W : world)
    (file_key node_id : string) (figma_token : option string) (scale : Q)
    (use_absolute_bounds : bool) (grid_cols grid_rows : Z)
    (output_dir : string) : io report :=
  (if negb (truthy (strip file_key))
   then io_raise (RuntimeError "file_key is required.")
   else if negb (truthy (strip node_id))
   then io_raise (RuntimeError "node_id is required.")
   else if Qle_bool scale 0
   then io_raise (RuntimeError "scale must be > 0.")
   else if (grid_cols <=? 0) || (grid_rows <=? 0)
   then io_raise (RuntimeError "grid_cols and grid_rows must be > 0.")
   else
     token <- io_lift (_resolve_figma_token W figma_token) ;;
     _ <- io_call (EvMkdir output_dir) (mkdir_result W) ;;
     let run_id := strftime_run_id (now W) in
     let emulator_raw := path_join output_dir (run_id ++ "_emulator_raw.png")%string in
     let figma_node_path := path_join output_dir (run_id ++ "_figma_node.png")%string in
     let emulator_scaled_path :=
       path_join output_dir (run_id ++ "_emulator_scaled.png")%string in
     let emulator_aligned_path :=
       path_join output_dir (run_id ++ "_emulator_aligned.png")%string in
     let heatmap_path := path_join output_dir (run_id ++ "_heatmap.png")%string in
     _ <- io_call (EvScreencap emulator_raw) (capture_result W) ;;
     figma_image_url <-
       io_call (EvFigmaApi file_key node_id token scale use_absolute_bounds)
               (figma_api_result W) ;;
     _ <- io_call (EvDownload figma_image_url figma_node_path)
                  (download_result W) ;;
     fig_img <- io_call (EvOpenImage figma_node_path) (open_figma W) ;;
     emu_raw_img <- io_call (EvOpenImage emulator_raw) (open_emulator W) ;;
     let '(target_w, target_h) := image_size fig_img in
     scaled_h <- io_lift (scaled_height emu_raw_img target_w) ;;
     if scaled_h <? target_h
     then io_raise (RuntimeError (dimension_message scaled_h target_h))
     else
       emu_scaled <- io_lift (resize W emu_raw_img target_w scaled_h) ;;
       _ <- io_call (EvSaveImage emulator_scaled_path) (Ok tt) ;;
       ' (best_y, best_mae) <-
          io_lift (offset_search fig_img emu_scaled scaled_h target_h) ;;
       let emu_aligned :=
         crop emu_scaled 0 best_y target_w (best_y + target_h) in
       _ <- io_call (EvSaveImage emulator_aligned_path) (Ok tt) ;;
       a <- io_lift (diff_pass fig_img emu_aligned grid_cols grid_rows) ;;
       _ <- io_call (EvSaveImage heatmap_path) (Ok tt) ;;
       s <- io_lift (summarize pow_half a target_w target_h grid_cols grid_rows) ;;
       m <- io_lift (metrics_of a s target_w target_h) ;;
       io_ret {| r_fileKey := file_key;
                 r_nodeId := node_id;
                 r_scale := scale;
                 r_width := target_w;
                 r_height := target_h;
                 r_useAbsoluteBounds := use_absolute_bounds;
                 r_scaledWidth := target_w;
                 r_scaledHeight := scaled_h;
                 r_bestYOffset := best_y;
                 r_coarseMaeAtBestOffset := round_float4 best_mae;
                 r_metrics := m;
                 r_zones := zone_report s;
                 r_worstGridCells := worst_grid_cells s;
                 r_emulatorRaw := emulator_raw;
                 r_figmaNode := figma_node_path;
                 r_emulatorScaled := emulator_scaled_path;
                 r_emulatorAligned := emulator_aligned_path;
                 r_heatmap := heatmap_path |})%io.

End Compare.

(** [needle in hay]. *)
Definition contains (hay needle : string) : Prop :=
  exists pre post, hay = (pre ++ needle ++ post)%string.

(** The messages of the four argument checks. *)
Definition validation_messages : list string :=
  ["file_key is required."; "node_id is required."; "scale must be > 0.";
   "grid_cols and grid_rows must be > 0."]%string.

(** The calendar second of a clock reading: what [strftime_run_id]
    prints. *)
Definition calendar_second (t : datetime) : Z * Z * Z * Z * Z * Z :=
  (dt_year t, dt_month t, dt_day t, dt_hour t, dt_minute t, dt_second t).

(** The world [W] read at another time. *)
Definition at_time (W : world) (t : datetime) : world :=
  {| env_FIGMA_TOKEN := env_FIGMA_TOKEN W;
     now := t;
     mkdir_result := mkdir_result W;
     capture_result := capture_result W;
     figma_api_result := figma_api_result W;
     download_result := download_result W;
     open_figma := open_figma W;
     open_emulator := open_emulator W;
     lanczos := lanczos W |}.

(** The artifact paths of a report. *)
Definition report_paths (r : report) : list string :=
  [r_emulatorRaw r; r_figmaNode r; r_emulatorScaled r; r_emulatorAligned r;
   r_heatmap r].

(** The file an event writes, if it writes one. *)
Definition written_by (ev : event) : list string :=
  match ev with
  | EvScreencap path => [path]
  | EvDownload _ path => [path]
  | EvSaveImage path => [path]
  | EvMkdir _ | EvFigmaApi _ _ _ _ _ | EvOpenImage _ => []
  end.

(** The files written during a run, in the order of the writes. *)
Definition files_written (log : list event) : list string :=
  flat_map written_by log.

(** ** The pass as a fold over the pixels

    One iteration of the pass when nothing raises, as a function of the
    accumulator; [diff_pass_as_fold] below shows that on images of the
    same size the pass is the left fold of this step over [pixels]. *)

Definition sq_delta (p q : rgb) : Z :=
  let '(r1, g1, b1) := p in
  let '(r2, g2, b2) := q in
  Z.abs (r1 - r2) * Z.abs (r1 - r2) + Z.abs (g1 - g2) * Z.abs (g1 - g2)
  + Z.abs (b1 - b2) * Z.abs (b1 - b2).

(** [d_avg] at pixel (x, y). *)
Definition d_avg_at (fig_img emu_aligned : image) (x y : Z) : Q :=
  (inject_Z (abs_delta (pixel_at fig_img x y) (pixel_at emu_aligned x y)) / 3)%Q.

Definition pixel_step (fig_img emu_aligned : image)
    (target_w target_h grid_cols grid_rows : Z)
    (a : diff_acc) (p : Z * Z) : diff_acc :=
  let '(x, y) := p in
  let d := abs_delta (pixel_at fig_img x y) (pixel_at emu_aligned x y) in
  let d_avg := d_avg_at fig_img emu_aligned x y in
  let k := Z.to_nat (cell_index target_w target_h grid_cols grid_rows x y) in
  {| sum_abs := (sum_abs a + inject_Z d)%Q;
     sum_sq := (sum_sq a
                + inject_Z (sq_delta (pixel_at fig_img x y)
                                     (pixel_at emu_aligned x y)))%Q;
     diff_gt_10 := if Qltb 10 d_avg then diff_gt_10 a + 1 else diff_gt_10 a;
     diff_gt_25 := if Qltb 25 d_avg then diff_gt_25 a + 1 else diff_gt_25 a;
     diff_gt_50 := if Qltb 50 d_avg then diff_gt_50 a + 1 else diff_gt_50 a;
     cell_sums := list_set (cell_sums a) k (nth k (cell_sums a) 0 + d_avg)%Q;
     cell_pixels := list_set (cell_pixels a) k (nth k (cell_pixels a) 0 + 1);
     zones := zone_add (zones a) (inject_Z y / inject_Z target_h)%Q d_avg;
     heatmap :=
       {| im_width := im_width (heatmap a);
          im_height := im_height (heatmap a);
          im_data := list_set (im_data (heatmap a))
                              (Z.to_nat (y * im_width (heatmap a) + x))
                              (Z.min 255 (py_round (d_avg * 4)), 0, 0) |} |}.

(** What every iteration keeps: the sizes of the cell tables and of the
    heatmap. *)
Definition pass_shape (target_w target_h grid_cols grid_rows : Z)
    (a : diff_acc) : Prop :=
  List.length (cell_sums a) = Z.to_nat (grid_cols * grid_rows) /\
  List.length (cell_pixels a) = Z.to_nat (grid_cols * grid_rows) /\
  im_width (heatmap a) = target_w /\ im_height (heatmap a) = target_h.

(** Index of the first band of [zs] that holds [y_norm]. *)
Fixpoint first_band (zs : list zone) (y_norm : Q) : option nat :=
  match zs with
  | [] => None
  | z :: rest =>
      if in_band z y_norm then Some O
      else option_map S (first_band rest y_norm)
  end.

(** Name and bounds of every zone, which the pass never changes. *)
Definition zone_bands (zs : list zone) : list (string * Q * Q) :=
  map (fun z => (z_name z, z_y0 z, z_y1 z)) zs.

(** [first_band zs y_norm] is band [j]. *)
Definition is_band (o : option nat) (j : nat) : bool :=
  match o with
  | Some i => Nat.eqb i j
  | None => false
  end.

(** The average of cell ([row], [col]) and its report entry, read off
    tables of the right size. *)
Definition cell_avg (a : diff_acc) (grid_cols row col : Z) : Q :=
  let k := Z.to_nat (row * grid_cols + col) in
  if nth k (cell_pixels a) 0 =? 0 then 0%Q
  else (nth k (cell_sums a) 0 / inject_Z (nth k (cell_pixels a) 0%Z))%Q.

Definition cell_entry (a : diff_acc) (grid_cols row col : Z) : grid_cell :=
  {| c_row := row; c_col := col;
     c_avgDiff := round3 (cell_avg a grid_cols row col);
     c_similarityPct := round3 (similarity (cell_avg a grid_cols row col)) |}.

Definition all_cells (a : diff_acc) (grid_cols grid_rows : Z) : list grid_cell :=
  flat_map (fun row => map (cell_entry a grid_cols row) (range grid_cols))
           (range grid_rows).

(** The three channel differences of two pixels. *)
Definition channel_deltas (p q : rgb) : Z * Z * Z :=
  let '(r1, g1, b1) := p in
  let '(r2, g2, b2) := q in
  (Z.abs (r1 - r2), Z.abs (g1 - g2), Z.abs (b1 - b2)).

(** Number of elements of [l] that satisfy [f]. *)
Definition count {A : Type} (f : A -> bool) (l : list A) : Z :=
  Z.of_nat (List.length (filter f l)).

(** The sum of the three channel differences at pixel [p] = (x, y). *)
Definition delta_at (fig_img emu_aligned : image) (p : Z * Z) : Z :=
  abs_delta (pixel_at fig_img (fst p) (snd p))
            (pixel_at emu_aligned (fst p) (snd p)).

(** ** Python strings *)

(** The line feed. *)
Definition LF : ascii := "010"%char.

(** [s.startswith(p)]. *)
Definition startswith (s p : string) : bool := String.prefix p s.

(** [s[n:]] for a constant [n >= 0]. *)
Fixpoint drop (n : nat) (s : string) : string :=
  match n, s with
  | O, _ => s
  | S _, EmptyString => EmptyString
  | S n', String _ s' => drop n' s'
  end.

(** [c in s] for a single character [c]. *)
Fixpoint char_in (c : ascii) (s : string) : bool :=
  match s with
  | EmptyString => false
  | String d s' => Ascii.eqb d c || char_in c s'
  end.

(** [s.split(sep)] for a single character [sep]: the list is never
    empty. *)
Fixpoint split (sep : ascii) (s : string) : list string :=
  match s with
  | EmptyString => [EmptyString]
  | String c s' =>
      if Ascii.eqb c sep then EmptyString :: split sep s'
      else match split sep s' with
           | [] => [String c EmptyString]
           | w :: ws => String c w :: ws
           end
  end.

(** [sep.join(l)]. *)
Definition join (sep : string) (l : list string) : string := String.concat sep l.

(** Truth value of an optional string: neither [None] nor empty. *)
Definition given (o : option string) : bool :=
  match o with
  | Some s => truthy s
  | None => false
  end.

(** ** The device *)

(** What the device answers to a shell command, after the commands it
    has received before. *)
Definition device : Type := list string -> string -> result string.

(** Computations that send shell commands to the device and may raise;
    the log holds the commands sent, the oldest first. *)
Definition adb (A : Type) : Type := list string -> result A * list string.

Definition adb_ret {A : Type} (a : A) : adb A := fun log => (Ok a, log).

Definition adb_bind {A B : Type} (c : adb A) (k : A -> adb B) : adb B :=
  fun log =>
    match c log with
    | (Ok a, log') => k a log'
    | (Raise e, log') => (Raise e, log')
    end.

(** [self.device.shell(command)]. *)
Definition shell (D : device) (command : string) : adb string :=
  fun log => (D log command, log ++ [command]).

Declare Scope adb_scope.
Delimit Scope adb_scope with adb.
Notation "x <- c ;; k" := (adb_bind c (fun x => k))
  (at level 61, c at next level, right associativity) : adb_scope.

(** ** [__init__]: the choice of the device *)

(** How [__init__] ends: with a manager of the device selected and the
    lines printed, with [sys.exit] after a line on the error stream, or
    with an exception. *)
Inductive init_outcome : Type :=
| Managing (device_serial : option string) (stdout : list string)
| Exited (status : Z) (stderr : string)
| InitRaised (e : exn).

Definition init_fail (exit_on_error : bool) (error_msg : string) : init_outcome :=
  if exit_on_error then Exited 1 error_msg
  else InitRaised (RuntimeError error_msg).

Section Init.

(** [str(l)] on a list of strings. *)
Variable str_of_list : list string -> string.

(** [check_adb_installed] and [get_available_devices] are the answers
    of the two static methods. *)
Definition __init__ (check_adb_installed : bool)
    (get_available_devices : result (list string))
    (device_name : option string) (exit_on_error : bool) : init_outcome :=
  if negb check_adb_installed
  then init_fail exit_on_error
         "adb is not installed or not in PATH. Please install adb and ensure it is in your PATH."
  else
    match get_available_devices with
    | Raise e => InitRaised e
    | Ok available_devices =>
        if (List.length available_devices =? 0)%nat
        then init_fail exit_on_error
               "No devices connected. Please connect a device and try again."
        else if given device_name
        then
          let name := match device_name with Some n => n | None => EmptyString end in
          if negb (existsb (String.eqb name) available_devices)
          then init_fail exit_on_error
                 ("Device " ++ name ++ " not found. Available devices: "
                  ++ str_of_list available_devices)%string
          else Managing (Some name) []
        else if (List.length available_devices =? 1)%nat
        then Managing (nth_error available_devices 0)
               [("No device specified, automatically selected: "
                 ++ nth 0 available_devices "")%string]
        else if (1 <? List.length available_devices)%nat
        then init_fail exit_on_error
               ("Multiple devices connected: "
                ++ str_of_list available_devices
                ++ ". Please specify a device in config.yaml or connect only one device.")%string
        else Managing None []
    end.

End Init.

(** ** [get_packages], [execute_adb_shell_command], [launch_app] *)

Definition get_packages (D : device) : adb string :=
  (out <- shell D "pm list packages" ;;
   let packages := split LF (strip out) in
   let result := map (drop 8) packages in
   adb_ret (join (String LF "") result))%adb.

Definition execute_adb_shell_command (D : device) (command : string) : adb string :=
  let command :=
    if startswith command "adb shell " then drop 10 command
    else if startswith command "adb " then drop 4 command
    else command in
  shell D command.

Definition launch_app (D : device) (package_name : string)
    (activity_name : option string) (stop_first : bool) : adb string :=
  (output_parts <-
     (if stop_first
      then _ <- shell D ("am force-stop " ++ package_name) ;;
           adb_ret [("Force-stopped " ++ package_name)%string]
      else adb_ret []) ;;
   launch_output <-
     (if given activity_name
      then
        let activity_name :=
          match activity_name with Some a => a | None => EmptyString end in
        let component :=
          if char_in "/" activity_name then activity_name
          else (package_name ++ "/" ++ activity_name)%string in
        shell D ("am start -n " ++ component)
      else
        shell D ("monkey -p " ++ package_name
                 ++ " -c android.intent.category.LAUNCHER 1")) ;;
   let launch_output := strip launch_output in
   let output_parts :=
     if truthy launch_output then output_parts ++ [launch_output]
     else output_parts in
   if (List.length output_parts =? 0)%nat
   then adb_ret ("Launch command sent for " ++ package_name)%string
   else adb_ret (join (String LF "") output_parts))%adb.

(** ** The listing of [pm list packages] *)

(** No character of [s] is white space. *)
Fixpoint no_blank (s : string) : bool :=
  match s with
  | EmptyString => true
  | String c s' => negb (is_space c) && no_blank s'
  end.

(** What [pm list packages] prints for the packages [names]: one line
    "package:<name>" each. *)
Definition pm_list (names : list string) : string :=
  fold_right (fun n out => ("package:" ++ n ++ String LF out)%string)
             EmptyString names.

(** ** [_tail_file] *)

(** [l[start:]]: a negative [start] counts from the end, and a start
    outside the list is clipped. *)
Definition slice_from {A : Type} (l : list A) (start : Z) : list A :=
  let n := Z.of_nat (List.length l) in
  let i := if start <? 0 then Z.max 0 (n + start) else Z.min start n in
  skipn (Z.to_nat i) l.

(** What is found at a path: nothing, something that cannot be read, or
    a text file with the lines [readlines] returns. *)
Inductive file_state : Type :=
| Missing
| Unreadable (e : exn)
| Lines (file_lines : list string).

(** [_tail_file] on what is found at [file_path]. *)
Definition _tail_file (found : file_state) (file_path : string) (lines : Z)
  : result string :=
  match found with
  | Missing => Ok ("No log file found at " ++ file_path)%string
  | Unreadable e => Raise e
  | Lines file_lines =>
      if (List.length file_lines =? 0)%nat then Ok "(log file is empty)"%string
      else Ok (rstrip (join "" (slice_from file_lines (- lines))))
  end.

(** ** The managed [flutter run] process *)

(** A [Popen] object: its pid and whether it has a pipe to its standard
    input. *)
Record process : Type := mkProcess {
  pid : Z;
  stdin : bool
}.

(** An open file object. *)
Record handle : Type := mkHandle {
  h_path : string;
  closed : bool
}.

(** The attributes of the manager. *)
Record manager : Type := mkManager {
  device_serial : string;
  flutter_process : option process;
  flutter_log_path : option string;
  _flutter_log_handle : option handle
}.

(** What the manager does on the host. *)
Inductive host_event : Type :=
| HPoll (pid : Z)
| HWrite (pid : Z) (text : string)
| HWait (pid : Z) (timeout : Z)
| HKill (pid : Z)
| HSleep (seconds : Z)
| HOpen (path : string)
| HFlush (path : string)
| HClose (path : string)
| HRead (path : string)
| HSpawn (command : list string) (cwd : string)
| HDiscoverUrl (package_name : string)
| HDiscoverUrlFromHost
| HDiscoverPort (package_name : string).

(** What the host answers, given what has been done so far: [poll]
    (nothing while the process runs, its exit code after), whether a
    write to the pipe and a [wait] succeed, what [Popen] and [open]
    return, what is found at a path, the functions of [os], [shutil]
    and [shlex], and what the three searches for the Dart VM service
    find in the logcat of the device and in the processes of the host.
    The two searches on the device read the logcat through [adb] and
    raise when that fails; the search on the host catches every
    exception and then finds nothing. *)
Record host : Type := mkHost {
  poll_answer : list host_event -> Z -> option Z;
  write_answer : list host_event -> Z -> result unit;
  wait_answer : list host_event -> Z -> bool;
  spawn_answer : list host_event -> list string -> result process;
  open_answer : list host_event -> string -> result unit;
  found_at : list host_event -> string -> file_state;
  isdir : string -> bool;
  path_exists : string -> bool;
  has_separator : string -> bool;
  which : string -> option string;
  os_path_join : string -> string -> string;
  shlex_split : string -> result (list string);
  vm_service_url_on_device : list host_event -> string -> result (option string);
  vm_service_url_on_host : list host_event -> option string;
  vm_service_port_on_device : list host_event -> string -> result (option Z)
}.

(** Methods: they may raise, they change the attributes of the manager
    and they log what they do on the host. *)
Definition method (A : Type) : Type :=
  manager -> list host_event -> result A * manager * list host_event.

Definition m_ret {A : Type} (a : A) : method A :=
  fun st log => (Ok a, st, log).

Definition m_raise {A : Type} (e : exn) : method A :=
  fun st log => (Raise e, st, log).

Definition m_bind {A B : Type} (c : method A) (k : A -> method B) : method B :=
  fun st log =>
    match c st log with
    | (Ok a, st', log') => k a st' log'
    | (Raise e, st', log') => (Raise e, st', log')
    end.

(** Reading and assigning the attributes. *)
Definition self : method manager := fun st log => (Ok st, st, log).

Definition assign (st' : manager) : method unit := fun _ log => (Ok tt, st', log).

(** A call to the host: the answer is computed from the log, then the
    event is logged. *)
Definition host_call {A : Type} (ev : host_event)
    (answer : list host_event -> result A) : method A :=
  fun st log => (answer log, st, log ++ [ev]).

Declare Scope method_scope.
Delimit Scope method_scope with method.
Notation "x <- c ;; k" := (m_bind c (fun x => k))
  (at level 61, c at next level, right associativity) : method_scope.

(** [subprocess.TimeoutExpired]. *)
Definition TimeoutExpired : exn := ExternalError "TimeoutExpired".

Section Flutter.

Variable H : host.

(** [process.poll()]. *)
Definition poll (p : process) : method (option Z) :=
  host_call (HPoll (pid p)) (fun log => Ok (poll_answer H log (pid p))).

(** [process.stdin.write(text)] followed by [flush()]. *)
Definition write_stdin (p : process) (text : string) : method unit :=
  host_call (HWrite (pid p) text) (fun log => write_answer H log (pid p)).

(** [process.wait(timeout)] inside [try: ... except TimeoutExpired]:
    whether the process ended in time. *)
Definition try_wait (p : process) (timeout : Z) : method bool :=
  host_call (HWait (pid p) timeout)
            (fun log => Ok (wait_answer H log (pid p))).

(** [process.wait(timeout)]. *)
Definition wait (p : process) (timeout : Z) : method unit :=
  (ended <- try_wait p timeout ;;
   if ended then m_ret tt else m_raise TimeoutExpired)%method.

Definition kill (p : process) : method unit :=
  host_call (HKill (pid p)) (fun _ => Ok tt).

(** [self._tail_file(path, lines)]. *)
Definition tail_file (file_path : string) (lines : Z) : method string :=
  host_call (HRead file_path)
            (fun log => _tail_file (found_at H log file_path) file_path lines).

Definition _cleanup_flutter_process_state : method unit :=
  (st <- self ;;
   _ <- match _flutter_log_handle st with
        | Some h =>
            if negb (closed h)
            then host_call (HClose (h_path h)) (fun _ => Ok tt)
            else m_ret tt
        | None => m_ret tt
        end ;;
   assign {| device_serial := device_serial st;
             flutter_process := None;
             flutter_log_path := flutter_log_path st;
             _flutter_log_handle := None |})%method.

Definition _resolve_flutter_executable (flutter_executable : string)
  : method string :=
  if has_separator H flutter_executable
  then
    if negb (path_exists H flutter_executable)
    then m_raise (RuntimeError ("Flutter executable not found at "
                                ++ flutter_executable))
    else m_ret flutter_executable
  else
    match which H flutter_executable with
    | Some resolved =>
        if truthy resolved then m_ret resolved
        else m_raise (RuntimeError
                        ("Could not find '" ++ flutter_executable
                         ++ "' on PATH. Pass an absolute flutter executable path."))
    | None =>
        m_raise (RuntimeError
                   ("Could not find '" ++ flutter_executable
                    ++ "' on PATH. Pass an absolute flutter executable path."))
    end.

(** The test [not self.flutter_process or self.flutter_process.poll() is
    not None]: the process polled, if there is one that still runs. *)
Definition running_process : method (option process) :=
  (st <- self ;;
   match flutter_process st with
   | None => m_ret None
   | Some p =>
       code <- poll p ;;
       match code with
       | None => m_ret (Some p)
       | Some _ => m_ret None
       end
   end)%method.

Definition start_flutter_run (project_dir target flutter_executable : string)
    (additional_args : option string) (startup_wait_seconds : Z)
  : method string :=
  (active <- running_process ;;
   match active with
   | Some p =>
       m_ret ("Flutter run already active (pid: " ++ str_of_int (pid p) ++ "). "
              ++ "Use hot_reload_flutter_run / hot_restart_flutter_run or stop_flutter_run.")%string
   | None =>
       st <- self ;;
       _ <- match flutter_process st with
            | None => m_ret tt
            | Some p =>
                code <- poll p ;;
                match code with
                | Some _ => _cleanup_flutter_process_state
                | None => m_ret tt
                end
            end ;;
       if negb (isdir H project_dir)
       then m_raise (RuntimeError ("Project directory not found: " ++ project_dir))
       else
         flutter_cmd <- _resolve_flutter_executable flutter_executable ;;
         st <- self ;;
         let command :=
           [flutter_cmd; "run"; "-d"; device_serial st; "-t"; target]%string in
         command <-
           (if given additional_args
            then
              match shlex_split H (match additional_args with
                                   | Some a => a | None => EmptyString end) with
              | Ok extra => m_ret (command ++ extra)
              | Raise e => m_raise e
              end
            else m_ret command) ;;
         let log_path := os_path_join H project_dir ".mcp_flutter_run.log" in
         _ <- assign {| device_serial := device_serial st;
                        flutter_process := flutter_process st;
                        flutter_log_path := Some log_path;
                        _flutter_log_handle := _flutter_log_handle st |} ;;
         _ <- host_call (HOpen log_path) (fun log => open_answer H log log_path) ;;
         _ <- assign {| device_serial := device_serial st;
                        flutter_process := flutter_process st;
                        flutter_log_path := Some log_path;
                        _flutter_log_handle := Some (mkHandle log_path false) |} ;;
         p <- host_call (HSpawn command project_dir)
                        (fun log => spawn_answer H log command) ;;
         _ <- assign {| device_serial := device_serial st;
                        flutter_process := Some p;
                        flutter_log_path := Some log_path;
                        _flutter_log_handle := Some (mkHandle log_path false) |} ;;
         _ <- host_call (HSleep (Z.max 0 startup_wait_seconds)) (fun _ => Ok tt) ;;
         code <- poll p ;;
         match code with
         | Some exit_code =>
             failure_tail <- tail_file log_path 80 ;;
             _ <- _cleanup_flutter_process_state ;;
             m_ret ("flutter run exited early with code " ++ str_of_int exit_code
                    ++ "." ++ String LF "Log tail:" ++ String LF failure_tail)%string
         | None =>
             m_ret ("Started flutter run (pid: " ++ str_of_int (pid p)
                    ++ ") on device " ++ device_serial st ++ "."
                    ++ String LF "Log file: " ++ log_path)%string
         end
   end)%method.

Definition hot_reload_flutter_run : method string :=
  (active <- running_process ;;
   match active with
   | None =>
       m_ret "No active flutter run process. Start one with start_flutter_run first."%string
   | Some p =>
       if negb (stdin p)
       then m_ret "Flutter process stdin is unavailable; cannot send hot reload command."%string
       else
         _ <- write_stdin p (String "r" (String LF "")) ;;
         m_ret "Hot reload command sent to flutter run."%string
   end)%method.

Definition hot_restart_flutter_run : method string :=
  (active <- running_process ;;
   match active with
   | None =>
       m_ret "No active flutter run process. Start one with start_flutter_run first."%string
   | Some p =>
       if negb (stdin p)
       then m_ret "Flutter process stdin is unavailable; cannot send hot restart command."%string
       else
         _ <- write_stdin p (String "R" (String LF "")) ;;
         m_ret "Hot restart command sent to flutter run."%string
   end)%method.

Definition stop_flutter_run (graceful_wait_seconds : Z) : method string :=
  (active <- running_process ;;
   match active with
   | None =>
       _ <- _cleanup_flutter_process_state ;;
       m_ret "No active flutter run process."%string
   | Some p =>
       _ <- (if stdin p then write_stdin p (String "q" (String LF ""))
             else m_ret tt) ;;
       stopped_gracefully <- try_wait p (Z.max 1 graceful_wait_seconds) ;;
       _ <- (if stopped_gracefully then m_ret tt
             else _ <- kill p ;; wait p 5) ;;
       _ <- _cleanup_flutter_process_state ;;
       if stopped_gracefully
       then m_ret ("Stopped flutter run gracefully (pid: "
                   ++ str_of_int (pid p) ++ ").")%string
       else m_ret ("Force-killed flutter run process (pid: "
                   ++ str_of_int (pid p) ++ ").")%string
   end)%method.

Definition get_flutter_run_log (lines : Z) : method string :=
  (st <- self ;;
   if negb (given (flutter_log_path st))
   then m_ret "No flutter log available yet. Start flutter run first."%string
   else
     _ <- match _flutter_log_handle st with
          | Some h =>
              if negb (closed h)
              then host_call (HFlush (h_path h)) (fun _ => Ok tt)
              else m_ret tt
          | None => m_ret tt
          end ;;
     tail_file (match flutter_log_path st with
                | Some p => p | None => EmptyString end)
               (Z.max 1 lines))%method.

End Flutter.

(** A manager that has a process also has a log path and a log handle. *)
Definition tidy (st : manager) : Prop :=
  flutter_process st <> None ->
  flutter_log_path st <> None /\ _flutter_log_handle st <> None.

(** ** [_run_attach_and_trigger_action]: the endpoint and the command *)

Section Attach.

Variable H : host.

(** What the method does from the opening of the attach log on: it
    spawns [command] in [project_dir], waits for the attach to be ready,
    writes the key of the action and detaches.  These loops wait on the
    clock and are left as a parameter. *)
Variable attach_session :
  forall (command : list string) (project_dir package_name action : string)
         (debug_port : option Z)
         (attach_wait_seconds action_wait_seconds : Z), method string.

Definition _discover_vm_service_debug_url (package_name : string)
  : method (option string) :=
  host_call (HDiscoverUrl package_name)
            (fun log => vm_service_url_on_device H log package_name).

Definition _discover_vm_service_debug_url_from_host : method (option string) :=
  host_call HDiscoverUrlFromHost (fun log => Ok (vm_service_url_on_host H log)).

Definition _discover_vm_service_port (package_name : string)
  : method (option Z) :=
  host_call (HDiscoverPort package_name)
            (fun log => vm_service_port_on_device H log package_name).

Definition _run_attach_and_trigger_action
    (project_dir package_name action target flutter_executable : string)
    (debug_port : option Z) (debug_url additional_args : option string)
    (attach_wait_seconds action_wait_seconds : Z) : method string :=
  (if negb (String.eqb action "reload" || String.eqb action "restart")
   then m_raise (RuntimeError "action must be 'reload' or 'restart'.")
   else if negb (isdir H project_dir)
   then m_raise (RuntimeError ("Project directory not found: " ++ project_dir))
   else
     endpoint <-
       (if negb (given debug_url)
           && match debug_port with
              | None => true
              | Some port => port <=? 0
              end
        then
          discovered_url <- _discover_vm_service_debug_url package_name ;;
          discovered_url <-
            (if negb (given discovered_url)
             then _discover_vm_service_debug_url_from_host
             else m_ret discovered_url) ;;
          if given discovered_url
          then m_ret (discovered_url, debug_port)
          else
            discovered_port <- _discover_vm_service_port package_name ;;
            match discovered_port with
            | None =>
                m_raise (RuntimeError
                           ("Could not discover Dart VM service endpoint from logcat. "
                            ++ "Pass debug_url/debug_port explicitly."))
            | Some port => m_ret (debug_url, Some port)
            end
        else m_ret (debug_url, debug_port)) ;;
     let debug_url := fst endpoint in
     let debug_port := snd endpoint in
     flutter_cmd <- _resolve_flutter_executable H flutter_executable ;;
     st <- self ;;
     let command :=
       [flutter_cmd; "attach"; "-d"; device_serial st; "--app-id"; package_name;
        "-t"; target; "--no-dds"]%string in
     let command :=
       if given debug_url
       then command ++ ["--debug-url"%string;
                        match debug_url with Some u => u | None => EmptyString end]
       else
         match debug_port with
         | Some port =>
             if port =? 0 then command
             else command ++ ["--debug-port"%string; str_of_int port]
         | None => command
         end in
     command <-
       (if given additional_args
        then
          match shlex_split H (match additional_args with
                               | Some a => a | None => EmptyString end) with
          | Ok extra => m_ret (command ++ extra)
          | Raise e => m_raise e
          end
        else m_ret command) ;;
     attach_session command project_dir package_name action debug_port
                    attach_wait_seconds action_wait_seconds)%method.

Definition hot_reload_vscode_session
    (project_dir package_name target flutter_executable : string)
    (debug_port : option Z) (debug_url additional_args : option string)
    (attach_wait_seconds action_wait_seconds : Z) : method string :=
  _run_attach_and_trigger_action project_dir package_name "reload" target
    flutter_executable debug_port debug_url additional_args
    attach_wait_seconds action_wait_seconds.

Definition hot_restart_vscode_session
    (project_dir package_name target flutter_executable : string)
    (debug_port : option Z) (debug_url additional_args : option string)
    (attach_wait_seconds action_wait_seconds : Z) : method string :=
  _run_attach_and_trigger_action project_dir package_name "restart" target
    flutter_executable debug_port debug_url additional_args
    attach_wait_seconds action_wait_seconds.

End Attach.

(** ** [get_package_action_intents] *)

(** [s.find(sub)] for a non-empty [sub]: the first position at which
    [sub] occurs, [None] for -1. *)
Definition find (s sub : string) : option nat := String.index 0 sub s.

(** [s[:n]] for [n >= 0]. *)
Fixpoint take (n : nat) (s : string) : string :=
  match n, s with
  | O, _ => EmptyString
  | S _, EmptyString => EmptyString
  | S n', String c s' => String c (take n' s')
  end.

(** [s[a:b]] for [0 <= a <= b]. *)
Definition slice (s : string) (a b : nat) : string := take (b - a) (drop a s).

Definition get_package_action_intents (D : device) (package_name : string)
  : adb (list string) :=
  (output <- shell D ("dumpsys package " ++ package_name) ;;
   match find output "Activity Resolver Table:" with
   | None => adb_ret []
   | Some resolver_table_start =>
       let resolver_section := drop resolver_table_start output in
       match find resolver_section (String LF "  Non-Data Actions:") with
       | None => adb_ret []
       | Some non_data_start =>
           let non_data_section :=
             match find (drop non_data_start resolver_section)
                        (String LF (String LF "")) with
             | None => drop non_data_start resolver_section
             | Some section_end =>
                 slice resolver_section non_data_start (non_data_start + section_end)
             end in
           adb_ret
             (filter (fun line => startswith line "android." || startswith line "com.")
                     (map strip (split LF non_data_section)))
       end
   end)%adb.

(** ** Small images, clocks and worlds used to run the definitions *)

Definition sample_fig : image :=
  mkImage 3 2 [(10, 20, 30); (0, 0, 0); (40, 50, 60);
               (1, 1, 1); (2, 2, 2); (3, 3, 3)].

Definition sample_emu : image :=
  mkImage 3 4 [(90, 90, 90); (0, 0, 0); (90, 90, 90);
               (9, 9, 9); (9, 9, 9); (9, 9, 9);
               (12, 20, 30); (7, 7, 7); (40, 50, 61);
               (10, 20, 30); (0, 0, 0); (40, 50, 61)].

(** A world in which every call succeeds, on two given images and a
    filter that paints one colour. *)
Definition quiet_world (fig_img emu_raw_img : image) (c : rgb) : world :=
  {| env_FIGMA_TOKEN := None;
     now := mkDatetime 2026 3 9 14 5 7 250000;
     mkdir_result := Ok tt;
     capture_result := Ok tt;
     figma_api_result := Ok "https://example.com/mock.png"%string;
     download_result := Ok tt;
     open_figma := Ok fig_img;
     open_emulator := Ok emu_raw_img;
     lanczos := fun _ _ _ _ _ => c |}.

Definition solid (w h : Z) (c : rgb) : image :=
  mkImage w h (repeat c (Z.to_nat (w * h))).

(** Two clock readings a fraction of a second apart. *)
Definition clock_a : datetime := mkDatetime 2026 3 9 14 5 7 250000.
Definition clock_b : datetime := mkDatetime 2026 3 9 14 5 7 750000.
Definition clock_c : datetime := mkDatetime 2026 3 9 14 5 8 250000.

(** A reference taller than the rescaled capture, and a matching pair. *)
Definition tall_fig : image := solid 5 30 (0, 0, 0).
Definition short_emu : image := solid 10 12 (0, 0, 0).
Definition short_world : world := quiet_world tall_fig short_emu (0, 0, 0).
Definition flat_world : world :=
  quiet_world (solid 4 8 (40, 75, 140)) (solid 8 18 (35, 70, 135)) (35, 70, 135).

(** A filter that copies the nearest pixel, and a world in which every
    call succeeds on [sample_fig] and [sample_emu] with that filter. *)
Definition nearest (im : image) (w h x y : Z) : rgb :=
  pixel_at im (x * im_width im / w) (y * im_height im / h).

Definition sample_world : world :=
  {| env_FIGMA_TOKEN := None;
     now := clock_a;
     mkdir_result := Ok tt;
     capture_result := Ok tt;
     figma_api_result := Ok "https://example.com/mock.png"%string;
     download_result := Ok tt;
     open_figma := Ok sample_fig;
     open_emulator := Ok sample_emu;
     lanczos := nearest |}.

(** The window of [sample_emu] that matches [sample_fig] best. *)
Definition sample_aligned : image := crop sample_emu 0 2 3 (2 + 2).

(** A world whose device does not answer the screenshot request. *)
Definition offline_world : world :=
  {| env_FIGMA_TOKEN := Some "figd_env"%string;
     now := clock_a;
     mkdir_result := Ok tt;
     capture_result := Raise (ExternalError "device offline");
     figma_api_result := Ok "https://example.com/mock.png"%string;
     download_result := Ok tt;
     open_figma := Ok sample_fig;
     open_emulator := Ok sample_emu;
     lanczos := fun _ _ _ _ _ => (0, 0, 0) |}.

(** [str(l)] on a list of strings that hold neither quotes nor
    backslashes. *)
Definition plain_list (l : list string) : string :=
  ("[" ++ join ", " (map (fun s => "'" ++ s ++ "'") l) ++ "]")%string.

(** A device that answers every command with the same text. *)
Definition echo_device (answer : string) : device := fun _ _ => Ok answer.

(** The lines of a small log file. *)
Definition sample_log : list string :=
  [("Launching lib/main.dart" ++ String LF "")%string;
   ("Syncing files" ++ String LF "")%string;
   ("Reloaded 1 of 5 libraries" ++ String LF "")%string].

(** A host on which every call succeeds: the process runs until it is
    asked to quit, and the log holds [sample_log]. *)
Definition calm_host : host :=
  {| poll_answer := fun _ _ => None;
     write_answer := fun _ _ => Ok tt;
     wait_answer := fun _ _ => true;
     spawn_answer := fun _ _ => Ok (mkProcess 4242 true);
     open_answer := fun _ _ => Ok tt;
     found_at := fun _ _ => Lines sample_log;
     isdir := fun _ => true;
     path_exists := fun _ => true;
     has_separator := fun _ => false;
     which := fun _ => Some "/opt/flutter/bin/flutter"%string;
     os_path_join := fun d f => (d ++ "/" ++ f)%string;
     shlex_split := fun a => Ok [a];
     vm_service_url_on_device := fun _ _ => Ok None;
     vm_service_url_on_host := fun _ => Some "http://127.0.0.1:5001/abc=/"%string;
     vm_service_port_on_device := fun _ _ => Ok (Some 5001) |}.

(** A session that only spawns the command. *)
Definition quick_session (command : list string)
    (project_dir package_name action : string) (debug_port : option Z)
    (attach_wait_seconds action_wait_seconds : Z) : method string :=
  host_call (HSpawn command project_dir) (fun _ => Ok "attached"%string).

(** A manager without a process, and one that holds a process. *)
Definition idle_manager : manager :=
  mkManager "emulator-5554" None None None.

Definition busy_manager : manager :=
  mkManager "emulator-5554" (Some (mkProcess 4242 true))
            (Some "app/.mcp_flutter_run.log"%string)
            (Some (mkHandle "app/.mcp_flutter_run.log" false)).

(** An extract of what [dumpsys package] prints. *)
Definition sample_dumpsys : string :=
  ("Activity Resolver Table:" ++ String LF
   "  Non-Data Actions:" ++ String LF
   "      android.intent.action.MAIN:" ++ String LF
   "        4f2a com.example.app/.MainActivity filter 91c" ++ String LF
   "      com.example.app.OPEN:" ++ String LF (String LF
   "Receiver Resolver Table:") ++ String LF
   "      android.intent.action.BOOT_COMPLETED:" ++ String LF "")%string.

(* ================================================================== *)
(** * Part II: properties                                              *)
(* ================================================================== *)

Example range3_5_2 : range3 0 5 2 = [0; 2; 4].
Proof. reflexivity. Qed.

Example range3_back : range3 10 0 (-3) = [10; 7; 4; 1].
Proof. reflexivity. Qed.

Example round_ties : map py_round [(1#2)%Q; (3#2)%Q; (5#2)%Q; (-1#2)%Q; (7#4)%Q]
                     = [0; 2; 2; 0; 2].
Proof. reflexivity. Qed.

Example strip_ex : strip "  ab c "%string = "ab c"%string.
Proof. reflexivity. Qed.

(** ** Loops and ranges *)

Lemma for_each_app {A B : Type} (body : A -> B -> result A) (l1 l2 : list B) (a : A) :
  for_each body (l1 ++ l2) a = bind (for_each body l1 a) (for_each body l2).
Proof.
  revert a; induction l1 as [|x l1 IH]; intros a; simpl; [reflexivity|].
  destruct (body a x); simpl; auto.
Qed.

(** A loop whose body never raises on the elements it meets is the left
    fold of its body. *)
Lemma for_each_pure {A B : Type} (body : A -> B -> result A) (g : A -> B -> A)
    (P : B -> Prop) (l : list B) :
  (forall a x, P x -> body a x = Ok (g a x)) ->
  Forall P l ->
  forall a, for_each body l a = Ok (fold_left g l a).
Proof.
  intros Hb Hl; induction Hl as [|x l Hx Hl IH]; intros a; simpl; [reflexivity|].
  rewrite (Hb a x Hx). apply IH.
Qed.

Lemma range_succ (k : nat) :
  range (Z.of_nat (S k)) = range (Z.of_nat k) ++ [Z.of_nat k].
Proof.
  unfold range. rewrite !Nat2Z.id, seq_S, map_app. reflexivity.
Qed.

Lemma in_range (n x : Z) : In x (range n) <-> 0 <= x < n.
Proof.
  unfold range. rewrite in_map_iff. split.
  - intros [i [<- Hi]]. apply in_seq in Hi. lia.
  - intros H. exists (Z.to_nat x). split; [lia|]. apply in_seq. lia.
Qed.

Lemma length_range (n : Z) : List.length (range n) = Z.to_nat n.
Proof. unfold range. now rewrite length_map, length_seq. Qed.

Lemma in_range3_step2 (n x : Z) : In x (range3 0 n 2) -> 0 <= x < n.
Proof.
  unfold range3. simpl. rewrite in_map_iff. intros [i [<- Hi]].
  apply in_seq in Hi.
  assert (Hn : Z.of_nat i < (n - 0 + 2 - 1) / 2) by lia.
  assert (H2 := Z.div_mod (n - 0 + 2 - 1) 2 ltac:(lia)).
  assert (H3 := Z.mod_pos_bound (n - 0 + 2 - 1) 2 ltac:(lia)).
  lia.
Qed.

Lemma range3_step2_nil (n : Z) : n <= 0 -> range3 0 n 2 = [].
Proof.
  intros Hn. unfold range3. simpl.
  assert (H : (n - 0 + 2 - 1) / 2 <= 0).
  { assert (H2 := Z.div_mod (n - 0 + 2 - 1) 2 ltac:(lia)).
    assert (H3 := Z.mod_pos_bound (n - 0 + 2 - 1) 2 ltac:(lia)). lia. }
  replace (Z.to_nat ((n - 0 + 2 - 1) / 2)) with 0%nat by lia. reflexivity.
Qed.

Lemma range3_step2_cons (n : Z) : 0 < n -> exists l, range3 0 n 2 = 0 :: l.
Proof.
  intros Hn. unfold range3. simpl.
  assert (H : 1 <= (n - 0 + 2 - 1) / 2).
  { assert (H2 := Z.div_mod (n - 0 + 2 - 1) 2 ltac:(lia)).
    assert (H3 := Z.mod_pos_bound (n - 0 + 2 - 1) 2 ltac:(lia)). lia. }
  destruct (Z.to_nat ((n - 0 + 2 - 1) / 2)) as [|m] eqn:E; [lia|].
  simpl. eexists. reflexivity.
Qed.

(** ** Rational arithmetic of the accumulators *)

Lemma inject_Z_add (a b : Z) : (inject_Z a + inject_Z b)%Q = inject_Z (a + b).
Proof. unfold Qplus, inject_Z. simpl. now rewrite !Z.mul_1_r. Qed.

Lemma Qltb_lt (a b : Q) : Qltb a b = true <-> (a < b)%Q.
Proof.
  unfold Qltb. rewrite Qlt_alt. destruct (a ?= b)%Q; split; congruence.
Qed.

Lemma Qltb_ge (a b : Q) : Qltb a b = false <-> (b <= a)%Q.
Proof.
  split.
  - intros H. apply Qnot_lt_le. intros Hlt. apply Qltb_lt in Hlt. congruence.
  - intros H. destruct (Qltb a b) eqn:E; [|reflexivity].
    apply Qltb_lt in E. exfalso. exact (Qle_not_lt _ _ H E).
Qed.

(** ** Pixel access *)

Lemma getpixel_inside (im : image) (x y : Z) :
  0 <= x < im_width im -> 0 <= y < im_height im ->
  getpixel im x y = Ok (pixel_at im x y).
Proof.
  intros Hx Hy. unfold getpixel, in_image.
  replace (x <? 0) with false by (symmetry; apply Z.ltb_ge; lia).
  replace (y <? 0) with false by (symmetry; apply Z.ltb_ge; lia).
  replace (0 <=? x) with true by (symmetry; apply Z.leb_le; lia).
  replace (0 <=? y) with true by (symmetry; apply Z.leb_le; lia).
  replace (x <? im_width im) with true by (symmetry; apply Z.ltb_lt; lia).
  replace (y <? im_height im) with true by (symmetry; apply Z.ltb_lt; lia).
  reflexivity.
Qed.

Lemma pixel_at_byte (im : image) (x y : Z) :
  byte_image im -> byte_sample (pixel_at im x y).
Proof.
  intros H. unfold pixel_at.
  destruct (nth_in_or_default (Z.to_nat (y * im_width im + x)) (im_data im) (0, 0, 0))
    as [Hin | ->].
  - unfold byte_image in H. rewrite Forall_forall in H. auto.
  - simpl. lia.
Qed.

Lemma abs_delta_bound (p q : rgb) :
  byte_sample p -> byte_sample q -> 0 <= abs_delta p q <= 765.
Proof.
  destruct p as [[r1 g1] b1], q as [[r2 g2] b2]. simpl. lia.
Qed.

Lemma sumZ_bound (l : list Z) (c : Z) :
  Forall (fun v => 0 <= v <= c) l ->
  0 <= sumZ l <= c * Z.of_nat (List.length l).
Proof.
  induction 1 as [|v l Hv Hl IH]; simpl; [lia|].
  unfold sumZ in *. simpl. lia.
Qed.

Lemma sumZ_app (l1 l2 : list Z) : sumZ (l1 ++ l2) = sumZ l1 + sumZ l2.
Proof.
  unfold sumZ. induction l1 as [|v l1 IH]; simpl; [reflexivity|]. lia.
Qed.

(** ** [_coarse_mae] computes the coarse score *)

Section CoarseLoop.
Variables fig_img emu_scaled : image.
Variable y_offset : Z.
Hypothesis width_covered : im_width fig_img <= im_width emu_scaled.
Hypothesis offset_in_range :
  0 <= y_offset <= im_height emu_scaled - im_height fig_img.

Let delta (y x : Z) : Z :=
  abs_delta (pixel_at fig_img x y) (pixel_at emu_scaled x (y + y_offset)).

Lemma coarse_pixel_ok (y x : Z) (t c : Z) :
  0 <= y < im_height fig_img -> 0 <= x < im_width fig_img ->
  coarse_pixel fig_img emu_scaled y (y + y_offset) (inject_Z t, c) x
  = Ok (inject_Z (t + delta y x), c + 3).
Proof.
  intros Hy Hx. unfold coarse_pixel.
  rewrite (getpixel_inside fig_img x y) by lia.
  rewrite (getpixel_inside emu_scaled x (y + y_offset)) by lia.
  unfold delta. simpl.
  destruct (pixel_at fig_img x y) as [[r1 g1] b1].
  destruct (pixel_at emu_scaled x (y + y_offset)) as [[r2 g2] b2].
  simpl. now rewrite inject_Z_add.
Qed.

Lemma coarse_cols_ok (y : Z) (cols : list Z) :
  0 <= y < im_height fig_img ->
  Forall (fun x => 0 <= x < im_width fig_img) cols ->
  forall t c,
    for_each (coarse_pixel fig_img emu_scaled y (y + y_offset)) cols (inject_Z t, c)
    = Ok (inject_Z (t + sumZ (map (delta y) cols)),
          c + 3 * Z.of_nat (List.length cols)).
Proof.
  intros Hy Hc; induction Hc as [|x cols Hx Hc IH]; intros t c.
  - simpl. do 2 f_equal; [f_equal; unfold sumZ; simpl|]; lia.
  - cbn [for_each]. rewrite coarse_pixel_ok by assumption.
    rewrite IH. do 2 f_equal; [f_equal; unfold sumZ; simpl|simpl List.length]; lia.
Qed.

Lemma coarse_rows_ok (rows cols : list Z) :
  Forall (fun y => 0 <= y < im_height fig_img) rows ->
  Forall (fun x => 0 <= x < im_width fig_img) cols ->
  forall t c,
    for_each (fun acc y =>
                for_each (coarse_pixel fig_img emu_scaled y (y + y_offset)) cols acc)
             rows (inject_Z t, c)
    = Ok (inject_Z (t + sumZ (map (fun '(y, x) => delta y x) (list_prod rows cols))),
          c + 3 * Z.of_nat (List.length (list_prod rows cols))).
Proof.
  intros Hr Hc; induction Hr as [|y rows Hy Hr IH]; intros t c.
  - simpl. do 2 f_equal; [f_equal; unfold sumZ; simpl|]; lia.
  - cbn [for_each]. rewrite coarse_cols_ok by assumption.
    rewrite IH. cbn [list_prod].
    rewrite map_app, sumZ_app, map_map, length_app, length_map.
    do 2 f_equal; [f_equal; rewrite <- Z.add_assoc; reflexivity | lia].
Qed.

Lemma coarse_mae_refines :
  _coarse_mae fig_img emu_scaled y_offset 2
  = Ok (coarse_score fig_img emu_scaled y_offset).
Proof.
  unfold _coarse_mae, image_size, coarse_row. cbn [Z.eqb].
  change 0%Q with (inject_Z 0).
  rewrite (coarse_rows_ok (range3 0 (im_height fig_img) 2)
                          (range3 0 (im_width fig_img) 2)).
  - cbn [bind]. unfold coarse_score, coarse_samples, coarse_total, visited.
    rewrite !Z.add_0_l.
    destruct (3 * Z.of_nat _ =? 0); reflexivity.
  - apply Forall_forall. intros y Hy. now apply in_range3_step2.
  - apply Forall_forall. intros x Hx. now apply in_range3_step2.
Qed.
End CoarseLoop.

Lemma visited_nil (fig_img : image) :
  im_width fig_img <= 0 \/ im_height fig_img <= 0 -> visited fig_img = [].
Proof.
  intros [H | H]; unfold visited; rewrite (range3_step2_nil _ H).
  - induction (range3 0 (im_height fig_img) 2); simpl; auto.
  - reflexivity.
Qed.

Lemma coarse_samples_pos (fig_img : image) :
  0 < im_width fig_img -> 0 < im_height fig_img -> 0 < coarse_samples fig_img.
Proof.
  intros Hw Hh. unfold coarse_samples, visited.
  destruct (range3_step2_cons _ Hw) as [lw ->].
  destruct (range3_step2_cons _ Hh) as [lh ->].
  simpl. lia.
Qed.

Lemma coarse_total_bound (fig_img emu_scaled : image) (y_offset : Z) :
  byte_image fig_img -> byte_image emu_scaled ->
  0 <= coarse_total fig_img emu_scaled y_offset <= 255 * coarse_samples fig_img.
Proof.
  intros Hf He. unfold coarse_total, coarse_samples.
  pose proof (sumZ_bound
    (map (fun '(y, x) => abs_delta (pixel_at fig_img x y)
                                   (pixel_at emu_scaled x (y + y_offset)))
         (visited fig_img)) 765) as H.
  rewrite length_map in H.
  assert (Hall : Forall (fun v => 0 <= v <= 765)
    (map (fun '(y, x) => abs_delta (pixel_at fig_img x y)
                                   (pixel_at emu_scaled x (y + y_offset)))
         (visited fig_img))).
  { apply Forall_forall. intros v Hv. apply in_map_iff in Hv.
    destruct Hv as [[y x] [<- _]].
    apply abs_delta_bound; now apply pixel_at_byte. }
  specialize (H Hall). lia.
Qed.

Lemma Qdiv_int_bounds (t s c : Z) :
  0 < s -> 0 <= t <= c * s ->
  (0 <= inject_Z t / inject_Z s <= inject_Z c)%Q.
Proof.
  intros Hs [H0 H1].
  assert (Hsq : (0 < inject_Z s)%Q).
  { change 0%Q with (inject_Z 0). now rewrite <- Zlt_Qlt. }
  split.
  - apply Qle_shift_div_l; [exact Hsq|].
    rewrite Qmult_0_l. change 0%Q with (inject_Z 0). now rewrite <- Zle_Qle.
  - apply Qle_shift_div_r; [exact Hsq|].
    rewrite <- inject_Z_mult. now rewrite <- Zle_Qle.
Qed.

Lemma coarse_score_bounds (fig_img emu_scaled : image) (y_offset : Z) :
  byte_image fig_img -> byte_image emu_scaled ->
  (0 <= coarse_score fig_img emu_scaled y_offset <= 255)%Q.
Proof.
  intros Hf He. unfold coarse_score.
  destruct (coarse_samples fig_img =? 0) eqn:E.
  - split; discriminate.
  - apply Z.eqb_neq in E.
    assert (Hs : 0 <= coarse_samples fig_img) by (unfold coarse_samples; lia).
    apply (Qdiv_int_bounds _ _ 255); [lia|].
    now apply coarse_total_bound.
Qed.

(** C10. [_coarse_mae] returns on every reference image and every offset
    that keeps the window inside the scaled capture: 255.0 when the
    stride-2 walk visits no pixel (a reference of width or height 0),
    and otherwise the sum of the absolute channel differences over the
    visited pixels divided by the number of samples compared; the value
    lies in [0, 255]. *)
Theorem coarse_mae_total_and_bounded (fig_img emu_scaled : image) (y_offset : Z) :
  byte_image fig_img -> byte_image emu_scaled ->
  im_width fig_img <= im_width emu_scaled ->
  0 <= y_offset <= im_height emu_scaled - im_height fig_img ->
  exists q,
    _coarse_mae fig_img emu_scaled y_offset 2 = Ok q /\
    (im_width fig_img <= 0 \/ im_height fig_img <= 0 ->
       visited fig_img = [] /\ q = 255%Q) /\
    (0 < im_width fig_img -> 0 < im_height fig_img ->
       0 < coarse_samples fig_img /\
       q = (inject_Z (coarse_total fig_img emu_scaled y_offset)
            / inject_Z (coarse_samples fig_img))%Q) /\
    (0 <= q <= 255)%Q.
Proof.
  intros Hf He Hw Ho.
  exists (coarse_score fig_img emu_scaled y_offset).
  split; [now apply coarse_mae_refines|].
  split; [|split].
  - intros Hz. pose proof (visited_nil _ Hz) as Hv. split; [exact Hv|].
    unfold coarse_score, coarse_samples. now rewrite Hv.
  - intros H1 H2. pose proof (coarse_samples_pos _ H1 H2) as Hs.
    split; [exact Hs|]. unfold coarse_score.
    replace (coarse_samples fig_img =? 0) with false; [reflexivity|].
    symmetry. apply Z.eqb_neq. lia.
  - now apply coarse_score_bounds.
Qed.

Example sample_scores :
  map (fun o => _coarse_mae sample_fig sample_emu o 2) [0; 1; 2]
  = [Ok (330 # 6)%Q; Ok (156 # 6)%Q; Ok (3 # 6)%Q].
Proof. vm_compute. reflexivity. Qed.

Lemma coarse_mae_total_and_bounded_witness :
  exists q,
    _coarse_mae sample_fig sample_emu 1 2 = Ok q /\
    (im_width sample_fig <= 0 \/ im_height sample_fig <= 0 ->
       visited sample_fig = [] /\ q = 255%Q) /\
    (0 < im_width sample_fig -> 0 < im_height sample_fig ->
       0 < coarse_samples sample_fig /\
       q = (inject_Z (coarse_total sample_fig sample_emu 1)
            / inject_Z (coarse_samples sample_fig))%Q) /\
    (0 <= q <= 255)%Q.
Proof.
  apply (coarse_mae_total_and_bounded sample_fig sample_emu 1).
  - repeat constructor; simpl; lia.
  - repeat constructor; simpl; lia.
  - simpl; lia.
  - simpl; lia.
Defined.

(** ** The offset search keeps the first strict minimum *)

Section OffsetSearch.
Variables fig_img emu_scaled : image.
Variable score : Z -> Q.
Variable max_offset : Z.
Hypothesis score_ok :
  forall o, 0 <= o <= max_offset ->
            _coarse_mae fig_img emu_scaled o 2 = Ok (score o).

Lemma search_first_step :
  0 <= max_offset ->
  search_step fig_img emu_scaled (0, PosInf) 0 = Ok (0, Fin (score 0)).
Proof.
  intros H. unfold search_step. rewrite score_ok by lia. reflexivity.
Qed.

Lemma search_prefix (k : nat) :
  Z.of_nat k <= max_offset ->
  exists best_y,
    for_each (search_step fig_img emu_scaled) (range (Z.of_nat (S k))) (0, PosInf)
    = Ok (best_y, Fin (score best_y)) /\
    0 <= best_y <= Z.of_nat k /\
    (forall o, 0 <= o <= Z.of_nat k -> (score best_y <= score o)%Q) /\
    (forall o, 0 <= o < best_y -> (score best_y < score o)%Q).
Proof.
  induction k as [|k IH]; intros Hk.
  - exists 0. change (range (Z.of_nat 1)) with [0]. cbn [for_each].
    rewrite search_first_step by lia.
    repeat split; try lia.
    intros o Ho. replace o with 0 by lia. apply Qle_refl.
  - destruct IH as [b [Hrun [Hb [Hmin Hfirst]]]]; [lia|].
    rewrite range_succ, for_each_app, Hrun. cbn [bind for_each].
    unfold search_step at 1. rewrite score_ok by lia. cbn [bind snd float_ltb].
    destruct (Qltb (score (Z.of_nat (S k))) (score b)) eqn:E.
    + apply Qltb_lt in E. exists (Z.of_nat (S k)).
      repeat split; try lia.
      * intros o Ho.
        destruct (Z.eq_dec o (Z.of_nat (S k))) as [-> | Hne]; [apply Qle_refl|].
        apply Qlt_le_weak. eapply Qlt_le_trans; [exact E|]. apply Hmin. lia.
      * intros o Ho. eapply Qlt_le_trans; [exact E|]. apply Hmin. lia.
    + apply Qltb_ge in E. exists b.
      repeat split; try lia; [|exact Hfirst].
      intros o Ho.
      destruct (Z.eq_dec o (Z.of_nat (S k))) as [-> | Hne]; [exact E|].
      apply Hmin. lia.
Qed.
End OffsetSearch.

(** C1. The search returns, and its [best_y] is the smallest offset of
    [0, scaled_h - target_h] whose coarse score is minimal: no offset of
    the range scores lower and every smaller offset scores strictly
    higher.  When the scaled capture is exactly as tall as the reference
    the offset is 0. *)
Theorem offset_search_smallest_argmin (fig_img emu_scaled : image) :
  im_width fig_img <= im_width emu_scaled ->
  im_height fig_img <= im_height emu_scaled ->
  exists best_y best_mae,
    offset_search fig_img emu_scaled (im_height emu_scaled) (im_height fig_img)
    = Ok (best_y, Fin best_mae) /\
    0 <= best_y <= im_height emu_scaled - im_height fig_img /\
    _coarse_mae fig_img emu_scaled best_y 2 = Ok best_mae /\
    (forall o, 0 <= o <= im_height emu_scaled - im_height fig_img ->
       exists s, _coarse_mae fig_img emu_scaled o 2 = Ok s /\
                 (best_mae <= s)%Q /\ (o < best_y -> (best_mae < s)%Q)) /\
    (im_height emu_scaled = im_height fig_img -> best_y = 0).
Proof.
  intros Hw Hh.
  set (m := im_height emu_scaled - im_height fig_img).
  assert (Hscore : forall o, 0 <= o <= m ->
            _coarse_mae fig_img emu_scaled o 2
            = Ok (coarse_score fig_img emu_scaled o)).
  { intros o Ho. apply coarse_mae_refines; [exact Hw | unfold m in Ho; lia]. }
  destruct (search_prefix fig_img emu_scaled (coarse_score fig_img emu_scaled)
              m Hscore (Z.to_nat m)) as [b [Hrun [Hb [Hmin Hfirst]]]];
    [unfold m; lia|].
  exists b, (coarse_score fig_img emu_scaled b).
  unfold offset_search. fold m.
  replace (m + 1) with (Z.of_nat (S (Z.to_nat m))) by (unfold m; lia).
  split; [exact Hrun|].
  split; [unfold m in *; lia|].
  split; [apply Hscore; unfold m in *; lia|].
  split.
  - intros o Ho. exists (coarse_score fig_img emu_scaled o).
    split; [now apply Hscore|].
    split; [apply Hmin; unfold m in *; lia|].
    intros Hlt. apply Hfirst. lia.
  - intros Heq. unfold m in *. lia.
Qed.

Example sample_search :
  offset_search sample_fig sample_emu 4 2 = Ok (2, Fin (3 # 6)%Q).
Proof. vm_compute. reflexivity. Qed.

(** On a capture that scores the same at every offset the first one stays. *)
Example flat_search :
  offset_search (mkImage 1 1 [(5, 5, 5)])
                (mkImage 1 3 [(7, 7, 7); (7, 7, 7); (7, 7, 7)]) 3 1
  = Ok (0, Fin (6 # 3)%Q).
Proof. vm_compute. reflexivity. Qed.

Lemma offset_search_smallest_argmin_witness :
  exists best_y best_mae,
    offset_search sample_fig sample_emu (im_height sample_emu) (im_height sample_fig)
    = Ok (best_y, Fin best_mae) /\
    0 <= best_y <= im_height sample_emu - im_height sample_fig /\
    _coarse_mae sample_fig sample_emu best_y 2 = Ok best_mae /\
    (forall o, 0 <= o <= im_height sample_emu - im_height sample_fig ->
       exists s, _coarse_mae sample_fig sample_emu o 2 = Ok s /\
                 (best_mae <= s)%Q /\ (o < best_y -> (best_mae < s)%Q)) /\
    (im_height sample_emu = im_height sample_fig -> best_y = 0).
Proof.
  apply (offset_search_smallest_argmin sample_fig sample_emu); simpl; lia.
Defined.


(** ** List access and update *)

Lemma py_index_inside {A : Type} (l : list A) (i : Z) :
  0 <= i < Z.of_nat (List.length l) -> py_index l i = Ok (Z.to_nat i).
Proof.
  intros H. unfold py_index.
  replace (i <? 0) with false by (symmetry; apply Z.ltb_ge; lia).
  replace (0 <=? i) with true by (symmetry; apply Z.leb_le; lia).
  replace (i <? Z.of_nat (List.length l)) with true
    by (symmetry; apply Z.ltb_lt; lia).
  reflexivity.
Qed.

Lemma list_get_inside {A : Type} (l : list A) (i : Z) (d : A) :
  0 <= i < Z.of_nat (List.length l) ->
  list_get l i = Ok (nth (Z.to_nat i) l d).
Proof.
  intros H. unfold list_get. rewrite py_index_inside by exact H. cbn [bind].
  rewrite (nth_error_nth' l d) by lia. reflexivity.
Qed.

Lemma list_iadd_inside {A : Type} (upd : A -> A) (l : list A) (i : Z) (d : A) :
  0 <= i < Z.of_nat (List.length l) ->
  list_iadd upd l i
  = Ok (list_set l (Z.to_nat i) (upd (nth (Z.to_nat i) l d))).
Proof.
  intros H. unfold list_iadd. rewrite (list_get_inside l i d) by exact H.
  cbn [bind]. rewrite py_index_inside by exact H. reflexivity.
Qed.

Lemma length_list_set {A : Type} (l : list A) (k : nat) (v : A) :
  List.length (list_set l k v) = List.length l.
Proof.
  revert k; induction l as [|x l IH]; intros [|k]; simpl; auto.
Qed.

Lemma nth_list_set_same {A : Type} (l : list A) (k : nat) (v d : A) :
  (k < List.length l)%nat -> nth k (list_set l k v) d = v.
Proof.
  revert k; induction l as [|x l IH]; intros [|k] H; simpl in *; try lia; auto.
  apply IH. lia.
Qed.

Lemma nth_list_set_other {A : Type} (l : list A) (k i : nat) (v d : A) :
  i <> k -> nth i (list_set l k v) d = nth i l d.
Proof.
  revert k i; induction l as [|x l IH]; intros [|k] [|i] H; simpl; auto; try lia.
Qed.

Lemma sumZ_list_set (l : list Z) (k : nat) (v : Z) :
  (k < List.length l)%nat ->
  sumZ (list_set l k v) = sumZ l - nth k l 0 + v.
Proof.
  unfold sumZ.
  revert k; induction l as [|x l IH]; intros [|k] H; simpl in *; try lia.
  rewrite IH by lia. lia.
Qed.

Lemma putpixel_inside (im : image) (x y : Z) (p : rgb) :
  0 <= x < im_width im -> 0 <= y < im_height im ->
  putpixel im x y p
  = Ok {| im_width := im_width im; im_height := im_height im;
          im_data := list_set (im_data im) (Z.to_nat (y * im_width im + x)) p |}.
Proof.
  intros Hx Hy. unfold putpixel, in_image.
  replace (x <? 0) with false by (symmetry; apply Z.ltb_ge; lia).
  replace (y <? 0) with false by (symmetry; apply Z.ltb_ge; lia).
  replace (0 <=? x) with true by (symmetry; apply Z.leb_le; lia).
  replace (0 <=? y) with true by (symmetry; apply Z.leb_le; lia).
  replace (x <? im_width im) with true by (symmetry; apply Z.ltb_lt; lia).
  replace (y <? im_height im) with true by (symmetry; apply Z.ltb_lt; lia).
  reflexivity.
Qed.

(** ** Images made by the function are well formed *)

Lemma length_rows {A : Type} (f : Z -> Z -> A) (w h : Z) :
  0 <= w -> 0 <= h ->
  Z.of_nat (List.length (flat_map (fun y => map (fun x => f x y) (range w))
                                  (range h))) = w * h.
Proof.
  intros Hw Hh.
  assert (E : forall l : list Z,
             List.length (flat_map (fun y => map (fun x => f x y) (range w)) l)
             = (List.length l * Z.to_nat w)%nat).
  { induction l as [|y l IH]; simpl; [reflexivity|].
    now rewrite length_app, length_map, length_range, IH. }
  rewrite E, length_range. nia.
Qed.

Lemma new_image_wf (w h : Z) : 0 <= w -> 0 <= h -> wf_image (new_image w h).
Proof.
  intros Hw Hh. unfold wf_image, new_image. cbn.
  rewrite repeat_length. repeat split; try lia; nia.
Qed.

Lemma crop_wf (im : image) (left upper right lower : Z) :
  left <= right -> upper <= lower ->
  wf_image (crop im left upper right lower).
Proof.
  intros Hw Hh. unfold wf_image, crop. cbn [im_width im_height im_data].
  repeat split; try lia.
  apply (length_rows (fun x y => if in_image im (x + left) (y + upper)
                                 then pixel_at im (x + left) (y + upper)
                                 else (0, 0, 0))); lia.
Qed.

Lemma resize_wf (W : world) (im scaled : image) (w h : Z) :
  resize W im w h = Ok scaled ->
  wf_image scaled /\ im_width scaled = w /\ im_height scaled = h.
Proof.
  unfold resize. destruct ((w <? 1) || (h <? 1)) eqn:E; [discriminate|].
  apply orb_false_iff in E. rewrite !Z.ltb_ge in E.
  intros H. injection H as <-. unfold wf_image. cbn [im_width im_height im_data].
  repeat split; try lia.
  apply (length_rows (fun x y => lanczos W im w h x y)); lia.
Qed.

Lemma putpixel_wf (im im' : image) (x y : Z) (p : rgb) :
  wf_image im -> putpixel im x y p = Ok im' -> wf_image im'.
Proof.
  unfold putpixel. destruct (in_image im _ _); [|discriminate].
  intros Hwf H. injection H as <-. unfold wf_image in *.
  cbn [im_width im_height im_data]. now rewrite length_list_set.
Qed.

(** ** Folds *)

Lemma for_each_fold {A B : Type} (body : A -> B -> result A) (g : A -> B -> A)
    (P : B -> Prop) (I : A -> Prop) (l : list B) :
  (forall a x, P x -> I a -> body a x = Ok (g a x) /\ I (g a x)) ->
  Forall P l ->
  forall a, I a -> for_each body l a = Ok (fold_left g l a) /\ I (fold_left g l a).
Proof.
  intros Hb Hl; induction Hl as [|x l Hx Hl IH]; intros a Ha; simpl; [auto|].
  destruct (Hb a x Hx Ha) as [-> Ha']. now apply IH.
Qed.

Lemma fold_left_map {A B C : Type} (g : A -> C -> A) (k : B -> C) (l : list B) (a : A) :
  fold_left g (map k l) a = fold_left (fun a x => g a (k x)) l a.
Proof. revert a; induction l as [|x l IH]; intros a; simpl; auto. Qed.

Lemma fold_left_flat_map {A B C : Type} (g : A -> C -> A) (k : B -> list C)
    (l : list B) (a : A) :
  fold_left g (flat_map k l) a = fold_left (fun a y => fold_left g (k y) a) l a.
Proof.
  revert a; induction l as [|y l IH]; intros a; simpl; [reflexivity|].
  now rewrite fold_left_app, IH.
Qed.

(** An invariant of a fold that speaks of the elements consumed so far. *)
Lemma fold_left_prefix {A B : Type} (g : A -> B -> A)
    (Inv : list B -> A -> Prop) (P : B -> Prop) :
  (forall pre x a, P x -> Inv pre a -> Inv (pre ++ [x]) (g a x)) ->
  forall l, Forall P l ->
  forall pre a, Inv pre a -> Inv (pre ++ l) (fold_left g l a).
Proof.
  intros Hstep l Hl; induction Hl as [|x l Hx Hl IH]; intros pre a Ha; simpl.
  - now rewrite app_nil_r.
  - replace (pre ++ x :: l) with ((pre ++ [x]) ++ l)
      by (now rewrite <- app_assoc).
    apply IH. now apply Hstep.
Qed.

Lemma in_pixels (w h x y : Z) :
  In (x, y) (pixels w h) <-> 0 <= x < w /\ 0 <= y < h.
Proof.
  unfold pixels. rewrite in_flat_map. split.
  - intros [y' [Hy Hx]]. apply in_map_iff in Hx. destruct Hx as [x' [E Hx]].
    inversion E; subst. apply in_range in Hy, Hx. lia.
  - intros [Hx Hy]. exists y. split; [now apply in_range|].
    apply in_map_iff. exists x. split; [reflexivity | now apply in_range].
Qed.

Lemma length_pixels (w h : Z) :
  0 <= w -> 0 <= h -> Z.of_nat (List.length (pixels w h)) = w * h.
Proof.
  intros Hw Hh. unfold pixels.
  assert (E : forall l : list Z,
             List.length (flat_map (fun y => map (fun x => (x, y)) (range w)) l)
             = (List.length l * Z.to_nat w)%nat).
  { induction l as [|y l IH]; simpl; [reflexivity|].
    now rewrite length_app, length_map, length_range, IH. }
  rewrite E, length_range. nia.
Qed.

(** ** The diff pass is a fold of [pixel_step] *)

Lemma cell_index_range (w h gc gr x y : Z) :
  0 < gc -> 0 < gr -> 0 <= x < w -> 0 <= y < h ->
  0 <= cell_index w h gc gr x y < gc * gr.
Proof.
  intros Hgc Hgr Hx Hy. unfold cell_index.
  assert (Hcx : 0 <= (x * gc) / w) by (apply Z.div_pos; nia).
  assert (Hcy : 0 <= (y * gr) / h) by (apply Z.div_pos; nia).
  assert (H1 : 0 <= Z.min (gc - 1) (x * gc / w) <= gc - 1) by lia.
  assert (H2 : 0 <= Z.min (gr - 1) (y * gr / h) <= gr - 1) by lia.
  nia.
Qed.

Section DiffPass.
Variables fig_img emu_aligned : image.
Variables grid_cols grid_rows : Z.
Hypothesis same_width : im_width emu_aligned = im_width fig_img.
Hypothesis same_height : im_height emu_aligned = im_height fig_img.
Hypothesis cols_pos : 0 < grid_cols.
Hypothesis rows_pos : 0 < grid_rows.

Let w := im_width fig_img.
Let h := im_height fig_img.
Let step := pixel_step fig_img emu_aligned w h grid_cols grid_rows.
Let shape := pass_shape w h grid_cols grid_rows.

Lemma diff_init_shape : shape (diff_init w h grid_cols grid_rows).
Proof.
  unfold shape, pass_shape, diff_init. cbn.
  rewrite !repeat_length. auto.
Qed.

Lemma diff_pixel_step (a : diff_acc) (x y : Z) :
  shape a -> 0 <= x < w -> 0 <= y < h ->
  diff_pixel fig_img emu_aligned w h grid_cols grid_rows y
             (inject_Z y / inject_Z h)%Q a x
  = Ok (step a (x, y)) /\ shape (step a (x, y)).
Proof.
  intros [Hs [Hp [Hhw Hhh]]] Hx Hy.
  pose proof (cell_index_range w h grid_cols grid_rows x y
                cols_pos rows_pos Hx Hy) as Hidx.
  split.
  - unfold diff_pixel.
    rewrite (getpixel_inside fig_img x y) by (subst w h; lia).
    rewrite (getpixel_inside emu_aligned x y) by (subst w h; lia).
    unfold step, pixel_step, d_avg_at, abs_delta, sq_delta.
    destruct (pixel_at fig_img x y) as [[r1 g1] b1].
    destruct (pixel_at emu_aligned x y) as [[r2 g2] b2].
    cbn [bind].
    rewrite (list_iadd_inside _ (cell_sums a) _ 0%Q) by lia.
    rewrite (list_iadd_inside _ (cell_pixels a) _ 0) by lia.
    cbn [bind].
    rewrite putpixel_inside by lia.
    reflexivity.
  - unfold shape, pass_shape, step, pixel_step. cbn.
    rewrite !length_list_set. auto.
Qed.

Lemma diff_row_fold (a : diff_acc) (y : Z) :
  shape a -> 0 <= y < h ->
  diff_row fig_img emu_aligned w h grid_cols grid_rows a y
  = Ok (fold_left (fun a x => step a (x, y)) (range w) a)
  /\ shape (fold_left (fun a x => step a (x, y)) (range w) a).
Proof.
  intros Ha Hy. unfold diff_row.
  apply (for_each_fold _ (fun a x => step a (x, y))
                       (fun x => 0 <= x < w) shape).
  - intros a' x Hx Ha'. now apply diff_pixel_step.
  - apply Forall_forall. intros x Hx. now apply in_range.
  - exact Ha.
Qed.

Lemma diff_pass_as_fold :
  diff_pass fig_img emu_aligned grid_cols grid_rows
  = Ok (fold_left step (pixels w h) (diff_init w h grid_cols grid_rows))
  /\ shape (fold_left step (pixels w h) (diff_init w h grid_cols grid_rows)).
Proof.
  unfold diff_pass, image_size, pixels. fold w h.
  rewrite fold_left_flat_map.
  assert (E : forall a y,
             fold_left step (map (fun x => (x, y)) (range w)) a
             = fold_left (fun a x => step a (x, y)) (range w) a)
    by (intros; apply fold_left_map).
  assert (E' : forall l a,
             fold_left (fun a y => fold_left step (map (fun x => (x, y)) (range w)) a) l a
             = fold_left (fun a y => fold_left (fun a x => step a (x, y)) (range w) a) l a).
  { induction l as [|y l IH]; intros a; simpl; [reflexivity|].
    now rewrite E, IH. }
  rewrite E'.
  apply (for_each_fold _ _ (fun y => 0 <= y < h) shape).
  - intros a y Hy Ha. now apply diff_row_fold.
  - apply Forall_forall. intros y Hy. now apply in_range.
  - apply diff_init_shape.
Qed.

End DiffPass.

(** ** Counting *)

Lemma count_nil {A : Type} (f : A -> bool) : count f [] = 0.
Proof. reflexivity. Qed.

Lemma count_snoc {A : Type} (f : A -> bool) (l : list A) (x : A) :
  count f (l ++ [x]) = count f l + (if f x then 1 else 0).
Proof.
  unfold count. rewrite filter_app, length_app. simpl.
  destruct (f x); simpl; lia.
Qed.

Lemma sumZ_repeat_zero (n : nat) : sumZ (repeat 0 n) = 0.
Proof. induction n as [|n IH]; simpl; auto. Qed.

(** ** Grid cells *)

Section GridCells.
Variables fig_img emu_aligned : image.
Variables grid_cols grid_rows : Z.
Hypothesis cols_pos : 0 < grid_cols.
Hypothesis rows_pos : 0 < grid_rows.

Let w := im_width fig_img.
Let h := im_height fig_img.
Let step := pixel_step fig_img emu_aligned w h grid_cols grid_rows.
Let cell_of (p : Z * Z) : Z :=
  cell_index w h grid_cols grid_rows (fst p) (snd p).
Let inside (p : Z * Z) : Prop := 0 <= fst p < w /\ 0 <= snd p < h.

(** After the pixels [ps], cell [i] has counted those of [ps] it holds. *)
Let cells_inv (ps : list (Z * Z)) (a : diff_acc) : Prop :=
  List.length (cell_pixels a) = Z.to_nat (grid_cols * grid_rows) /\
  (forall i, 0 <= i < grid_cols * grid_rows ->
     nth (Z.to_nat i) (cell_pixels a) 0 = count (fun p => cell_of p =? i) ps) /\
  sumZ (cell_pixels a) = Z.of_nat (List.length ps).

Lemma cells_inv_init : cells_inv [] (diff_init w h grid_cols grid_rows).
Proof.
  unfold cells_inv, diff_init. cbn.
  rewrite repeat_length. split; [reflexivity|]. split.
  - intros i Hi. now rewrite nth_repeat.
  - apply sumZ_repeat_zero.
Qed.

Lemma cells_inv_step (ps : list (Z * Z)) (p : Z * Z) (a : diff_acc) :
  inside p -> cells_inv ps a -> cells_inv (ps ++ [p]) (step a p).
Proof.
  intros [Hx Hy] [Hlen [Hcnt Hsum]]. destruct p as [x y]. cbn [fst snd] in Hx, Hy.
  pose proof (cell_index_range w h grid_cols grid_rows x y
                cols_pos rows_pos Hx Hy) as Hidx.
  unfold cells_inv, step, pixel_step. cbn [cell_pixels].
  rewrite length_list_set. split; [exact Hlen|]. split.
  - intros i Hi. rewrite count_snoc. unfold cell_of at 2. cbn [fst snd].
    destruct (cell_index w h grid_cols grid_rows x y =? i) eqn:E.
    + apply Z.eqb_eq in E. subst i.
      rewrite nth_list_set_same by lia. now rewrite Hcnt.
    + apply Z.eqb_neq in E.
      rewrite nth_list_set_other by lia. rewrite Hcnt by exact Hi. lia.
  - rewrite sumZ_list_set by lia. rewrite length_app. simpl. lia.
Qed.

Lemma cells_inv_fold (ps : list (Z * Z)) :
  Forall inside ps ->
  cells_inv ps (fold_left step ps (diff_init w h grid_cols grid_rows)).
Proof.
  intros Hps.
  apply (fold_left_prefix step cells_inv inside cells_inv_step ps Hps []).
  apply cells_inv_init.
Qed.

End GridCells.

Lemma pixels_inside (w h : Z) :
  Forall (fun p => 0 <= fst p < w /\ 0 <= snd p < h) (pixels w h).
Proof.
  apply Forall_forall. intros [x y] Hp. now apply in_pixels in Hp.
Qed.

(** C4. With a grid of positive size the diff pass returns, every pixel
    (x, y) of the reference falls in the cell of column
    min(grid_cols - 1, floor(x * grid_cols / width)) and row
    min(grid_rows - 1, floor(y * grid_rows / height)), which is one of
    the grid_rows * grid_cols cells; each cell has counted exactly the
    pixels it holds, and the counts of all cells add up to
    width * height. *)
Theorem grid_cells_partition_pixels (fig_img emu_aligned : image)
    (grid_cols grid_rows : Z) :
  im_width emu_aligned = im_width fig_img ->
  im_height emu_aligned = im_height fig_img ->
  0 <= im_width fig_img -> 0 <= im_height fig_img ->
  0 < grid_cols -> 0 < grid_rows ->
  let w := im_width fig_img in
  let h := im_height fig_img in
  exists a,
    diff_pass fig_img emu_aligned grid_cols grid_rows = Ok a /\
    Z.of_nat (List.length (cell_pixels a)) = grid_rows * grid_cols /\
    (forall x y, 0 <= x < w -> 0 <= y < h ->
       let col := Z.min (grid_cols - 1) ((x * grid_cols) / w) in
       let row := Z.min (grid_rows - 1) ((y * grid_rows) / h) in
       0 <= col < grid_cols /\ 0 <= row < grid_rows /\
       cell_index w h grid_cols grid_rows x y = row * grid_cols + col) /\
    (forall i, 0 <= i < grid_rows * grid_cols ->
       nth (Z.to_nat i) (cell_pixels a) 0
       = count (fun p => cell_index w h grid_cols grid_rows (fst p) (snd p) =? i)
               (pixels w h)) /\
    sumZ (cell_pixels a) = w * h.
Proof.
  intros Hw Hh Hw0 Hh0 Hgc Hgr w h. subst w h.
  destruct (diff_pass_as_fold fig_img emu_aligned grid_cols grid_rows
              Hw Hh Hgc Hgr) as [Hrun _].
  destruct (cells_inv_fold fig_img emu_aligned grid_cols grid_rows Hgc Hgr
              (pixels (im_width fig_img) (im_height fig_img))
              (pixels_inside _ _)) as [Hlen [Hcnt Hsum]].
  eexists. split; [exact Hrun|].
  split; [rewrite Hlen; lia|].
  split.
  - intros x y Hx Hy col row.
    assert (Hcx : 0 <= (x * grid_cols) / im_width fig_img)
      by (apply Z.div_pos; nia).
    assert (Hcy : 0 <= (y * grid_rows) / im_height fig_img)
      by (apply Z.div_pos; nia).
    unfold col, row. repeat split; try lia.
  - split.
    + intros i Hi. apply Hcnt. lia.
    + rewrite Hsum. now apply length_pixels.
Qed.

Example sample_cells :
  match diff_pass sample_fig (crop sample_emu 0 2 3 4) 2 2 with
  | Ok a => cell_pixels a
  | Raise _ => []
  end = [2; 1; 2; 1].
Proof. vm_compute. reflexivity. Qed.

Lemma grid_cells_partition_pixels_witness :
  exists a,
    diff_pass sample_fig (crop sample_emu 0 2 3 4) 2 2 = Ok a /\
    Z.of_nat (List.length (cell_pixels a)) = 2 * 2 /\
    (forall x y, 0 <= x < 3 -> 0 <= y < 2 ->
       let col := Z.min (2 - 1) ((x * 2) / 3) in
       let row := Z.min (2 - 1) ((y * 2) / 2) in
       0 <= col < 2 /\ 0 <= row < 2 /\
       cell_index 3 2 2 2 x y = row * 2 + col) /\
    (forall i, 0 <= i < 2 * 2 ->
       nth (Z.to_nat i) (cell_pixels a) 0
       = count (fun p => cell_index 3 2 2 2 (fst p) (snd p) =? i) (pixels 3 2)) /\
    sumZ (cell_pixels a) = 3 * 2.
Proof.
  apply (grid_cells_partition_pixels sample_fig (crop sample_emu 0 2 3 4) 2 2);
    simpl; lia.
Defined.

(** ** Zones *)

Lemma in_band_spec (z : zone) (q : Q) :
  in_band z q = true <-> (z_y0 z <= q /\ q < z_y1 z)%Q.
Proof.
  unfold in_band. rewrite andb_true_iff, Qle_bool_iff, Qltb_lt. tauto.
Qed.

Lemma y_norm_unit (y h : Z) :
  0 <= y < h -> (0 <= inject_Z y / inject_Z h /\ inject_Z y / inject_Z h < 1)%Q.
Proof.
  intros Hy.
  assert (Hh : (0 < inject_Z h)%Q).
  { change 0%Q with (inject_Z 0). rewrite <- Zlt_Qlt. lia. }
  split.
  - apply Qle_shift_div_l; [exact Hh|]. rewrite Qmult_0_l.
    change 0%Q with (inject_Z 0). rewrite <- Zle_Qle. lia.
  - apply Qlt_shift_div_r; [exact Hh|]. rewrite Qmult_1_l.
    rewrite <- Zlt_Qlt. lia.
Qed.

Ltac band_true :=
  apply in_band_spec; cbn [z_y0 z_y1]; split; lra.
Ltac band_false :=
  apply not_true_is_false;
  let Hb := fresh "Hb" in
  intros Hb; apply in_band_spec in Hb; cbn [z_y0 z_y1] in Hb; lra.

(** A normalised height of [0, 1) lies in one band and in no other. *)
Lemma band_cases (q : Q) :
  (0 <= q /\ q < 1)%Q ->
  let bs := map (fun z => in_band z q) initial_zones in
  bs = [true; false; false; false; false] \/
  bs = [false; true; false; false; false] \/
  bs = [false; false; true; false; false] \/
  bs = [false; false; false; true; false] \/
  bs = [false; false; false; false; true].
Proof.
  intros [H0 H1]. unfold initial_zones. cbn [map].
  destruct (Qlt_le_dec q (24 # 100)) as [A | A];
    [left | right; destruct (Qlt_le_dec q (47 # 100)) as [B | B];
       [left | right; destruct (Qlt_le_dec q (72 # 100)) as [C | C];
          [left | right; destruct (Qlt_le_dec q (87 # 100)) as [D | D];
             [left | right]]]];
    repeat f_equal; first [band_true | band_false].
Qed.

Lemma band_of_unit (q : Q) :
  (0 <= q /\ q < 1)%Q ->
  exists j, (j < 5)%nat /\
    first_band initial_zones q = Some j /\
    forall i z, nth_error initial_zones i = Some z ->
                (in_band z q = true <-> i = j).
Proof.
  intros Hq. pose proof (band_cases q Hq) as Hc. cbv zeta in Hc.
  unfold initial_zones in *. cbn [map] in Hc.
  destruct Hc as [Hc | [Hc | [Hc | [Hc | Hc]]]];
    injection Hc as E0 E1 E2 E3 E4;
    [exists 0%nat | exists 1%nat | exists 2%nat | exists 3%nat | exists 4%nat];
    (split; [lia|]); cbn [first_band];
    rewrite ?E0, ?E1, ?E2, ?E3, ?E4; cbn [option_map];
    (split; [reflexivity|]);
    intros [|[|[|[|[|i]]]]] z Hz; cbn in Hz; try discriminate;
    try (destruct i; discriminate);
    injection Hz as <-;
    rewrite ?E0, ?E1, ?E2, ?E3, ?E4; split; (congruence || lia).
Qed.

Lemma zone_add_bands (zs : list zone) (q d : Q) :
  zone_bands (zone_add zs q d) = zone_bands zs.
Proof.
  unfold zone_bands.
  induction zs as [|z zs IH]; simpl; [reflexivity|].
  destruct (in_band z q); simpl; [reflexivity|].
  now rewrite IH.
Qed.

Lemma first_band_bands (zs zs' : list zone) (q : Q) :
  zone_bands zs = zone_bands zs' -> first_band zs q = first_band zs' q.
Proof.
  revert zs'; induction zs as [|z zs IH]; intros [|z' zs'] H; simpl in *;
    try discriminate; [reflexivity|].
  injection H as Hn H0 H1 Ht.
  unfold in_band. rewrite H0, H1. now rewrite (IH zs' Ht).
Qed.

Lemma nth_error_bands (zs zs' : list zone) (j : nat) (z : zone) :
  zone_bands zs = zone_bands zs' -> nth_error zs j = Some z ->
  exists z', nth_error zs' j = Some z' /\
             z_y0 z = z_y0 z' /\ z_y1 z = z_y1 z'.
Proof.
  revert zs' j; induction zs as [|z0 zs IH]; intros [|z0' zs'] j H Hz;
    simpl in *; try discriminate.
  - destruct j; discriminate.
  - injection H as Hn H0 H1 Ht. destruct j as [|j]; simpl in *.
    + injection Hz as <-. exists z0'. auto.
    + now apply (IH zs' j Ht).
Qed.

Lemma zone_add_nth (zs : list zone) (q d : Q) (j : nat) :
  nth_error (zone_add zs q d) j
  = option_map (fun z => if is_band (first_band zs q) j
                         then zone_bump z d else z)
               (nth_error zs j).
Proof.
  revert j; induction zs as [|z zs IH]; intros j; simpl.
  - destruct j; reflexivity.
  - destruct (in_band z q); destruct j as [|j]; simpl; try reflexivity.
    + now destruct (nth_error zs j).
    + now destruct (first_band zs q).
    + rewrite IH. now destruct (first_band zs q).
Qed.

Lemma zone_add_count_sum (zs : list zone) (q d : Q) :
  sumZ (map z_count (zone_add zs q d))
  = sumZ (map z_count zs)
    + match first_band zs q with Some _ => 1 | None => 0 end.
Proof.
  unfold sumZ.
  induction zs as [|z zs IH]; simpl; [reflexivity|].
  destruct (in_band z q); simpl; [lia|].
  rewrite IH. destruct (first_band zs q); simpl; lia.
Qed.

Section Zones.
Variables fig_img emu_aligned : image.
Variables grid_cols grid_rows : Z.

Let w := im_width fig_img.
Let h := im_height fig_img.
Let step := pixel_step fig_img emu_aligned w h grid_cols grid_rows.
Let inside (p : Z * Z) : Prop := 0 <= fst p < w /\ 0 <= snd p < h.
Let y_norm (p : Z * Z) : Q := (inject_Z (snd p) / inject_Z h)%Q.

(** After the pixels [ps], every zone has counted those of [ps] whose
    row lies in its band. *)
Let zones_inv (ps : list (Z * Z)) (a : diff_acc) : Prop :=
  zone_bands (zones a) = zone_bands initial_zones /\
  (forall j z, nth_error (zones a) j = Some z ->
     z_count z = count (fun p => in_band z (y_norm p)) ps) /\
  sumZ (map z_count (zones a)) = Z.of_nat (List.length ps).

Lemma zones_inv_init : zones_inv [] (diff_init w h grid_cols grid_rows).
Proof.
  unfold zones_inv, diff_init. cbn [zones]. split; [reflexivity|]. split.
  - intros [|[|[|[|[|j]]]]] z Hz; cbn in Hz; try discriminate;
      try (destruct j; discriminate); injection Hz as <-; reflexivity.
  - reflexivity.
Qed.

Lemma zones_inv_step (ps : list (Z * Z)) (p : Z * Z) (a : diff_acc) :
  inside p -> zones_inv ps a -> zones_inv (ps ++ [p]) (step a p).
Proof.
  intros [Hx Hy] [Hb [Hcnt Hsum]]. destruct p as [x y]. cbn [fst snd] in Hx, Hy.
  pose proof (y_norm_unit y h Hy) as Hq.
  destruct (band_of_unit _ Hq) as [jb [Hjb [Hfb Hex]]].
  unfold zones_inv, step, pixel_step. cbn [zones].
  split; [now rewrite zone_add_bands|]. split.
  - intros j z' Hz'. rewrite zone_add_nth in Hz'.
    destruct (nth_error (zones a) j) as [z|] eqn:Ez; [|discriminate].
    cbn [option_map] in Hz'. injection Hz' as <-.
    destruct (nth_error_bands _ _ j z Hb Ez) as [z0 [Ez0 [E0 E1]]].
    rewrite (first_band_bands _ _ _ Hb), Hfb. cbn [is_band].
    specialize (Hex j z0 Ez0).
    assert (Ein : in_band z (inject_Z y / inject_Z h) = in_band z0 (inject_Z y / inject_Z h))
      by (unfold in_band; now rewrite E0, E1).
    rewrite count_snoc. unfold y_norm at 2. cbn [snd].
    destruct (Nat.eqb jb j) eqn:Ej.
    + apply Nat.eqb_eq in Ej.
      change (in_band (zone_bump z (d_avg_at fig_img emu_aligned x y))
                      (inject_Z y / inject_Z h))
        with (in_band z (inject_Z y / inject_Z h)).
      change (fun p => in_band (zone_bump z (d_avg_at fig_img emu_aligned x y))
                               (y_norm p))
        with (fun p => in_band z (y_norm p)).
      rewrite Ein. replace (in_band z0 (inject_Z y / inject_Z h)) with true
        by (symmetry; apply Hex; congruence).
      cbn [z_count zone_bump]. rewrite (Hcnt j z Ez). reflexivity.
    + apply Nat.eqb_neq in Ej.
      rewrite Ein. replace (in_band z0 (inject_Z y / inject_Z h)) with false.
      * rewrite (Hcnt j z Ez). lia.
      * symmetry. apply not_true_is_false. intros Ht. apply Hex in Ht. congruence.
  - rewrite zone_add_count_sum, (first_band_bands _ _ _ Hb), Hfb, Hsum.
    rewrite length_app. simpl. lia.
Qed.

Lemma zones_inv_fold (ps : list (Z * Z)) :
  Forall inside ps ->
  zones_inv ps (fold_left step ps (diff_init w h grid_cols grid_rows)).
Proof.
  intros Hps.
  apply (fold_left_prefix step zones_inv inside zones_inv_step ps Hps []).
  apply zones_inv_init.
Qed.

End Zones.

(** C3. In a reference of positive height every row y has a normalised
    position y/h that lies in exactly one of the five bands, the one the
    ordered test finds first.  The diff pass returns with the five
    zones in their order and bounds, every zone has counted exactly the
    pixels whose row lies in its band, and the counts of the zones add
    up to width * height. *)
Theorem zone_assignment_total_exclusive (fig_img emu_aligned : image)
    (grid_cols grid_rows : Z) :
  im_width emu_aligned = im_width fig_img ->
  im_height emu_aligned = im_height fig_img ->
  0 <= im_width fig_img -> 0 < im_height fig_img ->
  0 < grid_cols -> 0 < grid_rows ->
  let w := im_width fig_img in
  let h := im_height fig_img in
  (forall y, 0 <= y < h ->
     exists j, (j < 5)%nat /\
       first_band initial_zones (inject_Z y / inject_Z h) = Some j /\
       forall i z, nth_error initial_zones i = Some z ->
                   (in_band z (inject_Z y / inject_Z h) = true <-> i = j)) /\
  exists a,
    diff_pass fig_img emu_aligned grid_cols grid_rows = Ok a /\
    zone_bands (zones a)
    = [("header", 0, 24 # 100); ("cards", 24 # 100, 47 # 100);
       ("gap_analysis", 47 # 100, 72 # 100);
       ("strategy_band", 72 # 100, 87 # 100);
       ("bottom_nav", 87 # 100, 1)]%string%Q /\
    (forall j z, nth_error (zones a) j = Some z ->
       z_count z
       = count (fun p => in_band z (inject_Z (snd p) / inject_Z h)) (pixels w h)) /\
    sumZ (map z_count (zones a)) = w * h.
Proof.
  intros Hw Hh Hw0 Hh0 Hgc Hgr w h. subst w h. split.
  - intros y Hy. apply band_of_unit. now apply y_norm_unit.
  - destruct (diff_pass_as_fold fig_img emu_aligned grid_cols grid_rows
                Hw Hh Hgc Hgr) as [Hrun _].
    destruct (zones_inv_fold fig_img emu_aligned grid_cols grid_rows
                (pixels (im_width fig_img) (im_height fig_img))
                (pixels_inside _ _)) as [Hb [Hcnt Hsum]].
    eexists. split; [exact Hrun|].
    split; [rewrite Hb; reflexivity|].
    split; [exact Hcnt|].
    rewrite Hsum. apply length_pixels; lia.
Qed.

Example sample_zones :
  match diff_pass sample_fig (crop sample_emu 0 2 3 4) 2 2 with
  | Ok a => map z_count (zones a)
  | Raise _ => []
  end = [3; 0; 3; 0; 0].
Proof. vm_compute. reflexivity. Qed.

Lemma zone_assignment_total_exclusive_witness :
  (forall y, 0 <= y < 2 ->
     exists j, (j < 5)%nat /\
       first_band initial_zones (inject_Z y / inject_Z 2) = Some j /\
       forall i z, nth_error initial_zones i = Some z ->
                   (in_band z (inject_Z y / inject_Z 2) = true <-> i = j)) /\
  exists a,
    diff_pass sample_fig (crop sample_emu 0 2 3 4) 2 2 = Ok a /\
    zone_bands (zones a)
    = [("header", 0, 24 # 100); ("cards", 24 # 100, 47 # 100);
       ("gap_analysis", 47 # 100, 72 # 100);
       ("strategy_band", 72 # 100, 87 # 100);
       ("bottom_nav", 87 # 100, 1)]%string%Q /\
    (forall j z, nth_error (zones a) j = Some z ->
       z_count z
       = count (fun p => in_band z (inject_Z (snd p) / inject_Z 2)) (pixels 3 2)) /\
    sumZ (map z_count (zones a)) = 3 * 2.
Proof.
  apply (zone_assignment_total_exclusive sample_fig (crop sample_emu 0 2 3 4) 2 2);
    simpl; lia.
Defined.

(** ** The statistics drawn from the pass *)

Lemma fdiv_int (q : Q) (n : Z) :
  n <> 0 -> fdiv q (inject_Z n) = Ok (q / inject_Z n)%Q.
Proof.
  intros Hn. unfold fdiv. destruct (Qeq_bool (inject_Z n) 0) eqn:E; [|reflexivity].
  apply Qeq_bool_eq in E. unfold Qeq in E. simpl in E. lia.
Qed.

Lemma grid_cell_entry_ok (a : diff_acc) (w h grid_cols grid_rows row col : Z) :
  pass_shape w h grid_cols grid_rows a ->
  0 <= row < grid_rows -> 0 <= col < grid_cols ->
  grid_cell_entry a grid_cols row col = Ok (cell_entry a grid_cols row col).
Proof.
  intros [Hs [Hp _]] Hr Hc.
  assert (Hidx : 0 <= row * grid_cols + col < grid_cols * grid_rows) by nia.
  unfold grid_cell_entry, cell_entry, cell_avg.
  rewrite (list_get_inside (cell_pixels a) _ 0) by lia. cbn [bind].
  destruct (nth (Z.to_nat (row * grid_cols + col)) (cell_pixels a) 0 =? 0).
  - reflexivity.
  - rewrite (list_get_inside (cell_sums a) _ 0%Q) by lia. reflexivity.
Qed.

Lemma grid_row_ok (a : diff_acc) (w h grid_cols grid_rows row : Z)
    (cols : list Z) :
  pass_shape w h grid_cols grid_rows a ->
  0 <= row < grid_rows ->
  Forall (fun col => 0 <= col < grid_cols) cols ->
  forall cells,
    for_each (fun cells col =>
                c <- grid_cell_entry a grid_cols row col ;; Ok (cells ++ [c]))
             cols cells
    = Ok (cells ++ map (cell_entry a grid_cols row) cols).
Proof.
  intros Ha Hr Hc; induction Hc as [|col cols Hcol Hc IH]; intros cells; simpl.
  - now rewrite app_nil_r.
  - rewrite (grid_cell_entry_ok a w h grid_cols grid_rows) by assumption.
    cbn [bind]. rewrite IH, <- app_assoc. reflexivity.
Qed.

Lemma grid_cells_of_ok (a : diff_acc) (w h grid_cols grid_rows : Z) :
  pass_shape w h grid_cols grid_rows a ->
  grid_cells_of a grid_cols grid_rows = Ok (all_cells a grid_cols grid_rows).
Proof.
  intros Ha. unfold grid_cells_of, all_cells.
  assert (G : forall rows, Forall (fun row => 0 <= row < grid_rows) rows ->
            forall cells,
              for_each
                (fun cells row =>
                   for_each
                     (fun cells col =>
                        c <- grid_cell_entry a grid_cols row col ;;
                        Ok (cells ++ [c]))
                     (range grid_cols) cells)
                rows cells
              = Ok (cells ++ flat_map
                              (fun row => map (cell_entry a grid_cols row)
                                              (range grid_cols)) rows)).
  { intros rows Hrows; induction Hrows as [|row rows Hrow Hrows IH];
      intros cells; simpl.
    - now rewrite app_nil_r.
    - rewrite (grid_row_ok a w h grid_cols grid_rows row (range grid_cols) Ha Hrow).
      + rewrite IH, <- app_assoc. reflexivity.
      + apply Forall_forall. intros col Hcol. now apply in_range. }
  rewrite G; [reflexivity|].
  apply Forall_forall. intros row Hrow. now apply in_range.
Qed.

Lemma length_all_cells (a : diff_acc) (grid_cols grid_rows : Z) :
  0 <= grid_cols -> 0 <= grid_rows ->
  Z.of_nat (List.length (all_cells a grid_cols grid_rows)) = grid_cols * grid_rows.
Proof.
  intros Hc Hr. unfold all_cells.
  assert (E : forall l : list Z,
             List.length (flat_map (fun row => map (cell_entry a grid_cols row)
                                                 (range grid_cols)) l)
             = (List.length l * Z.to_nat grid_cols)%nat).
  { induction l as [|y l IH]; simpl; [reflexivity|].
    now rewrite length_app, length_map, length_range, IH. }
  rewrite E, length_range. nia.
Qed.

Lemma in_all_cells (a : diff_acc) (grid_cols grid_rows : Z) (c : grid_cell) :
  In c (all_cells a grid_cols grid_rows) <->
  exists row col, 0 <= row < grid_rows /\ 0 <= col < grid_cols /\
                  c = cell_entry a grid_cols row col.
Proof.
  unfold all_cells. rewrite in_flat_map. split.
  - intros [row [Hrow Hc]]. apply in_map_iff in Hc. destruct Hc as [col [<- Hcol]].
    apply in_range in Hrow, Hcol. eauto.
  - intros [row [col [Hrow [Hcol ->]]]]. exists row. split; [now apply in_range|].
    apply in_map_iff. exists col. split; [reflexivity | now apply in_range].
Qed.

Section Engine.
Variable pow_half : Q -> Q.
Variables fig_img emu_aligned : image.
Variables grid_cols grid_rows : Z.
Hypothesis same_width : im_width emu_aligned = im_width fig_img.
Hypothesis same_height : im_height emu_aligned = im_height fig_img.
Hypothesis width_pos : 0 < im_width fig_img.
Hypothesis height_pos : 0 < im_height fig_img.
Hypothesis cols_pos : 0 < grid_cols.
Hypothesis rows_pos : 0 < grid_rows.

Let w := im_width fig_img.
Let h := im_height fig_img.

(** The engine returns, and what it returns is read off the fold. *)
Lemma diff_engine_runs :
  let a := fold_left (pixel_step fig_img emu_aligned w h grid_cols grid_rows)
                     (pixels w h) (diff_init w h grid_cols grid_rows) in
  let m := (sum_abs a / inject_Z (w * h * 3))%Q in
  let s := {| mae := m;
              rmse := pow_half (sum_sq a / inject_Z (w * h * 3));
              similarity_pct := similarity m;
              grid_cells := all_cells a grid_cols grid_rows;
              zone_report := zone_report_of (zones a);
              worst_grid_cells := worst_cells (all_cells a grid_cols grid_rows) |} in
  diff_engine pow_half fig_img emu_aligned grid_cols grid_rows
  = Ok (a, s,
        {| m_mae := round4 (mae s);
           m_rmse := round4 (rmse s);
           m_similarityPct := round4 (similarity_pct s);
           m_pxDiffGt10Pct := round4 (inject_Z (diff_gt_10 a) * 100 / inject_Z (w * h));
           m_pxDiffGt25Pct := round4 (inject_Z (diff_gt_25 a) * 100 / inject_Z (w * h));
           m_pxDiffGt50Pct := round4 (inject_Z (diff_gt_50 a) * 100 / inject_Z (w * h)) |}).
Proof.
  intros a m s.
  destruct (diff_pass_as_fold fig_img emu_aligned grid_cols grid_rows
              same_width same_height cols_pos rows_pos) as [Hrun Hshape].
  unfold diff_engine, image_size. rewrite Hrun. cbn [bind]. fold w h a.
  unfold summarize.
  rewrite !fdiv_int by (subst w h; nia). cbn [bind].
  rewrite (grid_cells_of_ok a w h grid_cols grid_rows Hshape). cbn [bind].
  unfold metrics_of.
  rewrite !fdiv_int by (subst w h; nia). cbn [bind].
  reflexivity.
Qed.

End Engine.

(** ** Rounding *)

Local Open Scope Q_scope.

Lemma py_round_comp (q q' : Q) : q == q' -> py_round q = py_round q'.
Proof.
  intros H. unfold py_round. rewrite (Qfloor_comp q q' H).
  assert (E : (q - inject_Z (Qfloor q') ?= 1 # 2)%Q
              = (q' - inject_Z (Qfloor q') ?= 1 # 2)%Q)
    by (now rewrite H).
  now rewrite E.
Qed.

Lemma py_round_Z (n : Z) : py_round (inject_Z n) = n.
Proof.
  unfold py_round. rewrite Qfloor_Z.
  assert (E : (inject_Z n - inject_Z n ?= 1 # 2)%Q = Lt).
  { apply (proj1 (Qlt_alt _ _)). lra. }
  now rewrite E.
Qed.

Lemma py_round_error (q : Q) : Qabs (inject_Z (py_round q) - q) <= 1 # 2.
Proof.
  pose proof (Qfloor_le q) as Hlo. pose proof (Qlt_floor q) as Hhi.
  rewrite inject_Z_plus in Hhi. change (inject_Z 1) with 1%Q in Hhi.
  apply Qabs_Qle_condition. unfold py_round.
  destruct (q - inject_Z (Qfloor q) ?= 1 # 2)%Q eqn:E.
  - apply (proj2 (Qeq_alt _ _)) in E.
    destruct (Z.even (Qfloor q));
      rewrite ?inject_Z_plus; change (inject_Z 1) with 1%Q; split; lra.
  - apply (proj2 (Qlt_alt _ _)) in E. split; lra.
  - apply (proj2 (Qgt_alt _ _)) in E. rewrite inject_Z_plus. change (inject_Z 1) with 1%Q.
    split; lra.
Qed.

Lemma round4_comp (q q' : Q) : q == q' -> round4 q = round4 q'.
Proof.
  intros H. unfold round4. rewrite (py_round_comp (q * 10000) (q' * 10000)).
  - reflexivity.
  - now rewrite H.
Qed.

Lemma round3_comp (q q' : Q) : q == q' -> round3 q = round3 q'.
Proof.
  intros H. unfold round3. rewrite (py_round_comp (q * 1000) (q' * 1000)).
  - reflexivity.
  - now rewrite H.
Qed.

Lemma round4_int (k : Z) : round4 (inject_Z k) == inject_Z k.
Proof.
  unfold round4.
  rewrite (py_round_comp (inject_Z k * 10000) (inject_Z (k * 10000))).
  - rewrite py_round_Z, inject_Z_mult. change (inject_Z 10000) with 10000%Q.
    field.
  - rewrite inject_Z_mult. reflexivity.
Qed.

Lemma round4_error (q : Q) : Qabs (round4 q - q) <= 1 # 20000.
Proof.
  pose proof (py_round_error (q * 10000)) as H.
  apply Qabs_Qle_condition in H. apply Qabs_Qle_condition.
  unfold round4.
  set (r := inject_Z (py_round (q * 10000))) in *.
  assert (E : r / 10000 - q == (r - q * 10000) / 10000) by field.
  rewrite E. destruct H as [H1 H2]. split.
  - apply Qle_shift_div_l; [reflexivity|]. lra.
  - apply Qle_shift_div_r; [reflexivity|]. lra.
Qed.

Lemma max0_nonneg (q : Q) : 0 <= q -> max0 q == q.
Proof.
  intros H. unfold max0. destruct (Qltb 0 q) eqn:E; [reflexivity|].
  apply Qltb_ge in E. lra.
Qed.

Lemma similarity_comp (q q' : Q) : q == q' -> similarity q == similarity q'.
Proof.
  intros H. unfold similarity, max0.
  destruct (Qltb 0 (100 - q / 255 * 100)) eqn:E1;
    destruct (Qltb 0 (100 - q' / 255 * 100)) eqn:E2;
    try apply Qltb_lt in E1; try apply Qltb_lt in E2;
    try apply Qltb_ge in E1; try apply Qltb_ge in E2;
    rewrite ?H in *; try reflexivity; lra.
Qed.

Lemma similarity_low (q : Q) :
  0 <= q -> q <= 255 -> similarity q == 100 - q / 255 * 100.
Proof.
  intros H0 H1. unfold similarity. apply max0_nonneg.
  assert (E : q / 255 * 100 == q * (100 # 255)) by field.
  rewrite E. lra.
Qed.

Local Close Scope Q_scope.

(** ** Identical images *)

Lemma abs_delta_same (p : rgb) : abs_delta p p = 0.
Proof. destruct p as [[r g] b]. simpl. lia. Qed.

Lemma sq_delta_same (p : rgb) : sq_delta p p = 0.
Proof. destruct p as [[r g] b]. simpl. lia. Qed.

Lemma Forall_list_set {A : Type} (P : A -> Prop) (l : list A) (k : nat) (v : A) :
  Forall P l -> P v -> Forall P (list_set l k v).
Proof.
  intros Hl Hv. revert k; induction Hl as [|x l Hx Hl IH]; intros [|k]; simpl;
    constructor; auto.
Qed.

Lemma Forall_nth_default {A : Type} (P : A -> Prop) (l : list A) (k : nat) (d : A) :
  Forall P l -> P d -> P (nth k l d).
Proof.
  intros Hl Hd. destruct (nth_in_or_default k l d) as [Hin | ->]; [|exact Hd].
  rewrite Forall_forall in Hl. auto.
Qed.

Lemma zone_add_zero_sums (zs : list zone) (q d : Q) :
  (d == 0)%Q ->
  Forall (fun z => (z_sum z == 0)%Q) zs ->
  Forall (fun z => (z_sum z == 0)%Q) (zone_add zs q d).
Proof.
  intros Hd Hz; induction Hz as [|z zs Hz Hzs IH]; simpl; [constructor|].
  destruct (in_band z q); constructor; auto.
  cbn [z_sum zone_bump]. rewrite Hz, Hd. reflexivity.
Qed.

Lemma sqrt4_zero (q : Q) : (q == 0)%Q -> (sqrt4 q == 0)%Q.
Proof.
  intros H. unfold sqrt4.
  rewrite (Qfloor_comp (q * 100000000) 0) by (rewrite H; reflexivity).
  reflexivity.
Qed.

Section Identical.
Variables fig_img emu_aligned : image.
Variables grid_cols grid_rows : Z.

Let w := im_width fig_img.
Let h := im_height fig_img.
Let step := pixel_step fig_img emu_aligned w h grid_cols grid_rows.
Let same_at (p : Z * Z) : Prop :=
  pixel_at emu_aligned (fst p) (snd p) = pixel_at fig_img (fst p) (snd p).

(** Nothing has been added to any sum or counter. *)
Let zero_inv (a : diff_acc) : Prop :=
  (sum_abs a == 0)%Q /\ (sum_sq a == 0)%Q /\
  diff_gt_10 a = 0 /\ diff_gt_25 a = 0 /\ diff_gt_50 a = 0 /\
  Forall (fun s => (s == 0)%Q) (cell_sums a) /\
  Forall (fun z => (z_sum z == 0)%Q) (zones a).

Lemma zero_inv_init : zero_inv (diff_init w h grid_cols grid_rows).
Proof.
  unfold zero_inv, diff_init. cbn.
  repeat split; try reflexivity.
  - apply Forall_forall. intros s Hs. apply repeat_spec in Hs. now subst.
  - repeat constructor.
Qed.

Lemma zero_inv_step (a : diff_acc) (p : Z * Z) :
  same_at p -> zero_inv a -> zero_inv (step a p).
Proof.
  destruct p as [x y]. unfold same_at. cbn [fst snd].
  intros Heq [Ha [Hs [H10 [H25 [H50 [Hc Hz]]]]]].
  unfold zero_inv, step, pixel_step, d_avg_at.
  rewrite Heq, abs_delta_same, sq_delta_same.
  cbn [sum_abs sum_sq diff_gt_10 diff_gt_25 diff_gt_50 cell_sums zones].
  set (d := (inject_Z 0 / 3)%Q).
  assert (Hd : (d == 0)%Q) by reflexivity.
  change (Qltb 10 d) with false. change (Qltb 25 d) with false.
  change (Qltb 50 d) with false.
  change (inject_Z 0) with 0%Q.
  repeat split; try assumption.
  - rewrite Ha. reflexivity.
  - rewrite Hs. reflexivity.
  - apply Forall_list_set; [exact Hc|].
    assert (Hn : (nth (Z.to_nat (cell_index w h grid_cols grid_rows x y))
                      (cell_sums a) 0 == 0)%Q)
      by (apply Forall_nth_default; [exact Hc | reflexivity]).
    rewrite Hn, Hd. reflexivity.
  - now apply zone_add_zero_sums.
Qed.

Lemma zero_inv_fold (ps : list (Z * Z)) :
  Forall same_at ps ->
  zero_inv (fold_left step ps (diff_init w h grid_cols grid_rows)).
Proof.
  intros Hps.
  apply (fold_left_prefix step (fun _ => zero_inv) same_at
           (fun _ x a Hx Ha => zero_inv_step a x Hx Ha) ps Hps []).
  apply zero_inv_init.
Qed.

End Identical.

Lemma zero_cell_avg (a : diff_acc) (grid_cols row col : Z) :
  Forall (fun s => (s == 0)%Q) (cell_sums a) ->
  (cell_avg a grid_cols row col == 0)%Q.
Proof.
  intros Hc. unfold cell_avg.
  destruct (nth (Z.to_nat (row * grid_cols + col)) (cell_pixels a) 0 =? 0);
    [reflexivity|].
  assert (Hn : (nth (Z.to_nat (row * grid_cols + col)) (cell_sums a) 0 == 0)%Q)
    by (apply Forall_nth_default; [exact Hc | reflexivity]).
  unfold Qdiv. rewrite Hn. apply Qmult_0_l.
Qed.

Lemma zero_zone_avg (z : zone) : (z_sum z == 0)%Q -> (zone_avg z == 0)%Q.
Proof.
  intros Hz. unfold zone_avg. destruct (z_count z =? 0); [reflexivity|].
  unfold Qdiv. rewrite Hz. apply Qmult_0_l.
Qed.

(** C5. On a reference and an aligned capture of the same positive size
    with the same colour at every pixel, the diff returns with mean
    absolute error 0, root mean square error 0, similarity 100, the
    three threshold percentages 0, and average delta 0 in every one of
    the grid_cols * grid_rows cells and in each of the five zones. *)
Theorem identical_images_zero_diff (pow_half : Q -> Q)
    (fig_img emu_aligned : image) (grid_cols grid_rows : Z) :
  (forall q, (q == 0)%Q -> (pow_half q == 0)%Q) ->
  im_width emu_aligned = im_width fig_img ->
  im_height emu_aligned = im_height fig_img ->
  0 < im_width fig_img -> 0 < im_height fig_img ->
  0 < grid_cols -> 0 < grid_rows ->
  (forall x y, 0 <= x < im_width fig_img -> 0 <= y < im_height fig_img ->
               pixel_at emu_aligned x y = pixel_at fig_img x y) ->
  exists a s m,
    diff_engine pow_half fig_img emu_aligned grid_cols grid_rows = Ok (a, s, m) /\
    ((mae s == 0) /\ (rmse s == 0) /\ (similarity_pct s == 100))%Q /\
    ((m_mae m == 0) /\ (m_rmse m == 0) /\ (m_similarityPct m == 100))%Q /\
    ((m_pxDiffGt10Pct m == 0) /\ (m_pxDiffGt25Pct m == 0)
     /\ (m_pxDiffGt50Pct m == 0))%Q /\
    Z.of_nat (List.length (grid_cells s)) = grid_cols * grid_rows /\
    Forall (fun c => (c_avgDiff c == 0)%Q) (grid_cells s) /\
    List.length (zone_report s) = 5%nat /\
    Forall (fun z => (ze_avgDiff z == 0)%Q) (zone_report s).
Proof.
  intros Hpow Hw Hh Hw0 Hh0 Hgc Hgr Hsame.
  pose proof (diff_engine_runs pow_half fig_img emu_aligned grid_cols grid_rows
                Hw Hh Hw0 Hh0 Hgc Hgr) as Hrun.
  cbv zeta in Hrun.
  set (a := fold_left _ _ _) in Hrun.
  assert (Hzero : (sum_abs a == 0)%Q /\ (sum_sq a == 0)%Q /\
            diff_gt_10 a = 0 /\ diff_gt_25 a = 0 /\ diff_gt_50 a = 0 /\
            Forall (fun s => (s == 0)%Q) (cell_sums a) /\
            Forall (fun z => (z_sum z == 0)%Q) (zones a)).
  { apply zero_inv_fold. apply Forall_forall. intros [x y] Hp.
    apply in_pixels in Hp. cbn [fst snd]. now apply Hsame. }
  destruct Hzero as [Ha [Hs [H10 [H25 [H50 [Hc Hz]]]]]].
  pose proof (zones_inv_fold fig_img emu_aligned grid_cols grid_rows
                (pixels (im_width fig_img) (im_height fig_img))
                (pixels_inside _ _)) as [Hbands _].
  fold a in Hbands.
  assert (Hmae : (sum_abs a / inject_Z (im_width fig_img * im_height fig_img * 3)
                  == 0)%Q)
    by (unfold Qdiv; rewrite Ha; apply Qmult_0_l).
  assert (Hmsq : (sum_sq a / inject_Z (im_width fig_img * im_height fig_img * 3)
                  == 0)%Q)
    by (unfold Qdiv; rewrite Hs; apply Qmult_0_l).
  assert (Hsim : (similarity (sum_abs a
                   / inject_Z (im_width fig_img * im_height fig_img * 3)) == 100)%Q)
    by (rewrite (similarity_comp _ 0 Hmae); reflexivity).
  assert (Hpct : (inject_Z 0 * 100
                  / inject_Z (im_width fig_img * im_height fig_img) == 0)%Q)
    by (change (inject_Z 0) with 0%Q; unfold Qdiv; rewrite !Qmult_0_l;
        reflexivity).
  eexists _, _, _. split; [exact Hrun|].
  cbn [mae rmse similarity_pct grid_cells zone_report
       m_mae m_rmse m_similarityPct m_pxDiffGt10Pct m_pxDiffGt25Pct
       m_pxDiffGt50Pct].
  rewrite H10, H25, H50.
  split; [repeat split; [exact Hmae | now apply Hpow | exact Hsim]|].
  split.
  { repeat split.
    - rewrite (round4_comp _ 0 Hmae). reflexivity.
    - rewrite (round4_comp _ 0 (Hpow _ Hmsq)). reflexivity.
    - rewrite (round4_comp _ 100 Hsim). reflexivity. }
  split; [repeat split; rewrite (round4_comp _ 0 Hpct); reflexivity|].
  split; [apply length_all_cells; lia|].
  split.
  { apply Forall_forall. intros c Hin. apply in_all_cells in Hin.
    destruct Hin as [row [col [_ [_ ->]]]]. cbn [c_avgDiff cell_entry].
    rewrite (round3_comp _ 0 (zero_cell_avg a grid_cols row col Hc)).
    reflexivity. }
  split.
  { unfold zone_report_of. rewrite length_map.
    apply (f_equal (@List.length _)) in Hbands.
    unfold zone_bands in Hbands. rewrite !length_map in Hbands. exact Hbands. }
  unfold zone_report_of. apply Forall_forall. intros ze Hin.
  apply in_map_iff in Hin. destruct Hin as [z [<- Hin]]. cbn [ze_avgDiff].
  rewrite Forall_forall in Hz.
  rewrite (round3_comp _ 0 (zero_zone_avg z (Hz z Hin))). reflexivity.
Qed.

Example identical_run :
  match diff_engine sqrt4 sample_fig sample_fig 2 2 with
  | Ok (_, s, m) => (m, map c_avgDiff (grid_cells s), map ze_avgDiff (zone_report s))
  | Raise _ => (mkMetrics 1 1 1 1 1 1, [], [])
  end = (mkMetrics (0 # 10000) (0 # 10000) (1000000 # 10000)
                   (0 # 10000) (0 # 10000) (0 # 10000),
         [0 # 1000; 0 # 1000; 0 # 1000; 0 # 1000]%Q,
         [0 # 1000; 0 # 1000; 0 # 1000; 0 # 1000; 0 # 1000]%Q).
Proof. vm_compute. reflexivity. Qed.

Lemma identical_images_zero_diff_witness :
  exists a s m,
    diff_engine sqrt4 sample_fig sample_fig 2 2 = Ok (a, s, m) /\
    ((mae s == 0) /\ (rmse s == 0) /\ (similarity_pct s == 100))%Q /\
    ((m_mae m == 0) /\ (m_rmse m == 0) /\ (m_similarityPct m == 100))%Q /\
    ((m_pxDiffGt10Pct m == 0) /\ (m_pxDiffGt25Pct m == 0)
     /\ (m_pxDiffGt50Pct m == 0))%Q /\
    Z.of_nat (List.length (grid_cells s)) = 2 * 2 /\
    Forall (fun c => (c_avgDiff c == 0)%Q) (grid_cells s) /\
    List.length (zone_report s) = 5%nat /\
    Forall (fun z => (ze_avgDiff z == 0)%Q) (zone_report s).
Proof.
  apply (identical_images_zero_diff sqrt4 sample_fig sample_fig 2 2);
    try (simpl; lia); try reflexivity.
  exact sqrt4_zero.
Defined.

(** ** Images a constant delta apart *)

Lemma abs_delta_channels (p q : rgb) (k : Z) :
  channel_deltas p q = (k, k, k) -> abs_delta p q = 3 * k.
Proof.
  destruct p as [[r1 g1] b1], q as [[r2 g2] b2].
  unfold channel_deltas, abs_delta. cbv beta iota.
  intros H. injection H as H1 H2 H3. lia.
Qed.

Lemma channel_delta_bounds (p q : rgb) (k : Z) :
  byte_sample p -> byte_sample q -> channel_deltas p q = (k, k, k) ->
  0 <= k <= 255.
Proof.
  destruct p as [[r1 g1] b1], q as [[r2 g2] b2].
  unfold channel_deltas, byte_sample. cbv beta iota.
  intros Hp Hq H. injection H as H1 H2 H3. lia.
Qed.

Section ConstantDelta.
Variables fig_img emu_aligned : image.
Variables grid_cols grid_rows : Z.
Variable k : Z.

Let w := im_width fig_img.
Let h := im_height fig_img.
Let step := pixel_step fig_img emu_aligned w h grid_cols grid_rows.
Let apart (p : Z * Z) : Prop :=
  channel_deltas (pixel_at fig_img (fst p) (snd p))
                 (pixel_at emu_aligned (fst p) (snd p)) = (k, k, k).

(** Every pixel so far has added 3k to the sum of absolute deltas. *)
Let delta_inv (ps : list (Z * Z)) (a : diff_acc) : Prop :=
  sum_abs a = inject_Z (3 * k * Z.of_nat (List.length ps)).

Lemma delta_inv_step (ps : list (Z * Z)) (p : Z * Z) (a : diff_acc) :
  apart p -> delta_inv ps a -> delta_inv (ps ++ [p]) (step a p).
Proof.
  destruct p as [x y]. unfold apart, delta_inv. cbn [fst snd]. intros Hk Ha.
  unfold step, pixel_step. cbn [sum_abs].
  rewrite Ha, (abs_delta_channels _ _ k Hk), inject_Z_add.
  f_equal. rewrite length_app. simpl. lia.
Qed.

Lemma delta_inv_fold (ps : list (Z * Z)) :
  Forall apart ps ->
  delta_inv ps (fold_left step ps (diff_init w h grid_cols grid_rows)).
Proof.
  intros Hps.
  apply (fold_left_prefix step delta_inv apart delta_inv_step ps Hps []).
  unfold delta_inv, diff_init. cbn. now rewrite Z.mul_0_r.
Qed.

End ConstantDelta.

Lemma Qdiv_int_exact (k n : Z) :
  n <> 0 -> (inject_Z (3 * k * n) / inject_Z (n * 3) == inject_Z k)%Q.
Proof.
  intros Hn.
  replace (3 * k * n) with (k * (n * 3)) by ring.
  rewrite inject_Z_mult. apply Qdiv_mult_l.
  intros H. unfold Qeq in H. simpl in H. lia.
Qed.

(** C6. On two byte images of the same positive size whose every pixel
    differs by k in each channel, the diff returns with mean absolute
    error k, in the pass and in the report, and similarity
    100 - (k / 255) * 100, which the report rounds to four decimals; for
    k = 5 both the similarity and its reported value exceed 90. *)
Theorem constant_delta_metrics (pow_half : Q -> Q)
    (fig_img emu_aligned : image) (grid_cols grid_rows k : Z) :
  byte_image fig_img -> byte_image emu_aligned ->
  im_width emu_aligned = im_width fig_img ->
  im_height emu_aligned = im_height fig_img ->
  0 < im_width fig_img -> 0 < im_height fig_img ->
  0 < grid_cols -> 0 < grid_rows ->
  (forall x y, 0 <= x < im_width fig_img -> 0 <= y < im_height fig_img ->
               channel_deltas (pixel_at fig_img x y) (pixel_at emu_aligned x y)
               = (k, k, k)) ->
  exists a s m,
    diff_engine pow_half fig_img emu_aligned grid_cols grid_rows = Ok (a, s, m) /\
    (mae s == inject_Z k)%Q /\
    (similarity_pct s == 100 - inject_Z k / 255 * 100)%Q /\
    (m_mae m == inject_Z k)%Q /\
    (Qabs (m_similarityPct m - (100 - inject_Z k / 255 * 100)) <= 1 # 20000)%Q /\
    (k = 5 -> (90 < similarity_pct s)%Q /\ (90 < m_similarityPct m)%Q).
Proof.
  intros Hbf Hbe Hw Hh Hw0 Hh0 Hgc Hgr Hk.
  pose proof (diff_engine_runs pow_half fig_img emu_aligned grid_cols grid_rows
                Hw Hh Hw0 Hh0 Hgc Hgr) as Hrun.
  cbv zeta in Hrun.
  set (a := fold_left _ _ _) in Hrun.
  assert (Hsum : sum_abs a
                 = inject_Z (3 * k * (im_width fig_img * im_height fig_img))).
  { unfold a.
    rewrite (delta_inv_fold fig_img emu_aligned grid_cols grid_rows k
               (pixels (im_width fig_img) (im_height fig_img))).
    - now rewrite length_pixels by lia.
    - apply Forall_forall. intros [x y] Hp. apply in_pixels in Hp.
      cbn [fst snd]. now apply Hk. }
  assert (Hkb : 0 <= k <= 255).
  { apply (channel_delta_bounds (pixel_at fig_img 0 0) (pixel_at emu_aligned 0 0));
      [now apply pixel_at_byte | now apply pixel_at_byte | apply Hk; lia]. }
  assert (Hkq : (0 <= inject_Z k /\ inject_Z k <= 255)%Q).
  { change 0%Q with (inject_Z 0). change 255%Q with (inject_Z 255).
    rewrite <- !Zle_Qle. lia. }
  assert (Hmae : (sum_abs a / inject_Z (im_width fig_img * im_height fig_img * 3)
                  == inject_Z k)%Q).
  { rewrite Hsum. apply Qdiv_int_exact. nia. }
  assert (Hsim : (similarity (sum_abs a
                    / inject_Z (im_width fig_img * im_height fig_img * 3))
                  == 100 - inject_Z k / 255 * 100)%Q).
  { rewrite (similarity_comp _ _ Hmae). now apply similarity_low. }
  pose proof (round4_error (similarity (sum_abs a
                / inject_Z (im_width fig_img * im_height fig_img * 3)))) as Herr.
  apply Qabs_Qle_condition in Herr.
  eexists _, _, _. split; [exact Hrun|].
  cbn [mae similarity_pct m_mae m_similarityPct].
  split; [exact Hmae|]. split; [exact Hsim|].
  split; [rewrite (round4_comp _ _ Hmae); apply round4_int|].
  split.
  - apply Qabs_Qle_condition. clear Hrun.
    set (x := similarity _) in *. set (r := round4 x) in *.
    set (t := (100 - inject_Z k / 255 * 100)%Q) in *.
    destruct Herr as [H1 H2]. split; lra.
  - intros ->. change (inject_Z 5) with 5%Q in Hsim. clear Hrun.
    assert (Ht : (90 + (1 # 20000) < 100 - 5 / 255 * 100)%Q) by reflexivity.
    set (x := similarity _) in *. set (r := round4 x) in *.
    set (t := (100 - 5 / 255 * 100)%Q) in *. clearbody x r t.
    destruct Herr as [H1 H2]. split; lra.
Qed.

(** The scenario of the test suite, scaled down: a reference of colour
    (40, 75, 140) against a capture of colour (35, 70, 135). *)
Example uniform_delta_run :
  match diff_engine sqrt4 (mkImage 2 2 (repeat (40, 75, 140) 4))
                          (mkImage 2 2 (repeat (35, 70, 135) 4)) 6 10 with
  | Ok (_, s, m) => (mae s == 5)%Q /\ m_mae m = (50000 # 10000)%Q
                    /\ m_similarityPct m = (980392 # 10000)%Q
  | Raise _ => False
  end.
Proof. vm_compute. repeat split. Qed.

Lemma constant_delta_metrics_witness :
  exists a s m,
    diff_engine sqrt4 (mkImage 2 2 (repeat (40, 75, 140) 4))
                (mkImage 2 2 (repeat (35, 70, 135) 4)) 6 10 = Ok (a, s, m) /\
    (mae s == inject_Z 5)%Q /\
    (similarity_pct s == 100 - inject_Z 5 / 255 * 100)%Q /\
    (m_mae m == inject_Z 5)%Q /\
    (Qabs (m_similarityPct m - (100 - inject_Z 5 / 255 * 100)) <= 1 # 20000)%Q /\
    (5 = 5 -> (90 < similarity_pct s)%Q /\ (90 < m_similarityPct m)%Q).
Proof.
  apply (constant_delta_metrics sqrt4 (mkImage 2 2 (repeat (40, 75, 140) 4))
           (mkImage 2 2 (repeat (35, 70, 135) 4)) 6 10 5);
    try (simpl; lia).
  - repeat constructor; simpl; lia.
  - repeat constructor; simpl; lia.
  - intros x y Hx Hy. simpl in Hx, Hy.
    assert (Ex : x = 0 \/ x = 1) by lia. assert (Ey : y = 0 \/ y = 1) by lia.
    destruct Ex as [-> | ->], Ey as [-> | ->]; reflexivity.
Defined.

(** ** Sorting by descending key *)

Lemma firstn_incl {A : Type} (n : nat) (l : list A) (x : A) :
  In x (firstn n l) -> In x l.
Proof.
  revert l; induction n as [|n IH]; intros [|y l] H; simpl in *; try tauto.
  destruct H as [H | H]; auto.
Qed.

Section SortedDesc.
Context {A : Type}.
Variable key : A -> Q.

Let desc (a b : A) : Prop := (key b <= key a)%Q.

Lemma insert_desc_perm (c : A) (l : list A) :
  Permutation (insert_desc key c l) (c :: l).
Proof.
  induction l as [|d l IH]; simpl; [apply Permutation_refl|].
  destruct (Qltb (key c) (key d)).
  - eapply perm_trans; [apply perm_skip; exact IH | apply perm_swap].
  - apply Permutation_refl.
Qed.

Lemma sorted_desc_perm (l : list A) : Permutation (sorted_desc key l) l.
Proof.
  induction l as [|c l IH]; simpl; [apply perm_nil|].
  eapply perm_trans; [apply insert_desc_perm | now apply perm_skip].
Qed.

Lemma insert_desc_sorted (c : A) (l : list A) :
  StronglySorted desc l -> StronglySorted desc (insert_desc key c l).
Proof.
  induction 1 as [|d l Hl IH Hd]; simpl.
  - constructor; constructor.
  - destruct (Qltb (key c) (key d)) eqn:E.
    + apply Qltb_lt in E. constructor; [exact IH|].
      apply (Permutation_Forall (Permutation_sym (insert_desc_perm c l))).
      constructor; [unfold desc; now apply Qlt_le_weak | exact Hd].
    + apply Qltb_ge in E. constructor; [now constructor|].
      constructor; [exact E|].
      eapply Forall_impl; [|exact Hd].
      intros x Hx. unfold desc in *. eapply Qle_trans; eassumption.
Qed.

Lemma sorted_desc_sorted (l : list A) : StronglySorted desc (sorted_desc key l).
Proof.
  induction l as [|c l IH]; simpl; [constructor|].
  now apply insert_desc_sorted.
Qed.

Lemma firstn_sorted (n : nat) (l : list A) :
  StronglySorted desc l -> StronglySorted desc (firstn n l).
Proof.
  intros Hl; revert n; induction Hl as [|d l Hl IH Hd]; intros [|n]; simpl;
    try constructor; auto.
  apply Forall_forall. intros x Hx. apply firstn_incl in Hx.
  rewrite Forall_forall in Hd. auto.
Qed.

(** Cells of equal key keep the order they had. *)
Lemma insert_desc_stable (c : A) (l : list A) :
  Forall (fun d => (key d <= key c)%Q) l -> insert_desc key c l = c :: l.
Proof.
  intros H. destruct H as [|d l Hd Hl]; simpl; [reflexivity|].
  replace (Qltb (key c) (key d)) with false; [reflexivity|].
  symmetry. now apply Qltb_ge.
Qed.

End SortedDesc.

Example sorted_desc_ties :
  sorted_desc (fun p : Z * Z => inject_Z (fst p))
              [(1, 0); (3, 1); (1, 2); (3, 3); (2, 4)]
  = [(3, 1); (3, 3); (2, 4); (1, 0); (1, 2)].
Proof. reflexivity. Qed.

Lemma worst_cells_spec (cells : list grid_cell) :
  StronglySorted (fun c d => (c_avgDiff d <= c_avgDiff c)%Q) (worst_cells cells) /\
  List.length (worst_cells cells) = Nat.min 12 (List.length cells) /\
  (forall c, In c (worst_cells cells) -> In c cells).
Proof.
  unfold worst_cells. split; [apply firstn_sorted, sorted_desc_sorted|]. split.
  - rewrite length_firstn.
    now rewrite (Permutation_length (sorted_desc_perm c_avgDiff cells)).
  - intros c Hc. apply firstn_incl in Hc.
    eapply Permutation_in; [apply sorted_desc_perm | exact Hc].
Qed.

(** The worst grid cells the diff returns are in descending order of
    avgDiff, each of them is one of the grid cells, and there are
    min(12, grid_cols * grid_rows) of them. *)
Lemma diff_worst_cells_sorted (pow_half : Q -> Q)
    (fig_img emu_aligned : image) (grid_cols grid_rows : Z) :
  im_width emu_aligned = im_width fig_img ->
  im_height emu_aligned = im_height fig_img ->
  0 < im_width fig_img -> 0 < im_height fig_img ->
  0 < grid_cols -> 0 < grid_rows ->
  exists a s m,
    diff_engine pow_half fig_img emu_aligned grid_cols grid_rows = Ok (a, s, m) /\
    worst_grid_cells s = firstn 12 (sorted_desc c_avgDiff (grid_cells s)) /\
    StronglySorted (fun c d => (c_avgDiff d <= c_avgDiff c)%Q) (worst_grid_cells s) /\
    Z.of_nat (List.length (grid_cells s)) = grid_cols * grid_rows /\
    Z.of_nat (List.length (worst_grid_cells s)) = Z.min 12 (grid_cols * grid_rows) /\
    Z.of_nat (List.length (worst_grid_cells s)) <= Z.min 12 (grid_cols * grid_rows) /\
    (forall c, In c (worst_grid_cells s) -> In c (grid_cells s)).
Proof.
  intros Hw Hh Hw0 Hh0 Hgc Hgr.
  pose proof (diff_engine_runs pow_half fig_img emu_aligned grid_cols grid_rows
                Hw Hh Hw0 Hh0 Hgc Hgr) as Hrun.
  cbv zeta in Hrun. set (a := fold_left _ _ _) in Hrun.
  eexists _, _, _. split; [exact Hrun|].
  cbn [worst_grid_cells grid_cells].
  pose proof (length_all_cells a grid_cols grid_rows ltac:(lia) ltac:(lia)) as Hlen.
  destruct (worst_cells_spec (all_cells a grid_cols grid_rows))
    as [Hsorted [Hn Hincl]].
  split; [reflexivity|].
  split; [exact Hsorted|].
  split; [exact Hlen|].
  split; [rewrite Hn; lia|].
  split; [rewrite Hn; lia|].
  exact Hincl.
Qed.

Example sample_worst :
  match diff_engine sqrt4 sample_fig (crop sample_emu 0 2 3 4) 2 2 with
  | Ok (_, s, _) => map (fun c => (c_row c, c_col c, c_avgDiff c)) (worst_grid_cells s)
  | Raise _ => []
  end = [(1, 1, (47333 # 1000)%Q); (1, 0, (10500 # 1000)%Q);
         (0, 0, (3833 # 1000)%Q); (0, 1, (333 # 1000)%Q)].
Proof. vm_compute. reflexivity. Qed.

Example sample_worst_cells_sorted :
  exists a s m,
    diff_engine sqrt4 sample_fig (crop sample_emu 0 2 3 4) 5 4 = Ok (a, s, m) /\
    worst_grid_cells s = firstn 12 (sorted_desc c_avgDiff (grid_cells s)) /\
    StronglySorted (fun c d => (c_avgDiff d <= c_avgDiff c)%Q) (worst_grid_cells s) /\
    Z.of_nat (List.length (grid_cells s)) = 5 * 4 /\
    Z.of_nat (List.length (worst_grid_cells s)) = Z.min 12 (5 * 4) /\
    Z.of_nat (List.length (worst_grid_cells s)) <= Z.min 12 (5 * 4) /\
    (forall c, In c (worst_grid_cells s) -> In c (grid_cells s)).
Proof.
  apply (diff_worst_cells_sorted sqrt4 sample_fig (crop sample_emu 0 2 3 4) 5 4);
    simpl; lia.
Qed.

(** ** Runs of [compare_screen_with_figma] *)

Example run_scaled_down :
  match compare_screen_with_figma sqrt4
          flat_world "file_key" "21:1074" (Some "figd_test"%string) 3 true 6 10 "out" [] with
  | (Ok r, log) =>
      (r_scaledHeight r, r_bestYOffset r, r_coarseMaeAtBestOffset r,
       m_mae (r_metrics r), m_similarityPct (r_metrics r),
       List.length (r_zones r), List.length (r_worstGridCells r),
       r_heatmap r, List.length log)
  | (Raise _, _) => (0, 0, PosInf, 0%Q, 0%Q, 0%nat, 0%nat, ""%string, 0%nat)
  end
  = (9, 0, Fin (50000 # 10000), (50000 # 10000)%Q, (980392 # 10000)%Q,
     5%nat, 12%nat, "out/20260309_140507_heatmap.png"%string, 9%nat).
Proof. vm_compute. reflexivity. Qed.

Example run_too_short :
  compare_screen_with_figma sqrt4
    (quiet_world (solid 50 300 (0, 0, 0)) (solid 100 120 (0, 0, 0)) (0, 0, 0))
    "file_key" "21:1074" (Some "figd_test"%string) 1 true 6 10 "out" []
  = (Raise (RuntimeError
       "Scaled emulator image is shorter than Figma image (60 < 300)."),
     [EvMkdir "out"; EvScreencap "out/20260309_140507_emulator_raw.png";
      EvFigmaApi "file_key" "21:1074" "figd_test" 1 true;
      EvDownload "https://example.com/mock.png"
                 "out/20260309_140507_figma_node.png";
      EvOpenImage "out/20260309_140507_figma_node.png";
      EvOpenImage "out/20260309_140507_emulator_raw.png"]).
Proof. vm_compute. reflexivity. Qed.

(** ** Validation comes first *)

Lemma truthy_false (s : string) : truthy s = false <-> s = EmptyString.
Proof. destruct s; simpl; split; congruence. Qed.

Lemma resolve_token_missing (W : world) (figma_token : option string) :
  (figma_token = None \/ figma_token = Some EmptyString) ->
  (env_FIGMA_TOKEN W = None \/ env_FIGMA_TOKEN W = Some EmptyString) ->
  _resolve_figma_token W figma_token = Raise (RuntimeError token_required).
Proof.
  intros [-> | ->] [E | E]; unfold _resolve_figma_token; rewrite E; reflexivity.
Qed.

(** C8. A call with an empty (or blank) file or node identifier, a scale
    that is not positive, or a grid dimension that is not positive
    raises one of the four argument errors and logs no event: no
    directory made, no screenshot taken, no request sent, no file read
    or written.  A call without a token, in the argument and in the
    environment, raises as well before any event, and when its other
    arguments are valid the error is the one that asks for the token. *)
Theorem validation_precedes_io (pow_half : Q -> Q) (W : world)
    (file_key node_id : string) (figma_token : option string) (scale : Q)
    (use_absolute_bounds : bool) (grid_cols grid_rows : Z)
    (output_dir : string) (log : list event) :
  let run := compare_screen_with_figma pow_half W file_key node_id figma_token
               scale use_absolute_bounds grid_cols grid_rows output_dir log in
  (strip file_key = EmptyString \/ strip node_id = EmptyString \/
   (scale <= 0)%Q \/ grid_cols <= 0 \/ grid_rows <= 0 ->
   exists msg, run = (Raise (RuntimeError msg), log) /\
               In msg validation_messages) /\
  ((figma_token = None \/ figma_token = Some EmptyString) ->
   (env_FIGMA_TOKEN W = None \/ env_FIGMA_TOKEN W = Some EmptyString) ->
   _resolve_figma_token W figma_token = Raise (RuntimeError token_required) /\
   exists msg, run = (Raise (RuntimeError msg), log) /\
               In msg (token_required :: validation_messages) /\
               (strip file_key <> EmptyString -> strip node_id <> EmptyString ->
                (0 < scale)%Q -> 0 < grid_cols -> 0 < grid_rows ->
                msg = token_required)).
Proof.
  intros run. subst run. unfold compare_screen_with_figma.
  destruct (truthy (strip file_key)) eqn:E1; cbn [negb].
  2:{ apply truthy_false in E1. split.
      - intros _. eexists. split; [reflexivity|]. simpl. auto.
      - intros Ht He. split; [now apply resolve_token_missing|].
        eexists. split; [reflexivity|]. split; [simpl; auto|]. congruence. }
  destruct (truthy (strip node_id)) eqn:E2; cbn [negb].
  2:{ apply truthy_false in E2. split.
      - intros _. eexists. split; [reflexivity|]. simpl. auto.
      - intros Ht He. split; [now apply resolve_token_missing|].
        eexists. split; [reflexivity|]. split; [simpl; auto|]. congruence. }
  destruct (Qle_bool scale 0) eqn:E3.
  { apply Qle_bool_iff in E3. split.
    - intros _. eexists. split; [reflexivity|]. simpl. auto.
    - intros Ht He. split; [now apply resolve_token_missing|].
      eexists. split; [reflexivity|]. split; [simpl; auto|].
      intros _ _ Hs. exfalso. exact (Qle_not_lt _ _ E3 Hs). }
  destruct ((grid_cols <=? 0) || (grid_rows <=? 0)) eqn:E4.
  { apply orb_true_iff in E4. rewrite !Z.leb_le in E4. split.
    - intros _. eexists. split; [reflexivity|]. simpl. auto.
    - intros Ht He. split; [now apply resolve_token_missing|].
      eexists. split; [reflexivity|]. split; [simpl; auto 6|].
      intros _ _ _ Hc Hr. lia. }
  apply orb_false_iff in E4. rewrite !Z.leb_gt in E4. split.
  - intros [H | [H | [H | H]]].
    + rewrite H in E1. discriminate.
    + rewrite H in E2. discriminate.
    + apply Qle_bool_iff in H. congruence.
    + lia.
  - intros Ht He. pose proof (resolve_token_missing W figma_token Ht He) as Hr.
    split; [exact Hr|].
    exists token_required. unfold io_bind, io_lift. rewrite Hr.
    split; [reflexivity|]. split; [simpl; auto|]. reflexivity.
Qed.

Example blank_file_key :
  compare_screen_with_figma sqrt4
    (quiet_world sample_fig sample_emu (0, 0, 0))
    "  " "21:1074" (Some "figd_test"%string) 1 true 6 10 "out" []
  = (Raise (RuntimeError "file_key is required."), []).
Proof. reflexivity. Qed.

Example no_token :
  compare_screen_with_figma sqrt4
    (quiet_world sample_fig sample_emu (0, 0, 0))
    "file_key" "21:1074" None 1 true 6 10 "out" []
  = (Raise (RuntimeError token_required), []).
Proof. reflexivity. Qed.

Lemma validation_precedes_io_witness :
  (exists msg,
     compare_screen_with_figma sqrt4 flat_world "" "21:1074" None 0 true 6 0
       "out" [] = (Raise (RuntimeError msg), []) /\
     In msg validation_messages) /\
  (_resolve_figma_token flat_world None = Raise (RuntimeError token_required) /\
   exists msg,
     compare_screen_with_figma sqrt4 flat_world "" "21:1074" None 0 true 6 0
       "out" [] = (Raise (RuntimeError msg), []) /\
     In msg (token_required :: validation_messages) /\
     (strip "" <> EmptyString -> strip "21:1074" <> EmptyString ->
      (0 < 0)%Q -> 0 < 6 -> 0 < 0 -> msg = token_required)).
Proof.
  destruct (validation_precedes_io sqrt4 flat_world "" "21:1074" None 0 true
              6 0 "out" []) as [Ha Hb].
  split.
  - apply Ha. left. reflexivity.
  - apply Hb; left; reflexivity.
Defined.

(** ** A whole run *)

Lemma offset_search_returns (fig_img emu_scaled : image) :
  im_width fig_img <= im_width emu_scaled ->
  im_height fig_img <= im_height emu_scaled ->
  exists best_y best_mae,
    offset_search fig_img emu_scaled (im_height emu_scaled) (im_height fig_img)
    = Ok (best_y, Fin best_mae) /\
    0 <= best_y <= im_height emu_scaled - im_height fig_img.
Proof.
  intros Hw Hh.
  set (m := im_height emu_scaled - im_height fig_img).
  assert (Hscore : forall o, 0 <= o <= m ->
            _coarse_mae fig_img emu_scaled o 2
            = Ok (coarse_score fig_img emu_scaled o)).
  { intros o Ho. apply coarse_mae_refines; [exact Hw | unfold m in Ho; lia]. }
  destruct (search_prefix fig_img emu_scaled (coarse_score fig_img emu_scaled)
              m Hscore (Z.to_nat m)) as [b [Hrun [Hb _]]];
    [unfold m; lia|].
  exists b, (coarse_score fig_img emu_scaled b).
  unfold offset_search. fold m.
  replace (m + 1) with (Z.of_nat (S (Z.to_nat m))) by (unfold m; lia).
  split; [exact Hrun | unfold m in *; lia].
Qed.

Lemma diff_engine_parts (pow_half : Q -> Q) (fig_img emu_aligned : image)
    (grid_cols grid_rows : Z) (a : diff_acc) (s : diff_stats) (m : metrics) :
  diff_engine pow_half fig_img emu_aligned grid_cols grid_rows = Ok (a, s, m) ->
  diff_pass fig_img emu_aligned grid_cols grid_rows = Ok a /\
  summarize pow_half a (im_width fig_img) (im_height fig_img) grid_cols grid_rows
  = Ok s /\
  metrics_of a s (im_width fig_img) (im_height fig_img) = Ok m.
Proof.
  unfold diff_engine, image_size.
  destruct (diff_pass fig_img emu_aligned grid_cols grid_rows) as [a'|e];
    cbn [bind]; [|discriminate].
  destruct (summarize pow_half a' _ _ _ _) as [s'|e] eqn:Es; cbn [bind];
    [|discriminate].
  destruct (metrics_of a' s' _ _) as [m'|e] eqn:Em; cbn [bind]; [|discriminate].
  intros H. injection H as <- <- <-. auto.
Qed.

Lemma resize_ok (W : world) (im : image) (w h : Z) :
  0 < w -> 0 < h ->
  exists scaled, resize W im w h = Ok scaled /\
                 im_width scaled = w /\ im_height scaled = h.
Proof.
  intros Hw Hh. unfold resize.
  replace (w <? 1) with false by (symmetry; apply Z.ltb_ge; lia).
  replace (h <? 1) with false by (symmetry; apply Z.ltb_ge; lia).
  eexists. split; [reflexivity|]. auto.
Qed.

Lemma string_app_assoc (a b c : string) :
  ((a ++ b) ++ c)%string = (a ++ (b ++ c))%string.
Proof. induction a as [|x a IH]; cbn [append]; [reflexivity | now rewrite IH]. Qed.

Lemma dimension_message_contains (scaled_h target_h : Z) :
  contains (dimension_message scaled_h target_h)
           (str_of_int scaled_h ++ " < " ++ str_of_int target_h)%string.
Proof.
  exists "Scaled emulator image is shorter than Figma image ("%string, ")."%string.
  unfold dimension_message. now rewrite !string_app_assoc.
Qed.

Section WholeRun.
Variable pow_half : Q -> Q.
Variable W : world.
Variables file_key node_id output_dir : string.
Variable figma_token : option string.
Variable scale : Q.
Variable use_absolute_bounds : bool.
Variables grid_cols grid_rows : Z.
Variables fig_img emu_raw_img : image.
Variables token url : string.

Hypothesis file_key_given : strip file_key <> EmptyString.
Hypothesis node_id_given : strip node_id <> EmptyString.
Hypothesis scale_pos : (0 < scale)%Q.
Hypothesis cols_pos : 0 < grid_cols.
Hypothesis rows_pos : 0 < grid_rows.
Hypothesis token_given : _resolve_figma_token W figma_token = Ok token.
Hypothesis mkdir_ok : mkdir_result W = Ok tt.
Hypothesis capture_ok : capture_result W = Ok tt.
Hypothesis api_ok : figma_api_result W = Ok url.
Hypothesis download_ok : download_result W = Ok tt.
Hypothesis figma_opens : open_figma W = Ok fig_img.
Hypothesis emulator_opens : open_emulator W = Ok emu_raw_img.
Hypothesis emu_width_pos : 0 < im_width emu_raw_img.

Let target_w := im_width fig_img.
Let target_h := im_height fig_img.
Let scaled_h :=
  py_round (inject_Z (im_height emu_raw_img * target_w)
            / inject_Z (im_width emu_raw_img)).
Let run_id := strftime_run_id (now W).
Let run :=
  compare_screen_with_figma pow_half W file_key node_id figma_token scale
    use_absolute_bounds grid_cols grid_rows output_dir [].

(** The events up to the decoding of the two images. *)
Let fetched : list event :=
  [EvMkdir output_dir;
   EvScreencap (path_join output_dir (run_id ++ "_emulator_raw.png"));
   EvFigmaApi file_key node_id token scale use_absolute_bounds;
   EvDownload url (path_join output_dir (run_id ++ "_figma_node.png"));
   EvOpenImage (path_join output_dir (run_id ++ "_figma_node.png"));
   EvOpenImage (path_join output_dir (run_id ++ "_emulator_raw.png"))]%string.

Lemma run_after_fetch :
  run =
  if scaled_h <? target_h
  then (Raise (RuntimeError (dimension_message scaled_h target_h)), fetched)
  else
    (emu_scaled <- io_lift (resize W emu_raw_img target_w scaled_h) ;;
     _ <- io_call (EvSaveImage
                     (path_join output_dir (run_id ++ "_emulator_scaled.png")))
                  (Ok tt) ;;
     ' (best_y, best_mae) <-
        io_lift (offset_search fig_img emu_scaled scaled_h target_h) ;;
     let emu_aligned := crop emu_scaled 0 best_y target_w (best_y + target_h) in
     _ <- io_call (EvSaveImage
                     (path_join output_dir (run_id ++ "_emulator_aligned.png")))
                  (Ok tt) ;;
     a <- io_lift (diff_pass fig_img emu_aligned grid_cols grid_rows) ;;
     _ <- io_call (EvSaveImage
                     (path_join output_dir (run_id ++ "_heatmap.png")))
                  (Ok tt) ;;
     s <- io_lift (summarize pow_half a target_w target_h grid_cols grid_rows) ;;
     m <- io_lift (metrics_of a s target_w target_h) ;;
     io_ret {| r_fileKey := file_key;
               r_nodeId := node_id;
               r_scale := scale;
               r_width := target_w;
               r_height := target_h;
               r_useAbsoluteBounds := use_absolute_bounds;
               r_scaledWidth := target_w;
               r_scaledHeight := scaled_h;
               r_bestYOffset := best_y;
               r_coarseMaeAtBestOffset := round_float4 best_mae;
               r_metrics := m;
               r_zones := zone_report s;
               r_worstGridCells := worst_grid_cells s;
               r_emulatorRaw :=
                 path_join output_dir (run_id ++ "_emulator_raw.png");
               r_figmaNode :=
                 path_join output_dir (run_id ++ "_figma_node.png");
               r_emulatorScaled :=
                 path_join output_dir (run_id ++ "_emulator_scaled.png");
               r_emulatorAligned :=
                 path_join output_dir (run_id ++ "_emulator_aligned.png");
               r_heatmap :=
                 path_join output_dir (run_id ++ "_heatmap.png") |})%io%string
      fetched.
Proof.
  unfold run, compare_screen_with_figma.
  replace (truthy (strip file_key)) with true
    by (destruct (truthy (strip file_key)) eqn:E; [reflexivity|];
        apply truthy_false in E; contradiction).
  replace (truthy (strip node_id)) with true
    by (destruct (truthy (strip node_id)) eqn:E; [reflexivity|];
        apply truthy_false in E; contradiction).
  replace (Qle_bool scale 0) with false
    by (destruct (Qle_bool scale 0) eqn:E; [|reflexivity];
        apply Qle_bool_iff in E; exfalso; exact (Qle_not_lt _ _ E scale_pos)).
  replace (grid_cols <=? 0) with false by (symmetry; apply Z.leb_gt; lia).
  replace (grid_rows <=? 0) with false by (symmetry; apply Z.leb_gt; lia).
  cbn [negb orb].
  unfold io_bind at 1, io_lift at 1. rewrite token_given.
  unfold io_bind at 1, io_call at 1. rewrite mkdir_ok.
  unfold io_bind at 1, io_call at 1. rewrite capture_ok.
  unfold io_bind at 1, io_call at 1. rewrite api_ok.
  unfold io_bind at 1, io_call at 1. rewrite download_ok.
  unfold io_bind at 1, io_call at 1. rewrite figma_opens.
  unfold io_bind at 1, io_call at 1. rewrite emulator_opens.
  cbn [app image_size].
  unfold io_bind at 1, io_lift at 1, scaled_height.
  replace (im_width emu_raw_img =? 0) with false
    by (symmetry; apply Z.eqb_neq; lia).
  fold target_w target_h scaled_h run_id.
  destruct (scaled_h <? target_h); reflexivity.
Qed.

(** When the rescaled capture covers the reference the run goes
    through: the capture is resized, the search picks an offset, and the
    report carries the metrics, zones and worst cells that [diff_engine]
    computes on the reference and the window cropped at that offset. *)
Lemma run_fits :
  0 < im_width fig_img -> 0 < im_height fig_img ->
  target_h <= scaled_h ->
  exists emu_scaled best_y best_mae a s m r log,
    resize W emu_raw_img target_w scaled_h = Ok emu_scaled /\
    offset_search fig_img emu_scaled scaled_h target_h
    = Ok (best_y, Fin best_mae) /\
    0 <= best_y <= scaled_h - target_h /\
    diff_engine pow_half fig_img
      (crop emu_scaled 0 best_y target_w (best_y + target_h))
      grid_cols grid_rows = Ok (a, s, m) /\
    run = (Ok r, log) /\
    r_scaledHeight r = scaled_h /\ r_height r = target_h /\
    r_bestYOffset r = best_y /\
    r_coarseMaeAtBestOffset r = Fin (round4 best_mae) /\
    r_metrics r = m /\ r_zones r = zone_report s /\
    r_worstGridCells r = worst_grid_cells s /\
    report_paths r = artifact_paths output_dir run_id /\
    log = fetched
          ++ map EvSaveImage
               [path_join output_dir (run_id ++ "_emulator_scaled.png")%string;
                path_join output_dir (run_id ++ "_emulator_aligned.png")%string;
                path_join output_dir (run_id ++ "_heatmap.png")%string].
Proof.
  intros Hfw Hfh Hge. rewrite run_after_fetch.
  replace (scaled_h <? target_h) with false by (symmetry; apply Z.ltb_ge; lia).
  destruct (resize_ok W emu_raw_img target_w scaled_h)
    as [emu_scaled [Hres [Hsw Hsh]]]; [exact Hfw | unfold target_h in *; lia|].
  destruct (offset_search_returns fig_img emu_scaled)
    as [best_y [best_mae [Hsearch Hbest]]];
    [fold target_w; lia | fold target_h; lia|].
  rewrite Hsh in Hsearch, Hbest. fold target_h in Hsearch, Hbest.
  set (emu_aligned := crop emu_scaled 0 best_y target_w (best_y + target_h)).
  assert (Haw : im_width emu_aligned = im_width fig_img)
    by (unfold emu_aligned, crop; cbn [im_width]; fold target_w; lia).
  assert (Hah : im_height emu_aligned = im_height fig_img)
    by (unfold emu_aligned, crop; cbn [im_height]; fold target_h; lia).
  pose proof (diff_engine_runs pow_half fig_img emu_aligned grid_cols grid_rows
                Haw Hah Hfw Hfh cols_pos rows_pos) as Hengine.
  cbv zeta in Hengine.
  destruct (diff_engine_parts _ _ _ _ _ _ _ _ Hengine) as [Hpass [Hsum Hmet]].
  unfold io_bind at 1, io_lift at 1. rewrite Hres. cbv beta iota.
  unfold io_bind at 1, io_call at 1. cbv beta iota.
  unfold io_bind at 1, io_lift at 1. rewrite Hsearch. cbv beta iota zeta.
  fold emu_aligned.
  unfold io_bind at 1, io_call at 1. cbv beta iota.
  unfold io_bind at 1, io_lift at 1. rewrite Hpass. cbv beta iota.
  unfold io_bind at 1, io_call at 1. cbv beta iota.
  unfold target_w, target_h.
  unfold io_bind at 1, io_lift at 1. rewrite Hsum. cbv beta iota.
  unfold io_bind at 1, io_lift at 1. rewrite Hmet. cbv beta iota.
  unfold io_ret.
  eexists emu_scaled, best_y, best_mae, _, _, _, _, _.
  split; [first [exact Hres | reflexivity]|].
  split; [first [exact Hsearch | reflexivity]|].
  split; [exact Hbest|].
  split; [exact Hengine|]. split; [reflexivity|].
  cbn [r_scaledHeight r_height r_bestYOffset r_coarseMaeAtBestOffset
       r_metrics r_zones r_worstGridCells round_float4].
  repeat (split; [reflexivity|]).
  cbn [map]. now rewrite <- !app_assoc.
Qed.

(** C7. When the rescaled capture covers the reference the run returns
    a report, and the worstGridCells of that report are sorted in
    descending order of avgDiff, there are min(12, grid_cols *
    grid_rows) of them, hence at most that many, and each of them is one
    of the grid_cols * grid_rows grid cells that the diff of the
    reference and the aligned capture computed, at a row and a column of
    the grid. *)
Theorem report_worst_cells_sorted_top12 :
  0 < im_width fig_img -> 0 < im_height fig_img ->
  target_h <= scaled_h ->
  exists r log emu_scaled a s m,
    run = (Ok r, log) /\
    resize W emu_raw_img target_w scaled_h = Ok emu_scaled /\
    diff_engine pow_half fig_img
      (crop emu_scaled 0 (r_bestYOffset r) target_w (r_bestYOffset r + target_h))
      grid_cols grid_rows = Ok (a, s, m) /\
    Z.of_nat (List.length (grid_cells s)) = grid_cols * grid_rows /\
    StronglySorted (fun c d => (c_avgDiff d <= c_avgDiff c)%Q)
                   (r_worstGridCells r) /\
    Z.of_nat (List.length (r_worstGridCells r))
    = Z.min 12 (grid_cols * grid_rows) /\
    Z.of_nat (List.length (r_worstGridCells r))
    <= Z.min 12 (grid_cols * grid_rows) /\
    (forall c, In c (r_worstGridCells r) ->
       In c (grid_cells s) /\
       0 <= c_row c < grid_rows /\ 0 <= c_col c < grid_cols).
Proof.
  intros Hfw Hfh Hge.
  destruct (run_fits Hfw Hfh Hge)
    as [emu_scaled [best_y [best_mae [a [s [m [r [log
          [Hres [_ [_ [Hengine [Hrun [_ [_ [Hoff [_ [_ [_ [Hworst _]]]]]]]]]]]]]]]]]]]].
  exists r, log, emu_scaled, a, s, m. rewrite Hoff, Hworst.
  split; [exact Hrun|]. split; [exact Hres|]. split; [exact Hengine|].
  set (emu_aligned := crop emu_scaled 0 best_y target_w (best_y + target_h))
    in Hengine.
  assert (Haw : im_width emu_aligned = im_width fig_img)
    by (unfold emu_aligned, crop; cbn [im_width]; fold target_w; lia).
  assert (Hah : im_height emu_aligned = im_height fig_img)
    by (unfold emu_aligned, crop; cbn [im_height]; fold target_h; lia).
  pose proof (diff_engine_runs pow_half fig_img emu_aligned grid_cols grid_rows
                Haw Hah Hfw Hfh cols_pos rows_pos) as Hexplicit.
  cbv zeta in Hexplicit. rewrite Hexplicit in Hengine.
  injection Hengine as _ <- _. cbn [worst_grid_cells grid_cells].
  set (cells := all_cells _ grid_cols grid_rows).
  destruct (worst_cells_spec cells) as [Hsorted [Hn Hincl]].
  assert (Hlen : Z.of_nat (List.length cells) = grid_cols * grid_rows)
    by (apply length_all_cells; lia).
  split; [exact Hlen|].
  split; [exact Hsorted|].
  split; [rewrite Hn; lia|].
  split; [rewrite Hn; lia|].
  intros c Hc. apply Hincl in Hc. split; [exact Hc|].
  apply in_all_cells in Hc. destruct Hc as [row [col [Hrow [Hcol ->]]]].
  cbn [cell_entry c_row c_col]. split; assumption.
Qed.

(** C2. Once both images are decoded, the run raises the dimension
    error exactly when the rescaled capture height
    round(capture.height * reference.width / capture.width) is below the
    reference height.  The message then holds the two heights as
    "scaled < reference", nothing has been saved and no report is
    returned; otherwise the run returns a report. *)
Theorem dimension_error_iff :
  0 < im_width fig_img -> 0 < im_height fig_img ->
  (fst run = Raise (RuntimeError (dimension_message scaled_h target_h))
   <-> scaled_h < target_h) /\
  (scaled_h < target_h ->
   run = (Raise (RuntimeError (dimension_message scaled_h target_h)), fetched) /\
   (forall path, ~ In (EvSaveImage path) fetched) /\
   contains (dimension_message scaled_h target_h)
            (str_of_int scaled_h ++ " < " ++ str_of_int target_h)%string) /\
  (target_h <= scaled_h ->
   exists r log, run = (Ok r, log) /\
                 r_scaledHeight r = scaled_h /\ r_height r = target_h /\
                 0 <= r_bestYOffset r <= scaled_h - target_h).
Proof.
  intros Hfw Hfh.
  assert (Hshort : scaled_h < target_h ->
            run = (Raise (RuntimeError (dimension_message scaled_h target_h)),
                   fetched)).
  { intros Hlt. rewrite run_after_fetch.
    replace (scaled_h <? target_h) with true by (symmetry; apply Z.ltb_lt; lia).
    reflexivity. }
  assert (Hfits : target_h <= scaled_h ->
            exists r log, run = (Ok r, log) /\
              r_scaledHeight r = scaled_h /\ r_height r = target_h /\
              0 <= r_bestYOffset r <= scaled_h - target_h).
  { intros Hge.
    destruct (run_fits Hfw Hfh Hge)
      as [emu_scaled [best_y [best_mae [a [s [m [r [log
            [_ [_ [Hb [_ [Hrun [H1 [H2 [H3 _]]]]]]]]]]]]]]]].
    exists r, log. rewrite H3. auto. }
  split; [|split].
  - split.
    + intros Hraise. destruct (Z.lt_ge_cases scaled_h target_h) as [Hlt | Hge];
        [exact Hlt|].
      destruct (Hfits Hge) as [r [log [Hrun _]]].
      rewrite Hrun in Hraise. discriminate.
    + intros Hlt. now rewrite (Hshort Hlt).
  - intros Hlt. split; [now apply Hshort|]. split.
    + intros path Hin. unfold fetched in Hin. simpl in Hin.
      repeat (destruct Hin as [Hin | Hin]; [discriminate|]). exact Hin.
    + apply dimension_message_contains.
  - exact Hfits.
Qed.

End WholeRun.

Lemma dimension_error_iff_witness :
  (fst (compare_screen_with_figma sqrt4 short_world "file_key" "21:1074"
          (Some "figd_test"%string) 1 true 6 10 "out" [])
   = Raise (RuntimeError (dimension_message 6 30)) <-> 6 < 30) /\
  (6 < 30 ->
   compare_screen_with_figma sqrt4 short_world "file_key" "21:1074"
     (Some "figd_test"%string) 1 true 6 10 "out" []
   = (Raise (RuntimeError (dimension_message 6 30)),
      [EvMkdir "out"; EvScreencap "out/20260309_140507_emulator_raw.png";
       EvFigmaApi "file_key" "21:1074" "figd_test" 1 true;
       EvDownload "https://example.com/mock.png"
                  "out/20260309_140507_figma_node.png";
       EvOpenImage "out/20260309_140507_figma_node.png";
       EvOpenImage "out/20260309_140507_emulator_raw.png"]) /\
   (forall path,
      ~ In (EvSaveImage path)
           [EvMkdir "out"; EvScreencap "out/20260309_140507_emulator_raw.png";
            EvFigmaApi "file_key" "21:1074" "figd_test" 1 true;
            EvDownload "https://example.com/mock.png"
                       "out/20260309_140507_figma_node.png";
            EvOpenImage "out/20260309_140507_figma_node.png";
            EvOpenImage "out/20260309_140507_emulator_raw.png"]) /\
   contains (dimension_message 6 30)
            (str_of_int 6 ++ " < " ++ str_of_int 30)%string) /\
  (30 <= 6 ->
   exists r log,
     compare_screen_with_figma sqrt4 short_world "file_key" "21:1074"
       (Some "figd_test"%string) 1 true 6 10 "out" [] = (Ok r, log) /\
     r_scaledHeight r = 6 /\ r_height r = 30 /\
     0 <= r_bestYOffset r <= 6 - 30).
Proof.
  exact (dimension_error_iff sqrt4 short_world "file_key" "21:1074" "out"
           (Some "figd_test"%string) 1 true 6 10 tall_fig short_emu
           "figd_test" "https://example.com/mock.png"
           ltac:(discriminate) ltac:(discriminate) ltac:(reflexivity)
           ltac:(lia) ltac:(lia) ltac:(reflexivity) ltac:(reflexivity)
           ltac:(reflexivity) ltac:(reflexivity) ltac:(reflexivity)
           ltac:(reflexivity) ltac:(reflexivity) ltac:(simpl; lia)
           ltac:(simpl; lia) ltac:(simpl; lia)).
Defined.

Lemma report_worst_cells_sorted_top12_witness :
  exists r log,
    compare_screen_with_figma sqrt4 flat_world "file_key" "21:1074"
      (Some "figd_test"%string) 3 true 6 10 "out" [] = (Ok r, log) /\
    StronglySorted (fun c d => (c_avgDiff d <= c_avgDiff c)%Q)
                   (r_worstGridCells r) /\
    Z.of_nat (List.length (r_worstGridCells r)) = 12 /\
    (forall c, In c (r_worstGridCells r) ->
       0 <= c_row c < 10 /\ 0 <= c_col c < 6).
Proof.
  destruct (report_worst_cells_sorted_top12 sqrt4 flat_world "file_key" "21:1074"
              "out" (Some "figd_test"%string) 3 true 6 10
              (solid 4 8 (40, 75, 140)) (solid 8 18 (35, 70, 135))
              "figd_test" "https://example.com/mock.png"
              ltac:(discriminate) ltac:(discriminate) ltac:(reflexivity)
              ltac:(lia) ltac:(lia) ltac:(reflexivity) ltac:(reflexivity)
              ltac:(reflexivity) ltac:(reflexivity) ltac:(reflexivity)
              ltac:(reflexivity) ltac:(reflexivity) ltac:(simpl; lia)
              ltac:(simpl; lia) ltac:(simpl; lia) ltac:(vm_compute; discriminate))
    as [r [log [emu_scaled [a [s [m [Hrun [_ [_ [_ [Hs [Hn [_ Hin]]]]]]]]]]]]].
  exists r, log. split; [exact Hrun|]. split; [exact Hs|]. split; [exact Hn|].
  intros c Hc. exact (proj2 (Hin c Hc)).
Defined.

Example sample_run_worst_cells :
  match compare_screen_with_figma sqrt4 sample_world "file_key" "21:1074"
          (Some "figd_test"%string) 1 true 2 2 "out" [] with
  | (Ok r, _) =>
      (r_bestYOffset r,
       map (fun c => (c_row c, c_col c, c_avgDiff c)) (r_worstGridCells r))
  | (Raise _, _) => (0, [])
  end = (2, [(1, 1, (47333 # 1000)%Q); (1, 0, (10500 # 1000)%Q);
             (0, 0, (3833 # 1000)%Q); (0, 1, (333 # 1000)%Q)]).
Proof. vm_compute. reflexivity. Qed.

(** ** Run identifiers *)

Lemma string_app_inv_head (a b c : string) :
  (a ++ b)%string = (a ++ c)%string -> b = c.
Proof.
  induction a as [|x a IH]; cbn [append]; intros H; [exact H|].
  injection H as H. auto.
Qed.

Lemma string_app_same_length (a b x y : string) :
  String.length a = String.length b ->
  (a ++ x)%string = (b ++ y)%string -> a = b.
Proof.
  revert b; induction a as [|c a IH]; intros [|d b] Hlen H;
    cbn [append String.length] in *; try discriminate; [reflexivity|].
  injection H as -> H. f_equal. apply IH; [lia | exact H].
Qed.

Lemma length_run_id (t : datetime) : String.length (strftime_run_id t) = 15%nat.
Proof. reflexivity. Qed.

Lemma digit_inj (a b : Z) : digit a = digit b -> a mod 10 = b mod 10.
Proof.
  unfold digit. intros H.
  apply (f_equal nat_of_ascii) in H.
  assert (Ha := Z.mod_pos_bound a 10 ltac:(lia)).
  assert (Hb := Z.mod_pos_bound b 10 ltac:(lia)).
  rewrite !nat_ascii_embedding in H by lia. lia.
Qed.

Lemma digits4 (y : Z) :
  y = 1000 * (y / 1000) + 100 * ((y / 100) mod 10) + 10 * ((y / 10) mod 10)
      + y mod 10.
Proof.
  replace (y / 1000) with (y / 10 / 10 / 10)
    by (rewrite !Z.div_div by lia; reflexivity).
  replace (y / 100) with (y / 10 / 10)
    by (rewrite !Z.div_div by lia; reflexivity).
  Z.div_mod_to_equations. lia.
Qed.

Lemma run_id_inj (t1 t2 : datetime) :
  valid_datetime t1 -> valid_datetime t2 ->
  strftime_run_id t1 = strftime_run_id t2 ->
  calendar_second t1 = calendar_second t2.
Proof.
  intros [Hy1 [Hm1 [Hd1 [Hh1 [Hn1 [Hs1 _]]]]]] [Hy2 [Hm2 [Hd2 [Hh2 [Hn2 [Hs2 _]]]]]].
  unfold strftime_run_id, pad4, pad2. cbn [append]. intros H.
  injection H as Y1 Y2 Y3 Y4 M1 M2 D1 D2 H1 H2 N1 N2 S1 S2.
  apply digit_inj in Y1, Y2, Y3, Y4, M1, M2, D1, D2, H1, H2, N1, N2, S1, S2.
  assert (Ey : dt_year t1 = dt_year t2).
  { pose proof (digits4 (dt_year t1)) as P1.
    pose proof (digits4 (dt_year t2)) as P2.
    assert (Q1 : (dt_year t1 / 1000) mod 10 = dt_year t1 / 1000)
      by (apply Z.mod_small; Z.div_mod_to_equations; lia).
    assert (Q2 : (dt_year t2 / 1000) mod 10 = dt_year t2 / 1000)
      by (apply Z.mod_small; Z.div_mod_to_equations; lia).
    lia. }
  assert (Em : dt_month t1 = dt_month t2) by (Z.div_mod_to_equations; lia).
  assert (Ed : dt_day t1 = dt_day t2) by (Z.div_mod_to_equations; lia).
  assert (Eh : dt_hour t1 = dt_hour t2) by (Z.div_mod_to_equations; lia).
  assert (En : dt_minute t1 = dt_minute t2) by (Z.div_mod_to_equations; lia).
  assert (Es : dt_second t1 = dt_second t2) by (Z.div_mod_to_equations; lia).
  unfold calendar_second. now rewrite Ey, Em, Ed, Eh, En, Es.
Qed.

Lemma in_artifact_paths (output_dir run_id p : string) :
  In p (artifact_paths output_dir run_id) ->
  exists suffix, p = (path_dir_prefix output_dir ++ (run_id ++ suffix))%string.
Proof.
  unfold artifact_paths, path_join. intros H. apply in_map_iff in H.
  destruct H as [suffix [<- _]]. eauto.
Qed.

(** Runs that start within one second name the same five files. *)
Example same_second_same_paths :
  calendar_second clock_a = calendar_second clock_b /\
  clock_a <> clock_b /\
  artifact_paths ".mcp_pixel_diff" (strftime_run_id clock_a)
  = artifact_paths ".mcp_pixel_diff" (strftime_run_id clock_b).
Proof. repeat split. discriminate. Qed.


(** ** What a run writes and returns *)

Ltac destruct_scrutinee :=
  match goal with
  | H : context [match ?x with _ => _ end] |- _ =>
      lazymatch x with
      | context [match _ with _ => _ end] => fail
      | _ => destruct x eqn:?
      end
  end.

Lemma run_returns_inv (pow_half : Q -> Q) (W : world)
    (file_key node_id : string) (figma_token : option string) (scale : Q)
    (use_absolute_bounds : bool) (grid_cols grid_rows : Z)
    (output_dir : string) (r : report) (log : list event) :
  compare_screen_with_figma pow_half W file_key node_id figma_token scale
    use_absolute_bounds grid_cols grid_rows output_dir [] = (Ok r, log) ->
  report_paths r = artifact_paths output_dir (strftime_run_id (now W)) /\
  files_written log = report_paths r.
Proof.
  unfold compare_screen_with_figma, io_bind, io_call, io_lift, io_ret, io_raise,
    image_size.
  intros H.
  repeat (destruct_scrutinee; try discriminate).
  injection H as <- <-.
  repeat match goal with
         | H : (_, _) = (_, _) |- _ => injection H as ? ?; subst
         end.
  split; reflexivity.
Qed.

(** Whether it returns or raises, a run writes only its own five
    files. *)
Lemma run_writes_own_files (pow_half : Q -> Q) (W : world)
    (file_key node_id : string) (figma_token : option string) (scale : Q)
    (use_absolute_bounds : bool) (grid_cols grid_rows : Z)
    (output_dir : string) (p : string) :
  In p (files_written
          (snd (compare_screen_with_figma pow_half W file_key node_id
                  figma_token scale use_absolute_bounds grid_cols grid_rows
                  output_dir []))) ->
  In p (artifact_paths output_dir (strftime_run_id (now W))).
Proof.
  unfold compare_screen_with_figma, io_bind, io_call, io_lift, io_ret, io_raise,
    image_size.
  repeat match goal with
         | |- context [match ?x with _ => _ end] =>
             lazymatch x with
             | context [match _ with _ => _ end] => fail
             | _ => destruct x eqn:?
             end
         end;
    repeat match goal with
           | H : (_, _) = (_, _) |- _ => injection H as ? ?; subst
           end;
    unfold artifact_paths, artifact_suffixes;
    cbn [snd files_written flat_map written_by app map In];
    intros H; repeat (destruct H as [H | H]; [subst; auto 10|]);
    try contradiction.
Qed.

Example path_join_posix :
  path_join ".mcp_pixel_diff" "f.png" = ".mcp_pixel_diff/f.png"%string /\
  path_join "" "f.png" = "f.png"%string /\
  path_join "." "f.png" = "f.png"%string /\
  path_join "./out//shots/" "f.png" = "out/shots/f.png"%string /\
  path_join "out/./../shots/." "f.png" = "out/../shots/f.png"%string /\
  path_join "/" "f.png" = "/f.png"%string /\
  path_join "//srv/out" "f.png" = "//srv/out/f.png"%string /\
  path_join "///srv//out/" "f.png" = "/srv/out/f.png"%string.
Proof. repeat split. Qed.

(** Artifact paths of run identifiers of different calendar seconds. *)
Lemma artifact_paths_apart (output_dir : string) (t1 t2 : datetime) (p : string) :
  valid_datetime t1 -> valid_datetime t2 ->
  calendar_second t1 <> calendar_second t2 ->
  In p (artifact_paths output_dir (strftime_run_id t1)) ->
  ~ In p (artifact_paths output_dir (strftime_run_id t2)).
Proof.
  intros Hv1 Hv2 Hne H1 H2.
  apply in_artifact_paths in H1, H2.
  destruct H1 as [s1 ->], H2 as [s2 H2].
  apply string_app_inv_head in H2.
  apply string_app_same_length in H2; [|now rewrite !length_run_id].
  apply Hne. now apply run_id_inj.
Qed.

Lemma same_second_same_id (t1 t2 : datetime) :
  calendar_second t1 = calendar_second t2 ->
  strftime_run_id t1 = strftime_run_id t2.
Proof.
  intros Heq. unfold calendar_second in Heq.
  injection Heq as Hy Hm Hd Hh Hn Hs.
  unfold strftime_run_id. now rewrite Hy, Hm, Hd, Hh, Hn, Hs.
Qed.



(* ================================================================== *)
(** * Part III: further properties of the code                         *)
(* ================================================================== *)

(** ** [str.strip] *)

Lemma lstrip_head (s : string) :
  lstrip s = EmptyString \/
  exists c t, lstrip s = String c t /\ is_space c = false.
Proof.
  induction s as [|c s IH]; simpl; [now left|].
  destruct (is_space c) eqn:E; [exact IH|]. right. eauto.
Qed.

Lemma rstrip_head (c : ascii) (s : string) :
  is_space c = false -> exists t, rstrip (String c s) = String c t.
Proof.
  intros Hc. cbn [rstrip]. destruct (rstrip s); [rewrite Hc|]; eauto.
Qed.

Lemma rstrip_idempotent (s : string) : rstrip (rstrip s) = rstrip s.
Proof.
  induction s as [|c s IH]; [reflexivity|]. cbn [rstrip].
  destruct (rstrip s) as [|d t] eqn:E.
  - destruct (is_space c) eqn:Ec; [reflexivity|]. cbn [rstrip]. now rewrite Ec.
  - change (rstrip (String c (String d t))) with
      (match rstrip (String d t) with
       | EmptyString => if is_space c then EmptyString else String c EmptyString
       | u => String c u
       end).
    now rewrite IH.
Qed.

Lemma strip_head (s : string) :
  strip s = EmptyString \/
  exists c t, strip s = String c t /\ is_space c = false.
Proof.
  unfold strip. destruct (lstrip_head s) as [-> | [c [t [-> Hc]]]]; [now left|].
  right. destruct (rstrip_head c t Hc) as [u ->]. eauto.
Qed.

Lemma strip_idempotent (s : string) : strip (strip s) = strip s.
Proof.
  destruct (strip_head s) as [E | [c [t [E Hc]]]].
  - rewrite E. reflexivity.
  - unfold strip at 1. rewrite E. cbn [lstrip]. rewrite Hc.
    rewrite <- E. unfold strip. apply rstrip_idempotent.
Qed.

(** The last character of a string, if any. *)
Lemma rstrip_last (s : string) :
  rstrip s = EmptyString \/
  exists t c, rstrip s = (t ++ String c EmptyString)%string /\ is_space c = false.
Proof.
  induction s as [|c s IH]; [now left|]. cbn [rstrip].
  destruct IH as [E | [t [d [E Hd]]]].
  - rewrite E. destruct (is_space c) eqn:Ec; [now left|].
    right. exists EmptyString, c. auto.
  - rewrite E. right.
    destruct (t ++ String d EmptyString)%string as [|x u] eqn:Et.
    + destruct t; discriminate.
    + exists (String c t), d. rewrite <- Et. auto.
Qed.


Example blank_token_shadows_env :
  _resolve_figma_token (mkWorld (Some "figd_env"%string) clock_a (Ok tt) (Ok tt)
                                (Ok ""%string) (Ok tt) (Ok sample_fig)
                                (Ok sample_emu) (fun _ _ _ _ _ => (0, 0, 0)))
                       (Some "  "%string)
  = Raise (RuntimeError token_required).
Proof. reflexivity. Qed.


(** ** Failures of the outside *)

Section ExternalFailure.
Variable pow_half : Q -> Q.
Variable W : world.
Variables file_key node_id output_dir : string.
Variable figma_token : option string.
Variable scale : Q.
Variable use_absolute_bounds : bool.
Variables grid_cols grid_rows : Z.
Variable token : string.

Hypothesis file_key_given : strip file_key <> EmptyString.
Hypothesis node_id_given : strip node_id <> EmptyString.
Hypothesis scale_pos : (0 < scale)%Q.
Hypothesis cols_pos : 0 < grid_cols.
Hypothesis rows_pos : 0 < grid_rows.
Hypothesis token_given : _resolve_figma_token W figma_token = Ok token.

Let run_id := strftime_run_id (now W).
Let raw_path := path_join output_dir (run_id ++ "_emulator_raw.png")%string.
Let node_path := path_join output_dir (run_id ++ "_figma_node.png")%string.
Let run :=
  compare_screen_with_figma pow_half W file_key node_id figma_token scale
    use_absolute_bounds grid_cols grid_rows output_dir [].

Ltac pass_validation :=
  unfold run, compare_screen_with_figma;
  replace (truthy (strip file_key)) with true
    by (destruct (truthy (strip file_key)) eqn:E; [reflexivity|];
        apply truthy_false in E; contradiction);
  replace (truthy (strip node_id)) with true
    by (destruct (truthy (strip node_id)) eqn:E; [reflexivity|];
        apply truthy_false in E; contradiction);
  replace (Qle_bool scale 0) with false
    by (destruct (Qle_bool scale 0) eqn:E; [|reflexivity];
        apply Qle_bool_iff in E; exfalso; exact (Qle_not_lt _ _ E scale_pos));
  replace (grid_cols <=? 0) with false by (symmetry; apply Z.leb_gt; lia);
  replace (grid_rows <=? 0) with false by (symmetry; apply Z.leb_gt; lia);
  cbn [negb orb];
  unfold io_bind at 1, io_lift at 1; rewrite token_given.

(** X2. With valid arguments and a token, a failure of the outside ends
    the run with that very exception and nothing further is attempted:
    when the output directory cannot be made the device is not touched;
    when the screenshot fails no request goes to Figma; when the Figma
    request fails nothing is downloaded; when the download fails no
    image is opened or saved. *)
Theorem external_failure_stops_run (e : exn) :
  (mkdir_result W = Raise e -> run = (Raise e, [EvMkdir output_dir])) /\
  (mkdir_result W = Ok tt -> capture_result W = Raise e ->
   run = (Raise e, [EvMkdir output_dir; EvScreencap raw_path])) /\
  (mkdir_result W = Ok tt -> capture_result W = Ok tt ->
   figma_api_result W = Raise e ->
   run = (Raise e,
          [EvMkdir output_dir; EvScreencap raw_path;
           EvFigmaApi file_key node_id token scale use_absolute_bounds])) /\
  (forall url,
     mkdir_result W = Ok tt -> capture_result W = Ok tt ->
     figma_api_result W = Ok url -> download_result W = Raise e ->
     run = (Raise e,
            [EvMkdir output_dir; EvScreencap raw_path;
             EvFigmaApi file_key node_id token scale use_absolute_bounds;
             EvDownload url node_path])).
Proof.
  split; [|split; [|split]].
  - intros H. pass_validation.
    unfold io_bind at 1, io_call at 1. rewrite H. reflexivity.
  - intros H1 H2. pass_validation.
    unfold io_bind at 1, io_call at 1. rewrite H1.
    unfold io_bind at 1, io_call at 1. rewrite H2. reflexivity.
  - intros H1 H2 H3. pass_validation.
    unfold io_bind at 1, io_call at 1. rewrite H1.
    unfold io_bind at 1, io_call at 1. rewrite H2.
    unfold io_bind at 1, io_call at 1. rewrite H3. reflexivity.
  - intros url H1 H2 H3 H4. pass_validation.
    unfold io_bind at 1, io_call at 1. rewrite H1.
    unfold io_bind at 1, io_call at 1. rewrite H2.
    unfold io_bind at 1, io_call at 1. rewrite H3.
    unfold io_bind at 1, io_call at 1. rewrite H4. reflexivity.
Qed.

End ExternalFailure.

Lemma external_failure_stops_run_witness :
  compare_screen_with_figma sqrt4 offline_world "abc" "21:1074" None 1 true 6 10
    "out" []
  = (Raise (ExternalError "device offline"),
     [EvMkdir "out"; EvScreencap "out/20260309_140507_emulator_raw.png"]).
Proof.
  apply (proj1 (proj2 (external_failure_stops_run sqrt4 offline_world
                         "abc" "21:1074" "out" None 1 true 6 10 "figd_env"
                         ltac:(discriminate) ltac:(discriminate)
                         ltac:(reflexivity) ltac:(lia) ltac:(lia)
                         ltac:(reflexivity)
                         (ExternalError "device offline"))));
    reflexivity.
Defined.

(** ** The files of one run *)

Lemma string_app_inv_tail_length (a b x y : string) :
  (a ++ x)%string = (b ++ y)%string -> String.length a = String.length b ->
  x = y.
Proof.
  revert b; induction a as [|c a IH]; intros [|d b] H Hlen;
    cbn [append String.length] in *; try discriminate; [exact H|].
  injection H as _ H. apply (IH b H). lia.
Qed.

(** The five artifact paths of a run identifier are pairwise distinct. *)
Lemma artifact_paths_nodup (output_dir run_id : string) :
  NoDup (artifact_paths output_dir run_id) /\
  List.length (artifact_paths output_dir run_id) = 5%nat.
Proof.
  split; [|reflexivity].
  unfold artifact_paths.
  assert (Hinj : forall s1 s2,
            path_join output_dir (run_id ++ s1) = path_join output_dir (run_id ++ s2) ->
            s1 = s2).
  { intros s1 s2 H. unfold path_join in H.
    apply string_app_inv_head in H. now apply string_app_inv_head in H. }
  assert (Hnd : NoDup artifact_suffixes).
  { unfold artifact_suffixes.
    repeat (constructor; [simpl; intros H;
                          repeat (destruct H as [H | H]; [discriminate|]);
                          exact H|]).
    constructor. }
  revert Hnd. generalize artifact_suffixes as l.
  induction l as [|s l IH]; intros Hnd; simpl; [constructor|].
  inversion Hnd as [|? ? Hnotin Hnd']; subst. constructor; [|now apply IH].
  intros Hin. apply in_map_iff in Hin. destruct Hin as [s' [Heq Hin]].
  apply Hinj in Heq. subst. contradiction.
Qed.



(** ** The search finds an exact match *)

Lemma abs_delta_nonneg (p q : rgb) : 0 <= abs_delta p q.
Proof. destruct p as [[r1 g1] b1], q as [[r2 g2] b2]. unfold abs_delta. lia. Qed.

Lemma abs_delta_zero (p q : rgb) : abs_delta p q = 0 -> q = p.
Proof.
  destruct p as [[r1 g1] b1], q as [[r2 g2] b2]. unfold abs_delta.
  intros H. repeat f_equal; lia.
Qed.

Lemma sumZ_zero_all (l : list Z) :
  Forall (fun v => 0 <= v) l -> sumZ l = 0 -> Forall (fun v => v = 0) l.
Proof.
  unfold sumZ. induction 1 as [|v l Hv Hl IH]; simpl; intros H; [constructor|].
  assert (H0 : 0 <= fold_right Z.add 0 l).
  { clear -Hl. induction Hl; simpl; lia. }
  constructor; [lia | apply IH; lia].
Qed.

Lemma coarse_total_nonneg (fig_img emu_scaled : image) (o : Z) :
  0 <= coarse_total fig_img emu_scaled o.
Proof.
  unfold coarse_total, sumZ.
  induction (visited fig_img) as [|[y x] l IH]; simpl; [lia|].
  pose proof (abs_delta_nonneg (pixel_at fig_img x y)
                               (pixel_at emu_scaled x (y + o))). lia.
Qed.

Lemma coarse_total_zero_iff (fig_img emu_scaled : image) (o : Z) :
  coarse_total fig_img emu_scaled o = 0 <->
  forall y x, In (y, x) (visited fig_img) ->
              pixel_at emu_scaled x (y + o) = pixel_at fig_img x y.
Proof.
  unfold coarse_total. split.
  - intros H y x Hin.
    apply sumZ_zero_all in H.
    + rewrite Forall_forall in H. apply abs_delta_zero. apply H.
      apply in_map_iff. exists (y, x). auto.
    + apply Forall_forall. intros v Hv. apply in_map_iff in Hv.
      destruct Hv as [[y' x'] [<- _]]. apply abs_delta_nonneg.
  - intros H. unfold sumZ.
    induction (visited fig_img) as [|[y x] l IH]; simpl; [reflexivity|].
    rewrite (H y x) by (now left). rewrite abs_delta_same.
    rewrite IH; [reflexivity|]. intros y' x' Hin. apply H. now right.
Qed.

Lemma coarse_score_zero_iff (fig_img emu_scaled : image) (o : Z) :
  0 < im_width fig_img -> 0 < im_height fig_img ->
  ((coarse_score fig_img emu_scaled o == 0)%Q <->
   coarse_total fig_img emu_scaled o = 0).
Proof.
  intros Hw Hh. pose proof (coarse_samples_pos fig_img Hw Hh) as Hs.
  unfold coarse_score.
  replace (coarse_samples fig_img =? 0) with false
    by (symmetry; apply Z.eqb_neq; lia).
  unfold Qdiv, Qeq, Qmult, Qinv, inject_Z.
  destruct (coarse_samples fig_img) as [|s|s] eqn:E; try lia.
  cbn. split; intros H; nia.
Qed.

Lemma coarse_score_nonneg (fig_img emu_scaled : image) (o : Z) :
  (0 <= coarse_score fig_img emu_scaled o)%Q.
Proof.
  unfold coarse_score. destruct (coarse_samples fig_img =? 0) eqn:E; [discriminate|].
  apply Z.eqb_neq in E.
  assert (Hs : 0 < coarse_samples fig_img) by (unfold coarse_samples in *; lia).
  apply Qle_shift_div_l.
  - change 0%Q with (inject_Z 0). now rewrite <- Zlt_Qlt.
  - rewrite Qmult_0_l. change 0%Q with (inject_Z 0). rewrite <- Zle_Qle.
    apply coarse_total_nonneg.
Qed.

(** X4. When the scaled capture shows the reference exactly at some
    offset of the range (on the pixels the coarse score samples), the
    search returns a score of 0 at an offset not beyond that one, and
    the window at the offset it returns shows the reference exactly as
    well. *)
Theorem search_finds_exact_match (fig_img emu_scaled : image) (o : Z) :
  im_width fig_img <= im_width emu_scaled ->
  0 < im_width fig_img -> 0 < im_height fig_img ->
  0 <= o <= im_height emu_scaled - im_height fig_img ->
  (forall y x, In (y, x) (visited fig_img) ->
               pixel_at emu_scaled x (y + o) = pixel_at fig_img x y) ->
  exists best_y best_mae,
    offset_search fig_img emu_scaled (im_height emu_scaled) (im_height fig_img)
    = Ok (best_y, Fin best_mae) /\
    (best_mae == 0)%Q /\ 0 <= best_y <= o /\
    forall y x, In (y, x) (visited fig_img) ->
                pixel_at emu_scaled x (y + best_y) = pixel_at fig_img x y.
Proof.
  intros Hw Hw0 Hh0 Ho Hmatch.
  set (m := im_height emu_scaled - im_height fig_img) in *.
  assert (Hscore : forall o', 0 <= o' <= m ->
            _coarse_mae fig_img emu_scaled o' 2
            = Ok (coarse_score fig_img emu_scaled o')).
  { intros o' Ho'. apply coarse_mae_refines; [exact Hw | unfold m in Ho'; lia]. }
  destruct (search_prefix fig_img emu_scaled (coarse_score fig_img emu_scaled)
              m Hscore (Z.to_nat m)) as [b [Hrun [Hb [Hmin Hfirst]]]]; [lia|].
  assert (Hzero : (coarse_score fig_img emu_scaled o == 0)%Q).
  { apply coarse_score_zero_iff; try assumption.
    now apply coarse_total_zero_iff. }
  assert (Hbzero : (coarse_score fig_img emu_scaled b == 0)%Q).
  { apply Qle_antisym; [|apply coarse_score_nonneg].
    rewrite <- Hzero. apply Hmin. lia. }
  exists b, (coarse_score fig_img emu_scaled b).
  unfold offset_search. fold m.
  replace (m + 1) with (Z.of_nat (S (Z.to_nat m))) by lia.
  split; [exact Hrun|]. split; [exact Hbzero|]. split.
  - split; [lia|]. destruct (Z.le_gt_cases b o) as [Hle | Hgt]; [exact Hle|].
    exfalso. assert (Hlt := Hfirst o ltac:(lia)).
    rewrite Hzero, Hbzero in Hlt. discriminate.
  - apply coarse_total_zero_iff. now apply coarse_score_zero_iff.
Qed.

Example exact_match_found :
  offset_search sample_fig
    (mkImage 3 4 [(9, 9, 9); (9, 9, 9); (9, 9, 9);
                  (10, 20, 30); (8, 8, 8); (40, 50, 60);
                  (1, 1, 1); (2, 2, 2); (3, 3, 3);
                  (10, 20, 30); (0, 0, 0); (40, 50, 60)]) 4 2
  = Ok (1, Fin (0 # 6)%Q).
Proof. vm_compute. reflexivity. Qed.

Lemma search_finds_exact_match_witness :
  exists best_y best_mae,
    offset_search sample_fig sample_fig (im_height sample_fig) (im_height sample_fig)
    = Ok (best_y, Fin best_mae) /\
    (best_mae == 0)%Q /\ 0 <= best_y <= 0 /\
    forall y x, In (y, x) (visited sample_fig) ->
                pixel_at sample_fig x (y + best_y) = pixel_at sample_fig x y.
Proof.
  apply (search_finds_exact_match sample_fig sample_fig 0); try (simpl; lia).
  intros y x _. now rewrite Z.add_0_r.
Defined.

(** ** The aligned capture is a window of the scaled capture *)

Lemma nth_flat_map_rows {A B : Type} (g : B -> list A) (n : nat) (ys : list B)
    (k x : nat) (d : A) (dy : B) :
  (forall y, List.length (g y) = n) -> (x < n)%nat -> (k < List.length ys)%nat ->
  nth (k * n + x) (flat_map g ys) d = nth x (g (nth k ys dy)) d.
Proof.
  intros Hlen Hx. revert k; induction ys as [|y ys IH]; intros k Hk; simpl in *;
    [lia|].
  destruct k as [|k]; simpl.
  - apply app_nth1. rewrite Hlen. exact Hx.
  - rewrite app_nth2 by (rewrite Hlen; lia). rewrite Hlen.
    replace (n + k * n + x - n)%nat with (k * n + x)%nat by lia.
    apply IH. lia.
Qed.

Lemma nth_range (n : Z) (k : nat) (d : Z) :
  (k < Z.to_nat n)%nat -> nth k (range n) d = Z.of_nat k.
Proof.
  intros Hk. unfold range.
  rewrite (nth_indep _ d (Z.of_nat 0)) by (now rewrite length_map, length_seq).
  rewrite map_nth, seq_nth by exact Hk. reflexivity.
Qed.

Lemma nth_rows {A : Type} (f : Z -> Z -> A) (w h x y : Z) (d : A) :
  0 <= x < w -> 0 <= y < h ->
  nth (Z.to_nat (y * w + x))
      (flat_map (fun y => map (fun x => f x y) (range w)) (range h)) d
  = f x y.
Proof.
  intros Hx Hy.
  replace (Z.to_nat (y * w + x)) with (Z.to_nat y * Z.to_nat w + Z.to_nat x)%nat
    by nia.
  rewrite (nth_flat_map_rows _ (Z.to_nat w) (range h) _ _ d 0).
  - rewrite nth_range by lia.
    rewrite (nth_indep _ d (f 0 (Z.of_nat (Z.to_nat y))))
      by (rewrite length_map, length_range; lia).
    rewrite (map_nth (fun x => f x (Z.of_nat (Z.to_nat y))) (range w) 0).
    rewrite nth_range by lia. f_equal; lia.
  - intros y'. now rewrite length_map, length_range.
  - lia.
  - rewrite length_range. lia.
Qed.

(** The window cropped from the scaled capture at an offset: it has the
    width and height asked for, its buffer holds one pixel per position,
    its pixel (x, y) is the pixel (x, y + best_y) of the scaled capture,
    and it holds bytes when the scaled capture does. *)
Lemma crop_is_window (emu_scaled : image) (best_y w h : Z) :
  im_width emu_scaled = w -> 0 <= w -> 0 <= h ->
  0 <= best_y -> best_y + h <= im_height emu_scaled ->
  let emu_aligned := crop emu_scaled 0 best_y w (best_y + h) in
  wf_image emu_aligned /\
  image_size emu_aligned = (w, h) /\
  (forall x y, 0 <= x < w -> 0 <= y < h ->
     getpixel emu_aligned x y = Ok (pixel_at emu_scaled x (y + best_y)) /\
     getpixel emu_scaled x (y + best_y) = Ok (pixel_at emu_scaled x (y + best_y))) /\
  (byte_image emu_scaled -> byte_image emu_aligned).
Proof.
  intros Hw Hw0 Hh0 Hb Hfit emu_aligned.
  assert (Haw : im_width emu_aligned = w)
    by (unfold emu_aligned, crop; cbn [im_width]; lia).
  assert (Hah : im_height emu_aligned = h)
    by (unfold emu_aligned, crop; cbn [im_height]; lia).
  split; [apply crop_wf; lia|].
  split; [unfold image_size; now rewrite Haw, Hah|].
  split.
  - intros x y Hx Hy. split; [|apply getpixel_inside; lia].
    rewrite getpixel_inside by lia.
    unfold pixel_at at 1. rewrite Haw.
    unfold emu_aligned, crop. cbn [im_data].
    replace (w - 0) with w by lia. replace (best_y + h - best_y) with h by lia.
    rewrite (nth_rows (fun x y => if in_image emu_scaled (x + 0) (y + best_y)
                                  then pixel_at emu_scaled (x + 0) (y + best_y)
                                  else (0, 0, 0))) by lia.
    replace (in_image emu_scaled (x + 0) (y + best_y)) with true.
    + now rewrite Z.add_0_r.
    + symmetry. unfold in_image.
      repeat (apply andb_true_intro; split);
        first [apply Z.leb_le | apply Z.ltb_lt]; lia.
  - intros Hbyte. unfold byte_image, emu_aligned, crop. cbn [im_data].
    apply Forall_forall. intros p Hp. apply in_flat_map in Hp.
    destruct Hp as [y [_ Hp]]. apply in_map_iff in Hp. destruct Hp as [x [<- _]].
    destruct (in_image emu_scaled (x + 0) (y + best_y)).
    + now apply pixel_at_byte.
    + simpl. lia.
Qed.

Example sample_crop_is_window :
  wf_image (crop sample_emu 0 2 3 (2 + 2)) /\
  image_size (crop sample_emu 0 2 3 (2 + 2)) = (3, 2) /\
  (forall x y, 0 <= x < 3 -> 0 <= y < 2 ->
     getpixel (crop sample_emu 0 2 3 (2 + 2)) x y = Ok (pixel_at sample_emu x (y + 2)) /\
     getpixel sample_emu x (y + 2) = Ok (pixel_at sample_emu x (y + 2))) /\
  (byte_image sample_emu -> byte_image (crop sample_emu 0 2 3 (2 + 2))).
Proof.
  apply (crop_is_window sample_emu 2 3 2); simpl; lia.
Qed.

(** ** Thresholds, rounding and counting *)

Lemma py_round_heat (d : Z) : py_round (inject_Z d / 3 * 4) = (4 * d + 1) / 3.
Proof.
  unfold py_round.
  cbv [Qfloor Qcompare Qminus Qplus Qopp Qmult Qdiv Qinv inject_Z Qnum Qden].
  change (Z.pos (1 * 3 * 1)) with 3. change (Z.pos (1 * 3 * 1 * 1)) with 3.
  rewrite !Z.mul_1_r, Z.mul_1_l.
  destruct (Z.compare_spec ((d * 4 + - (d * 4 / 3) * 3) * 2) 3) as [E|E|E].
  - exfalso. lia.
  - Z.div_mod_to_equations. lia.
  - Z.div_mod_to_equations. lia.
Qed.

Lemma Qltb_third (k d : Z) : Qltb (inject_Z k) (inject_Z d / 3) = (3 * k <? d).
Proof.
  unfold Qltb.
  cbv [Qcompare Qmult Qdiv Qinv inject_Z Qnum Qden].
  change (Z.pos (1 * 3)) with 3. rewrite !Z.mul_1_r.
  destruct (Z.compare_spec (k * 3) d); destruct (Z.ltb_spec (3 * k) d);
    try reflexivity; lia.
Qed.

Lemma count_nonneg {A : Type} (f : A -> bool) (l : list A) : 0 <= count f l.
Proof. unfold count. lia. Qed.

Lemma count_le_length {A : Type} (f : A -> bool) (l : list A) :
  count f l <= Z.of_nat (List.length l).
Proof. unfold count. pose proof (filter_length_le f l). lia. Qed.

Lemma count_le {A : Type} (f g : A -> bool) (l : list A) :
  (forall x, f x = true -> g x = true) -> count f l <= count g l.
Proof.
  intros H. unfold count. induction l as [|x l IH]; simpl; [lia|].
  destruct (f x) eqn:E.
  - rewrite (H x E). simpl. lia.
  - destruct (g x); simpl; lia.
Qed.

Lemma sumZ_map_bounds {A : Type} (f : A -> Z) (lo hi : Z) (l : list A) :
  (forall x, lo <= f x <= hi) ->
  lo * Z.of_nat (List.length l) <= sumZ (map f l) <= hi * Z.of_nat (List.length l).
Proof.
  intros H. induction l as [|x l IH]; [simpl; lia|].
  cbn [map sumZ fold_right List.length]. fold (sumZ (map f l)).
  specialize (H x). lia.
Qed.

Section PassCounters.
Variables fig_img emu_aligned : image.
Variables grid_cols grid_rows : Z.

Let w := im_width fig_img.
Let h := im_height fig_img.
Let step := pixel_step fig_img emu_aligned w h grid_cols grid_rows.
Let delta := delta_at fig_img emu_aligned.

(** After the pixels [ps], the running sum holds their differences and
    each counter the number of them above its threshold. *)
Let counters_inv (ps : list (Z * Z)) (a : diff_acc) : Prop :=
  sum_abs a = inject_Z (sumZ (map delta ps)) /\
  diff_gt_10 a = count (fun p => 30 <? delta p) ps /\
  diff_gt_25 a = count (fun p => 75 <? delta p) ps /\
  diff_gt_50 a = count (fun p => 150 <? delta p) ps.

Lemma counters_inv_step (ps : list (Z * Z)) (p : Z * Z) (a : diff_acc) :
  True -> counters_inv ps a -> counters_inv (ps ++ [p]) (step a p).
Proof.
  intros _ [Hs [H10 [H25 H50]]]. destruct p as [x y].
  unfold counters_inv, step, pixel_step, d_avg_at.
  cbn [sum_abs diff_gt_10 diff_gt_25 diff_gt_50].
  rewrite map_app, sumZ_app, !count_snoc. cbn [map sumZ fold_right].
  change 10%Q with (inject_Z 10). change 25%Q with (inject_Z 25).
  change 50%Q with (inject_Z 50). rewrite !Qltb_third.
  unfold delta at 2 4 6 8, delta_at. cbn [fst snd].
  change (3 * 10) with 30. change (3 * 25) with 75. change (3 * 50) with 150.
  rewrite Hs, inject_Z_add, H10, H25, H50, Z.add_0_r.
  repeat split;
    destruct (_ <? abs_delta (pixel_at fig_img x y) (pixel_at emu_aligned x y));
    lia.
Qed.

Lemma counters_inv_fold (ps : list (Z * Z)) :
  counters_inv ps (fold_left step ps (diff_init w h grid_cols grid_rows)).
Proof.
  apply (fold_left_prefix step counters_inv (fun _ => True) counters_inv_step ps
           (proj2 (Forall_forall _ _) (fun _ _ => I)) []).
  unfold counters_inv, diff_init. cbn. auto.
Qed.

End PassCounters.

Lemma py_round_floor (q : Q) : Qfloor q <= py_round q <= Qfloor q + 1.
Proof.
  unfold py_round. destruct (q - inject_Z (Qfloor q) ?= 1 # 2)%Q; [|lia|lia].
  destruct (Z.even (Qfloor q)); lia.
Qed.

Lemma py_round_mono (q q' : Q) : (q <= q')%Q -> py_round q <= py_round q'.
Proof.
  intros H. pose proof (Qfloor_resp_le _ _ H) as Hf.
  destruct (Z.eq_dec (Qfloor q) (Qfloor q')) as [E|E].
  - unfold py_round. rewrite <- E.
    destruct (Qcompare_spec (q - inject_Z (Qfloor q)) (1 # 2)) as [H1|H1|H1];
      destruct (Qcompare_spec (q' - inject_Z (Qfloor q)) (1 # 2)) as [H2|H2|H2];
      try lia; try (destruct (Z.even (Qfloor q)); lia); exfalso; lra.
  - pose proof (py_round_floor q). pose proof (py_round_floor q'). lia.
Qed.

Lemma round4_mono (q q' : Q) : (q <= q')%Q -> (round4 q <= round4 q')%Q.
Proof.
  intros H. unfold round4.
  apply Qmult_le_compat_r; [|discriminate].
  rewrite <- Zle_Qle. apply py_round_mono. lra.
Qed.

Lemma round3_mono (q q' : Q) : (q <= q')%Q -> (round3 q <= round3 q')%Q.
Proof.
  intros H. unfold round3.
  apply Qmult_le_compat_r; [|discriminate].
  rewrite <- Zle_Qle. apply py_round_mono. lra.
Qed.

Lemma round3_int (k : Z) : (round3 (inject_Z k) == inject_Z k)%Q.
Proof.
  unfold round3.
  rewrite (py_round_comp (inject_Z k * 1000) (inject_Z (k * 1000))).
  - rewrite py_round_Z, inject_Z_mult. change (inject_Z 1000) with 1000%Q.
    field.
  - rewrite inject_Z_mult. reflexivity.
Qed.

Lemma round4_between (q : Q) (lo hi : Z) :
  (inject_Z lo <= q <= inject_Z hi)%Q ->
  (inject_Z lo <= round4 q <= inject_Z hi)%Q.
Proof.
  intros [H1 H2]. split.
  - rewrite <- (round4_int lo). now apply round4_mono.
  - rewrite <- (round4_int hi). now apply round4_mono.
Qed.

Lemma round3_between (q : Q) (lo hi : Z) :
  (inject_Z lo <= q <= inject_Z hi)%Q ->
  (inject_Z lo <= round3 q <= inject_Z hi)%Q.
Proof.
  intros [H1 H2]. split.
  - rewrite <- (round3_int lo). now apply round3_mono.
  - rewrite <- (round3_int hi). now apply round3_mono.
Qed.

Lemma similarity_between (q : Q) : (0 <= q)%Q -> (0 <= similarity q <= 100)%Q.
Proof.
  intros H. unfold similarity, max0.
  assert (E : (q / 255 * 100 == q * (100 # 255))%Q) by field.
  destruct (Qltb 0 (100 - q / 255 * 100)) eqn:El.
  - apply Qltb_lt in El. rewrite E in *. split; lra.
  - split; [apply Qle_refl | discriminate].
Qed.

(** A quotient of integers between two integer bounds. *)
Lemma Qdiv_between (s n lo hi : Z) :
  0 < n -> lo * n <= s <= hi * n ->
  (inject_Z lo <= inject_Z s / inject_Z n <= inject_Z hi)%Q.
Proof.
  intros Hn [H1 H2].
  assert (Hq : (0 < inject_Z n)%Q)
    by (change 0%Q with (inject_Z 0); now rewrite <- Zlt_Qlt).
  split.
  - apply Qle_shift_div_l; [exact Hq|].
    rewrite <- inject_Z_mult, <- Zle_Qle. exact H1.
  - apply Qle_shift_div_r; [exact Hq|].
    rewrite <- inject_Z_mult, <- Zle_Qle. exact H2.
Qed.

Lemma Qdiv_le_num (s s' n : Z) :
  0 < n -> s <= s' -> (inject_Z s / inject_Z n <= inject_Z s' / inject_Z n)%Q.
Proof.
  intros Hn H.
  apply Qmult_le_compat_r.
  - now rewrite <- Zle_Qle.
  - apply Qinv_le_0_compat. change 0%Q with (inject_Z 0).
    rewrite <- Zle_Qle. lia.
Qed.

(** ** Counters and metrics of the pass *)

Lemma counters_ordered (fig_img emu_aligned : image) (grid_cols grid_rows : Z)
    (ps : list (Z * Z)) :
  let a := fold_left (pixel_step fig_img emu_aligned (im_width fig_img)
                                 (im_height fig_img) grid_cols grid_rows)
                     ps (diff_init (im_width fig_img) (im_height fig_img)
                                   grid_cols grid_rows) in
  0 <= diff_gt_50 a <= diff_gt_25 a /\
  diff_gt_25 a <= diff_gt_10 a <= Z.of_nat (List.length ps).
Proof.
  intros a.
  destruct (counters_inv_fold fig_img emu_aligned grid_cols grid_rows ps)
    as [_ [H10 [H25 H50]]].
  fold a in H10, H25, H50. rewrite H10, H25, H50.
  repeat split.
  - apply count_nonneg.
  - apply count_le. intros p Hp. apply Z.ltb_lt in Hp. apply Z.ltb_lt. lia.
  - apply count_le. intros p Hp. apply Z.ltb_lt in Hp. apply Z.ltb_lt. lia.
  - apply count_le_length.
Qed.

(** ** The run diffs the window at the offset found *)

Section AlignedRun.
Variable pow_half : Q -> Q.
Variable W : world.
Variables file_key node_id output_dir : string.
Variable figma_token : option string.
Variable scale : Q.
Variable use_absolute_bounds : bool.
Variables grid_cols grid_rows : Z.
Variables fig_img emu_raw_img : image.
Variables token url : string.

Hypothesis file_key_given : strip file_key <> EmptyString.
Hypothesis node_id_given : strip node_id <> EmptyString.
Hypothesis scale_pos : (0 < scale)%Q.
Hypothesis cols_pos : 0 < grid_cols.
Hypothesis rows_pos : 0 < grid_rows.
Hypothesis token_given : _resolve_figma_token W figma_token = Ok token.
Hypothesis mkdir_ok : mkdir_result W = Ok tt.
Hypothesis capture_ok : capture_result W = Ok tt.
Hypothesis api_ok : figma_api_result W = Ok url.
Hypothesis download_ok : download_result W = Ok tt.
Hypothesis figma_opens : open_figma W = Ok fig_img.
Hypothesis emulator_opens : open_emulator W = Ok emu_raw_img.
Hypothesis emu_width_pos : 0 < im_width emu_raw_img.
Hypothesis fig_width_pos : 0 < im_width fig_img.
Hypothesis fig_height_pos : 0 < im_height fig_img.

Let target_w := im_width fig_img.
Let target_h := im_height fig_img.
Let scaled_h :=
  py_round (inject_Z (im_height emu_raw_img * target_w)
            / inject_Z (im_width emu_raw_img)).
Let run :=
  compare_screen_with_figma pow_half W file_key node_id figma_token scale
    use_absolute_bounds grid_cols grid_rows output_dir [].


End AlignedRun.


Example sample_run_window :
  match compare_screen_with_figma sqrt4 sample_world "file_key" "21:1074"
          (Some "figd_test"%string) 1 true 2 2 "out" [] with
  | (Ok r, _) => (r_scaledHeight r, r_bestYOffset r, m_mae (r_metrics r))
  | (Raise _, _) => (0, 0, 0%Q)
  end = (4, 2, (127222 # 10000)%Q).
Proof. vm_compute. reflexivity. Qed.

(** X6. Each of the three threshold counters of the pass holds the number
    of pixels whose three channel differences add up to more than 30, 75
    and 150 (an average above 10, 25 and 50); so they are ordered,
    diff_gt_50 <= diff_gt_25 <= diff_gt_10, and none exceeds the number
    of pixels. *)
Theorem threshold_counters_count (fig_img emu_aligned : image)
    (grid_cols grid_rows : Z) :
  im_width emu_aligned = im_width fig_img ->
  im_height emu_aligned = im_height fig_img ->
  0 <= im_width fig_img -> 0 <= im_height fig_img ->
  0 < grid_cols -> 0 < grid_rows ->
  exists a,
    diff_pass fig_img emu_aligned grid_cols grid_rows = Ok a /\
    (let over t :=
       count (fun p => t <? delta_at fig_img emu_aligned p)
             (pixels (im_width fig_img) (im_height fig_img)) in
     diff_gt_10 a = over 30 /\ diff_gt_25 a = over 75 /\ diff_gt_50 a = over 150) /\
    0 <= diff_gt_50 a <= diff_gt_25 a /\
    diff_gt_25 a <= diff_gt_10 a <= im_width fig_img * im_height fig_img.
Proof.
  intros Hw Hh Hw0 Hh0 Hc Hr.
  destruct (diff_pass_as_fold fig_img emu_aligned grid_cols grid_rows Hw Hh Hc Hr)
    as [Hrun _].
  destruct (counters_inv_fold fig_img emu_aligned grid_cols grid_rows
              (pixels (im_width fig_img) (im_height fig_img)))
    as [_ [H10 [H25 H50]]].
  eexists. split; [exact Hrun|].
  split; [cbv zeta; auto|].
  rewrite <- (length_pixels (im_width fig_img) (im_height fig_img)) by lia.
  apply counters_ordered.
Qed.

Lemma threshold_counters_count_witness :
  exists a,
    diff_pass sample_fig sample_aligned 2 2 = Ok a /\
    (let over t :=
       count (fun p => t <? delta_at sample_fig sample_aligned p)
             (pixels (im_width sample_fig) (im_height sample_fig)) in
     diff_gt_10 a = over 30 /\ diff_gt_25 a = over 75 /\ diff_gt_50 a = over 150) /\
    0 <= diff_gt_50 a <= diff_gt_25 a /\
    diff_gt_25 a <= diff_gt_10 a <= im_width sample_fig * im_height sample_fig.
Proof.
  apply (threshold_counters_count sample_fig sample_aligned 2 2);
    first [reflexivity | simpl; lia].
Defined.

Section Bounds.
Variable pow_half : Q -> Q.
Variables fig_img emu_aligned : image.
Variables grid_cols grid_rows : Z.
Hypothesis same_width : im_width emu_aligned = im_width fig_img.
Hypothesis same_height : im_height emu_aligned = im_height fig_img.
Hypothesis width_pos : 0 < im_width fig_img.
Hypothesis height_pos : 0 < im_height fig_img.
Hypothesis cols_pos : 0 < grid_cols.
Hypothesis rows_pos : 0 < grid_rows.
Hypothesis fig_bytes : byte_image fig_img.
Hypothesis emu_bytes : byte_image emu_aligned.

Let w := im_width fig_img.
Let h := im_height fig_img.

Lemma delta_at_bound (p : Z * Z) : 0 <= delta_at fig_img emu_aligned p <= 765.
Proof. apply abs_delta_bound; now apply pixel_at_byte. Qed.

(** X7. On images of 8-bit samples the engine returns, the mean absolute
    error lies in [0, 255], the similarity is 100 - mae / 255 * 100 with
    the clamp at 0 never active, and the reported figures keep these
    ranges after rounding; the three reported percentages lie in
    [0, 100] and are ordered as their thresholds. *)
Theorem metrics_within_bounds :
  exists a s m,
    diff_engine pow_half fig_img emu_aligned grid_cols grid_rows = Ok (a, s, m) /\
    (0 <= mae s <= 255)%Q /\
    (similarity_pct s == 100 - mae s / 255 * 100)%Q /\
    (0 <= similarity_pct s <= 100)%Q /\
    (0 <= m_mae m <= 255)%Q /\
    (0 <= m_similarityPct m <= 100)%Q /\
    (0 <= m_pxDiffGt50Pct m)%Q /\
    (m_pxDiffGt50Pct m <= m_pxDiffGt25Pct m)%Q /\
    (m_pxDiffGt25Pct m <= m_pxDiffGt10Pct m)%Q /\
    (m_pxDiffGt10Pct m <= 100)%Q.
Proof.
  pose proof (diff_engine_runs pow_half fig_img emu_aligned grid_cols grid_rows
                same_width same_height width_pos height_pos cols_pos rows_pos)
    as Hrun.
  cbv zeta in Hrun. fold w h in Hrun.
  pose proof (counters_ordered fig_img emu_aligned grid_cols grid_rows (pixels w h))
    as Hord.
  cbv zeta in Hord. fold w h in Hord.
  rewrite (length_pixels w h) in Hord by (subst w h; lia).
  destruct (counters_inv_fold fig_img emu_aligned grid_cols grid_rows (pixels w h))
    as [Hs _]. fold w h in Hs.
  set (a := fold_left (pixel_step fig_img emu_aligned w h grid_cols grid_rows)
                      (pixels w h) (diff_init w h grid_cols grid_rows)) in *.
  assert (Hwh : 0 < w * h) by (subst w h; nia).
  assert (Hmae : (0 <= sum_abs a / inject_Z (w * h * 3) <= 255)%Q).
  { rewrite Hs. apply (Qdiv_between _ _ 0 255); [lia|].
    pose proof (sumZ_map_bounds (delta_at fig_img emu_aligned) 0 765 (pixels w h)
                  delta_at_bound) as Hb.
    rewrite (length_pixels w h) in Hb by (subst w h; lia). lia. }
  assert (Hpct : forall c, 0 <= c <= w * h ->
            (0 <= inject_Z c * 100 / inject_Z (w * h) <= 100)%Q).
  { intros c Hc. change 100%Q with (inject_Z 100).
    rewrite <- (inject_Z_mult c 100).
    apply (Qdiv_between _ _ 0 100); lia. }
  assert (Hle : forall c c', c <= c' ->
            (round4 (inject_Z c * 100 / inject_Z (w * h))
             <= round4 (inject_Z c' * 100 / inject_Z (w * h)))%Q).
  { intros c c' Hc. apply round4_mono. change 100%Q with (inject_Z 100).
    rewrite <- !(inject_Z_mult _ 100). apply Qdiv_le_num; lia. }
  eexists _, _, _. split; [exact Hrun|].
  cbn [mae similarity_pct m_mae m_similarityPct m_pxDiffGt10Pct m_pxDiffGt25Pct
       m_pxDiffGt50Pct].
  split; [exact Hmae|].
  split; [apply similarity_low; apply Hmae|].
  split; [apply similarity_between; apply Hmae|].
  split; [apply (round4_between _ 0 255); exact Hmae|].
  split; [apply (round4_between _ 0 100); apply similarity_between; apply Hmae|].
  split; [apply (round4_between _ 0 100); apply Hpct; lia|].
  split; [apply Hle; lia|].
  split; [apply Hle; lia|].
  apply (round4_between _ 0 100). apply Hpct. lia.
Qed.

End Bounds.

Lemma metrics_within_bounds_witness :
  exists a s m,
    diff_engine sqrt4 sample_fig sample_aligned 2 2 = Ok (a, s, m) /\
    (0 <= mae s <= 255)%Q /\
    (similarity_pct s == 100 - mae s / 255 * 100)%Q /\
    (0 <= similarity_pct s <= 100)%Q /\
    (0 <= m_mae m <= 255)%Q /\
    (0 <= m_similarityPct m <= 100)%Q /\
    (0 <= m_pxDiffGt50Pct m)%Q /\
    (m_pxDiffGt50Pct m <= m_pxDiffGt25Pct m)%Q /\
    (m_pxDiffGt25Pct m <= m_pxDiffGt10Pct m)%Q /\
    (m_pxDiffGt10Pct m <= 100)%Q.
Proof.
  apply (metrics_within_bounds sqrt4 sample_fig sample_aligned 2 2);
    try reflexivity;
    unfold byte_image, sample_fig, sample_aligned; cbn;
    repeat constructor; cbn; lia.
Defined.

(** ** The heatmap *)

Lemma row_major_inj (w x y x' y' : Z) :
  0 <= x < w -> 0 <= x' < w -> y * w + x = y' * w + x' -> x = x' /\ y = y'.
Proof.
  intros Hx Hx' E.
  assert (y = y') by nia. subst y'. split; [lia | reflexivity].
Qed.

Section Heatmap.
Variables fig_img emu_aligned : image.
Variables grid_cols grid_rows : Z.

Let w := im_width fig_img.
Let h := im_height fig_img.
Let step := pixel_step fig_img emu_aligned w h grid_cols grid_rows.
Let inside (p : Z * Z) : Prop := 0 <= fst p < w /\ 0 <= snd p < h.
Let heat (p : Z * Z) : rgb :=
  (Z.min 255 ((4 * delta_at fig_img emu_aligned p + 1) / 3), 0, 0).

(** After the pixels [ps], the heatmap keeps its size, holds bytes, and
    shows the scaled difference at every pixel of [ps]. *)
Let heat_inv (ps : list (Z * Z)) (a : diff_acc) : Prop :=
  im_width (heatmap a) = w /\ im_height (heatmap a) = h /\
  List.length (im_data (heatmap a)) = Z.to_nat (w * h) /\
  byte_image (heatmap a) /\
  forall p, inside p -> In p ps -> pixel_at (heatmap a) (fst p) (snd p) = heat p.

Lemma heat_inv_init : heat_inv [] (diff_init w h grid_cols grid_rows).
Proof.
  unfold heat_inv, diff_init, new_image, byte_image. cbn.
  rewrite repeat_length. repeat split; try reflexivity.
  - apply Forall_forall. intros p Hp. apply repeat_spec in Hp. subst p.
    cbn. lia.
  - intros p _ [].
Qed.

Lemma heat_inv_step (ps : list (Z * Z)) (p : Z * Z) (a : diff_acc) :
  inside p -> heat_inv ps a -> heat_inv (ps ++ [p]) (step a p).
Proof.
  intros [Hx Hy] [Hw [Hh [Hlen [Hb Hpx]]]]. destruct p as [x y].
  cbn [fst snd] in Hx, Hy.
  unfold heat_inv, step, pixel_step. cbn [heatmap im_width im_height im_data].
  rewrite length_list_set. rewrite Hw.
  split; [reflexivity|]. split; [exact Hh|]. split; [exact Hlen|].
  unfold d_avg_at. rewrite py_round_heat.
  change (abs_delta (pixel_at fig_img x y) (pixel_at emu_aligned x y))
    with (delta_at fig_img emu_aligned (x, y)).
  fold (heat (x, y)).
  split.
  - unfold byte_image. cbn [im_data]. apply Forall_list_set; [exact Hb|].
    unfold heat. pose proof (abs_delta_nonneg (pixel_at fig_img x y)
                               (pixel_at emu_aligned x y)) as Hd.
    unfold delta_at. cbn [fst snd byte_sample].
    assert (0 <= (4 * abs_delta (pixel_at fig_img x y) (pixel_at emu_aligned x y) + 1) / 3)
      by (apply Z.div_pos; lia).
    lia.
  - intros [x' y'] [Hx' Hy'] Hin. cbn [fst snd] in *.
    unfold pixel_at. cbn [im_width im_data].
    destruct (Z.eq_dec (y' * w + x') (y * w + x)) as [E|E].
    + apply row_major_inj in E; [|lia|lia]. destruct E as [-> ->].
      apply nth_list_set_same. rewrite Hlen. nia.
    + rewrite nth_list_set_other by nia.
      apply in_app_or in Hin. destruct Hin as [Hin|[Hin|[]]].
      * specialize (Hpx (x', y') (conj Hx' Hy') Hin).
        unfold pixel_at in Hpx. cbn [fst snd] in Hpx. now rewrite Hw in Hpx.
      * injection Hin as <- <-. contradiction.
Qed.

Lemma heat_inv_fold (ps : list (Z * Z)) :
  Forall inside ps ->
  heat_inv ps (fold_left step ps (diff_init w h grid_cols grid_rows)).
Proof.
  intros Hps.
  apply (fold_left_prefix step heat_inv inside heat_inv_step ps Hps []).
  apply heat_inv_init.
Qed.

End Heatmap.

(** X8. The heatmap the pass paints has the size of the reference and
    holds bytes; at every pixel its red sample is the summed channel
    difference d scaled by 4/3 and rounded, min(255, floor((4 d + 1) / 3)),
    its green and blue samples are 0, and the red sample is saturated
    exactly when d is at least 191. *)
Theorem heatmap_shows_scaled_delta (fig_img emu_aligned : image)
    (grid_cols grid_rows : Z) :
  im_width emu_aligned = im_width fig_img ->
  im_height emu_aligned = im_height fig_img ->
  0 < grid_cols -> 0 < grid_rows ->
  exists a,
    diff_pass fig_img emu_aligned grid_cols grid_rows = Ok a /\
    image_size (heatmap a) = image_size fig_img /\
    byte_image (heatmap a) /\
    forall x y, 0 <= x < im_width fig_img -> 0 <= y < im_height fig_img ->
      let d := delta_at fig_img emu_aligned (x, y) in
      getpixel (heatmap a) x y = Ok (Z.min 255 ((4 * d + 1) / 3), 0, 0) /\
      (Z.min 255 ((4 * d + 1) / 3) = 255 <-> 191 <= d).
Proof.
  intros Hw Hh Hc Hr.
  destruct (diff_pass_as_fold fig_img emu_aligned grid_cols grid_rows Hw Hh Hc Hr)
    as [Hrun _].
  destruct (heat_inv_fold fig_img emu_aligned grid_cols grid_rows
              (pixels (im_width fig_img) (im_height fig_img))
              (pixels_inside _ _))
    as [Hhw [Hhh [_ [Hb Hpx]]]].
  eexists. split; [exact Hrun|].
  split; [unfold image_size; now rewrite Hhw, Hhh|].
  split; [exact Hb|].
  intros x y Hx Hy d. split.
  - rewrite getpixel_inside by (rewrite ?Hhw, ?Hhh; lia).
    f_equal. apply (Hpx (x, y)); [split; assumption|].
    apply in_pixels. split; assumption.
  - split; intros H; Z.div_mod_to_equations; lia.
Qed.

Lemma heatmap_shows_scaled_delta_witness :
  exists a,
    diff_pass sample_fig sample_aligned 2 2 = Ok a /\
    image_size (heatmap a) = image_size sample_fig /\
    byte_image (heatmap a) /\
    forall x y, 0 <= x < im_width sample_fig -> 0 <= y < im_height sample_fig ->
      let d := delta_at sample_fig sample_aligned (x, y) in
      getpixel (heatmap a) x y = Ok (Z.min 255 ((4 * d + 1) / 3), 0, 0) /\
      (Z.min 255 ((4 * d + 1) / 3) = 255 <-> 191 <= d).
Proof.
  apply (heatmap_shows_scaled_delta sample_fig sample_aligned 2 2);
    first [reflexivity | lia].
Defined.

(** ** Averages of cells and zones *)

Lemma nth_list_set {A : Type} (l : list A) (k i : nat) (v d : A) :
  nth i (list_set l k v) d
  = if (Nat.eqb i k && Nat.ltb k (List.length l))%bool then v else nth i l d.
Proof.
  revert k i; induction l as [|x l IH]; intros k i.
  - simpl. rewrite andb_false_r. reflexivity.
  - destruct k as [|k], i as [|i]; simpl; try reflexivity.
    rewrite IH. reflexivity.
Qed.

Lemma zone_add_Forall (P : zone -> Prop) (zs : list zone) (y_norm d : Q) :
  (forall z, P z -> P (zone_bump z d)) ->
  Forall P zs -> Forall P (zone_add zs y_norm d).
Proof.
  intros Hb Hzs. induction Hzs as [|z zs Hz Hzs IH]; simpl; [constructor|].
  destruct (in_band z y_norm); constructor; auto.
Qed.

Lemma zone_add_names (zs : list zone) (y_norm d : Q) :
  map z_name (zone_add zs y_norm d) = map z_name zs.
Proof.
  induction zs as [|z zs IH]; simpl; [reflexivity|].
  destruct (in_band z y_norm); simpl; [reflexivity|]. now rewrite IH.
Qed.

Section Averages.
Variables fig_img emu_aligned : image.
Variables grid_cols grid_rows : Z.
Hypothesis fig_bytes : byte_image fig_img.
Hypothesis emu_bytes : byte_image emu_aligned.

Let w := im_width fig_img.
Let h := im_height fig_img.
Let step := pixel_step fig_img emu_aligned w h grid_cols grid_rows.

Local Open Scope Q_scope.

(** What every iteration keeps on 8-bit images: a running sum is at
    most 255 times its count. *)
Let avg_inv (a : diff_acc) : Prop :=
  List.length (cell_sums a) = List.length (cell_pixels a) /\
  (forall i, 0 <= nth i (cell_sums a) 0
             /\ nth i (cell_sums a) 0 <= 255 * inject_Z (nth i (cell_pixels a) 0%Z)
             /\ (0 <= nth i (cell_pixels a) 0)%Z) /\
  Forall (fun z => 0 <= z_sum z /\ z_sum z <= 255 * inject_Z (z_count z)
                   /\ (0 <= z_count z)%Z) (zones a) /\
  map z_name (zones a) = map z_name initial_zones.

Lemma d_avg_at_bound (x y : Z) : 0 <= d_avg_at fig_img emu_aligned x y <= 255.
Proof.
  unfold d_avg_at. change 3 with (inject_Z 3). change 0 with (inject_Z 0).
  change 255 with (inject_Z 255).
  apply Qdiv_between; [lia|].
  pose proof (abs_delta_bound (pixel_at fig_img x y) (pixel_at emu_aligned x y)
                (pixel_at_byte _ _ _ fig_bytes) (pixel_at_byte _ _ _ emu_bytes)).
  lia.
Qed.

Lemma avg_inv_init : avg_inv (diff_init w h grid_cols grid_rows).
Proof.
  unfold avg_inv, diff_init. cbn [cell_sums cell_pixels zones].
  rewrite !repeat_length. split; [reflexivity|]. split.
  - intros i.
    assert (E1 : nth i (repeat 0 (Z.to_nat (grid_cols * grid_rows))) 0 = 0).
    { destruct (Nat.lt_ge_cases i (Z.to_nat (grid_cols * grid_rows))).
      - now apply nth_repeat_lt.
      - apply nth_overflow. now rewrite repeat_length. }
    assert (E2 : nth i (repeat 0%Z (Z.to_nat (grid_cols * grid_rows))) 0%Z = 0%Z).
    { destruct (Nat.lt_ge_cases i (Z.to_nat (grid_cols * grid_rows))).
      - now apply nth_repeat_lt.
      - apply nth_overflow. now rewrite repeat_length. }
    rewrite E1, E2. repeat split; try lia; discriminate.
  - split; [|reflexivity].
    unfold initial_zones. repeat constructor; cbn; try lia; discriminate.
Qed.

Lemma avg_inv_step (pre : list (Z * Z)) (p : Z * Z) (a : diff_acc) :
  True -> avg_inv a -> avg_inv (step a p).
Proof.
  intros _ [Hlen [Hcells [Hzones Hnames]]]. destruct p as [x y].
  pose proof (d_avg_at_bound x y) as Hd.
  unfold avg_inv, step, pixel_step. cbn [cell_sums cell_pixels zones].
  rewrite !length_list_set. split; [exact Hlen|]. split; [|split].
  - intros i. rewrite !nth_list_set, Hlen.
    set (k := Z.to_nat (cell_index w h grid_cols grid_rows x y)).
    destruct (Nat.eqb i k && Nat.ltb k (List.length (cell_pixels a)))%bool;
      [|apply Hcells].
    destruct (Hcells k) as [H0 [H1 H2]].
    rewrite inject_Z_plus. change (inject_Z 1) with 1.
    repeat split; try lia; lra.
  - apply zone_add_Forall; [|exact Hzones].
    intros z [H0 [H1 H2]]. cbn [zone_bump z_sum z_count].
    rewrite inject_Z_plus. change (inject_Z 1) with 1.
    repeat split; try lia; lra.
  - now rewrite zone_add_names.
Qed.

Lemma avg_inv_fold (ps : list (Z * Z)) :
  avg_inv (fold_left step ps (diff_init w h grid_cols grid_rows)).
Proof.
  apply (fold_left_prefix step (fun _ => avg_inv) (fun _ => True) avg_inv_step ps
           (proj2 (Forall_forall _ _) (fun _ _ => I)) []).
  apply avg_inv_init.
Qed.

Lemma cell_avg_bound (ps : list (Z * Z)) (row col : Z) :
  0 <= cell_avg (fold_left step ps (diff_init w h grid_cols grid_rows))
                grid_cols row col <= 255.
Proof.
  destruct (avg_inv_fold ps) as [_ [Hcells _]].
  unfold cell_avg.
  set (a := fold_left step ps (diff_init w h grid_cols grid_rows)) in *.
  set (k := Z.to_nat (row * grid_cols + col)).
  destruct (Hcells k) as [H0 [H1 H2]].
  destruct (Z.eqb_spec (nth k (cell_pixels a) 0%Z) 0) as [E|E].
  - split; [apply Qle_refl | discriminate].
  - assert (Hn : 0 < inject_Z (nth k (cell_pixels a) 0%Z))
      by (change 0 with (inject_Z 0); rewrite <- Zlt_Qlt; lia).
    split.
    + apply Qle_shift_div_l; [exact Hn|]. lra.
    + apply Qle_shift_div_r; [exact Hn|]. lra.
Qed.

Lemma zone_avg_bound (ps : list (Z * Z)) (z : zone) :
  In z (zones (fold_left step ps (diff_init w h grid_cols grid_rows))) ->
  0 <= zone_avg z <= 255.
Proof.
  intros Hz. destruct (avg_inv_fold ps) as [_ [_ [Hzones _]]].
  rewrite Forall_forall in Hzones. destruct (Hzones z Hz) as [H0 [H1 H2]].
  unfold zone_avg.
  destruct (Z.eqb_spec (z_count z) 0) as [E|E].
  - split; [apply Qle_refl | discriminate].
  - assert (Hn : 0 < inject_Z (z_count z))
      by (change 0 with (inject_Z 0); rewrite <- Zlt_Qlt; lia).
    split.
    + apply Qle_shift_div_l; [exact Hn|]. lra.
    + apply Qle_shift_div_r; [exact Hn|]. lra.
Qed.

Lemma zone_names_fold (ps : list (Z * Z)) :
  map ze_name (zone_report_of
                 (zones (fold_left step ps (diff_init w h grid_cols grid_rows))))
  = map z_name initial_zones.
Proof.
  destruct (avg_inv_fold ps) as [_ [_ [_ Hn]]].
  unfold zone_report_of. rewrite map_map. cbn [ze_name]. exact Hn.
Qed.

End Averages.

Lemma count_none {A : Type} (f : A -> bool) (l : list A) :
  (forall x, In x l -> f x = false) -> count f l = 0.
Proof.
  intros H. unfold count. induction l as [|x l IH]; [reflexivity|].
  simpl. rewrite (H x) by now left. apply IH. intros y Hy. apply H. now right.
Qed.

(** The last column of a grid wider than the image holds no pixel. *)
Lemma last_column_unused (w gc x : Z) :
  0 <= x < w -> w < gc -> Z.min (gc - 1) (x * gc / w) < gc - 1.
Proof.
  intros Hx Hgc.
  assert (x * gc / w < gc - 1) by (apply Z.div_lt_upper_bound; nia).
  lia.
Qed.

Lemma empty_entry (a : diff_acc) (grid_cols row col : Z) :
  nth (Z.to_nat (row * grid_cols + col)) (cell_pixels a) 0 = 0 ->
  (c_avgDiff (cell_entry a grid_cols row col) == 0)%Q /\
  (c_similarityPct (cell_entry a grid_cols row col) == 100)%Q.
Proof.
  intros E. unfold cell_entry, cell_avg. cbn [c_avgDiff c_similarityPct].
  rewrite E. cbn [Z.eqb]. split.
  - apply (round3_int 0).
  - rewrite (round3_comp (similarity 0) (inject_Z 100)).
    + apply (round3_int 100).
    + rewrite similarity_low by (try apply Qle_refl; discriminate). reflexivity.
Qed.

Section Entries.
Variable pow_half : Q -> Q.
Variables fig_img emu_aligned : image.
Variables grid_cols grid_rows : Z.
Hypothesis same_width : im_width emu_aligned = im_width fig_img.
Hypothesis same_height : im_height emu_aligned = im_height fig_img.
Hypothesis width_pos : 0 < im_width fig_img.
Hypothesis height_pos : 0 < im_height fig_img.
Hypothesis cols_pos : 0 < grid_cols.
Hypothesis rows_pos : 0 < grid_rows.

Let w := im_width fig_img.
Let h := im_height fig_img.

(** X9. On images of 8-bit samples every entry of the report lies in
    range: the zones are the five named bands in their order, and every
    zone, every grid cell and every worst cell has an average difference
    in [0, 255] and a similarity in [0, 100]. *)
Theorem report_entries_within_bounds :
  byte_image fig_img -> byte_image emu_aligned ->
  exists a s m,
    diff_engine pow_half fig_img emu_aligned grid_cols grid_rows = Ok (a, s, m) /\
    map ze_name (zone_report s)
    = ["header"; "cards"; "gap_analysis"; "strategy_band"; "bottom_nav"]%string /\
    (forall z, In z (zone_report s) ->
       (0 <= ze_avgDiff z <= 255)%Q /\ (0 <= ze_similarityPct z <= 100)%Q) /\
    (forall c, In c (grid_cells s) ->
       (0 <= c_avgDiff c <= 255)%Q /\ (0 <= c_similarityPct c <= 100)%Q) /\
    (forall c, In c (worst_grid_cells s) ->
       (0 <= c_avgDiff c <= 255)%Q /\ (0 <= c_similarityPct c <= 100)%Q).
Proof.
  intros Hfb Heb.
  pose proof (diff_engine_runs pow_half fig_img emu_aligned grid_cols grid_rows
                same_width same_height width_pos height_pos cols_pos rows_pos)
    as Hrun.
  cbv zeta in Hrun. fold w h in Hrun.
  pose proof (zone_names_fold fig_img emu_aligned grid_cols grid_rows Hfb Heb
                (pixels w h))
    as Hnames. fold w h in Hnames.
  pose proof (fun z => zone_avg_bound fig_img emu_aligned grid_cols grid_rows Hfb Heb
                         (pixels w h) z) as Hz. fold w h in Hz.
  pose proof (fun row col => cell_avg_bound fig_img emu_aligned grid_cols grid_rows
                               Hfb Heb (pixels w h) row col) as Hc. fold w h in Hc.
  set (a := fold_left (pixel_step fig_img emu_aligned w h grid_cols grid_rows)
                      (pixels w h) (diff_init w h grid_cols grid_rows)) in *.
  assert (Hcells : forall c, In c (all_cells a grid_cols grid_rows) ->
            (0 <= c_avgDiff c <= 255)%Q /\ (0 <= c_similarityPct c <= 100)%Q).
  { intros c Hin. apply in_all_cells in Hin.
    destruct Hin as [row [col [_ [_ ->]]]]. unfold cell_entry.
    cbn [c_avgDiff c_similarityPct]. split.
    - apply (round3_between _ 0 255). apply Hc.
    - apply (round3_between _ 0 100). apply similarity_between. apply Hc. }
  eexists _, _, _. split; [exact Hrun|].
  cbn [zone_report grid_cells worst_grid_cells].
  split; [exact Hnames|]. split; [|split].
  - intros z Hin. unfold zone_report_of in Hin. apply in_map_iff in Hin.
    destruct Hin as [z0 [<- Hz0]]. cbn [ze_avgDiff ze_similarityPct]. split.
    + apply (round3_between _ 0 255). now apply Hz.
    + apply (round3_between _ 0 100). apply similarity_between. now apply Hz.
  - exact Hcells.
  - intros c Hin. apply Hcells. now apply (worst_cells_spec _).
Qed.

(** X10. A grid cell that holds no pixel is reported with an average
    difference of 0 and a similarity of 100, without a division; this
    is the case of every cell of the last column when the grid has more
    columns than the reference has pixels in a row, and of every cell of
    the last row when it has more rows than the reference has rows. *)
Theorem empty_cells_report_no_difference :
  exists a s m,
    diff_engine pow_half fig_img emu_aligned grid_cols grid_rows = Ok (a, s, m) /\
    forall c, In c (grid_cells s) ->
      (nth (Z.to_nat (c_row c * grid_cols + c_col c)) (cell_pixels a) 0 = 0 ->
       (c_avgDiff c == 0)%Q /\ (c_similarityPct c == 100)%Q) /\
      ((w < grid_cols /\ c_col c = grid_cols - 1) \/
       (h < grid_rows /\ c_row c = grid_rows - 1) ->
       nth (Z.to_nat (c_row c * grid_cols + c_col c)) (cell_pixels a) 0 = 0).
Proof.
  pose proof (diff_engine_runs pow_half fig_img emu_aligned grid_cols grid_rows
                same_width same_height width_pos height_pos cols_pos rows_pos)
    as Hrun.
  cbv zeta in Hrun. fold w h in Hrun.
  destruct (cells_inv_fold fig_img emu_aligned grid_cols grid_rows cols_pos rows_pos
              (pixels w h) (pixels_inside _ _)) as [_ [Hcnt _]].
  fold w h in Hcnt.
  set (a := fold_left (pixel_step fig_img emu_aligned w h grid_cols grid_rows)
                      (pixels w h) (diff_init w h grid_cols grid_rows)) in *.
  eexists _, _, _. split; [exact Hrun|].
  cbn [grid_cells]. intros c Hin. apply in_all_cells in Hin.
  destruct Hin as [row [col [Hrow [Hcol ->]]]]. cbn [c_row c_col cell_entry].
  split.
  - intros E. now apply empty_entry.
  - intros Hlast. rewrite Hcnt by nia.
    apply count_none. intros [x y] Hp. apply in_pixels in Hp. destruct Hp as [Hx Hy].
    cbn [fst snd]. apply Z.eqb_neq. unfold cell_index. intros E.
    assert (Hcx : 0 <= x * grid_cols / w) by (apply Z.div_pos; nia).
    assert (Hcy : 0 <= y * grid_rows / h) by (apply Z.div_pos; nia).
    apply (row_major_inj grid_cols) in E; [|lia|lia].
    destruct E as [E1 E2].
    destruct Hlast as [[Hg Hl]|[Hg Hl]].
    + pose proof (last_column_unused w grid_cols x Hx Hg). lia.
    + pose proof (last_column_unused h grid_rows y Hy Hg). lia.
Qed.

End Entries.

Lemma report_entries_within_bounds_witness :
  exists a s m,
    diff_engine sqrt4 sample_fig sample_aligned 2 2 = Ok (a, s, m) /\
    map ze_name (zone_report s)
    = ["header"; "cards"; "gap_analysis"; "strategy_band"; "bottom_nav"]%string /\
    (forall z, In z (zone_report s) ->
       (0 <= ze_avgDiff z <= 255)%Q /\ (0 <= ze_similarityPct z <= 100)%Q) /\
    (forall c, In c (grid_cells s) ->
       (0 <= c_avgDiff c <= 255)%Q /\ (0 <= c_similarityPct c <= 100)%Q) /\
    (forall c, In c (worst_grid_cells s) ->
       (0 <= c_avgDiff c <= 255)%Q /\ (0 <= c_similarityPct c <= 100)%Q).
Proof.
  apply (report_entries_within_bounds sqrt4 sample_fig sample_aligned 2 2);
    try reflexivity;
    unfold byte_image, sample_fig, sample_aligned; cbn;
    repeat constructor; cbn; lia.
Defined.

Lemma empty_cells_report_no_difference_witness :
  exists a s m,
    diff_engine sqrt4 sample_fig sample_aligned 4 2 = Ok (a, s, m) /\
    forall c, In c (grid_cells s) ->
      (nth (Z.to_nat (c_row c * 4 + c_col c)) (cell_pixels a) 0 = 0 ->
       (c_avgDiff c == 0)%Q /\ (c_similarityPct c == 100)%Q) /\
      ((im_width sample_fig < 4 /\ c_col c = 4 - 1) \/
       (im_height sample_fig < 2 /\ c_row c = 2 - 1) ->
       nth (Z.to_nat (c_row c * 4 + c_col c)) (cell_pixels a) 0 = 0).
Proof.
  apply (empty_cells_report_no_difference sqrt4 sample_fig sample_aligned 4 2);
    first [reflexivity | simpl; lia].
Defined.

(** ** The worst cells *)

Section StableSort.
Context {A : Type}.
Variable key : A -> Q.
Variable k : Q.

Let same (c : A) : bool := Qeq_bool (key c) k.

Lemma insert_desc_same (c : A) (l : list A) :
  filter same (insert_desc key c l) = filter same (c :: l).
Proof.
  induction l as [|d l IH]; [reflexivity|].
  cbn [insert_desc]. destruct (Qltb (key c) (key d)) eqn:E; [|reflexivity].
  apply Qltb_lt in E. cbn [filter] in *. rewrite IH.
  destruct (same c) eqn:Ec; destruct (same d) eqn:Ed; try reflexivity.
  unfold same in Ec, Ed. apply Qeq_bool_iff in Ec. apply Qeq_bool_iff in Ed.
  exfalso. rewrite Ec, Ed in E. exact (Qlt_irrefl _ E).
Qed.

Lemma sorted_desc_same (l : list A) :
  filter same (sorted_desc key l) = filter same l.
Proof.
  induction l as [|c l IH]; [reflexivity|].
  cbn [sorted_desc fold_right]. fold (sorted_desc key l).
  rewrite insert_desc_same. cbn [filter]. now rewrite IH.
Qed.

End StableSort.

Lemma sorted_app_dominates {A : Type} (R : A -> A -> Prop) (l1 l2 : list A) :
  StronglySorted R (l1 ++ l2) ->
  forall a b, In a l1 -> In b l2 -> R a b.
Proof.
  induction l1 as [|x l1 IH]; intros Hs a b Ha Hb; [destruct Ha|].
  cbn [app] in Hs. apply StronglySorted_inv in Hs. destruct Hs as [Hs Hx].
  destruct Ha as [<-|Ha].
  - rewrite Forall_forall in Hx. apply Hx. apply in_or_app. now right.
  - now apply IH.
Qed.

(** X11. The twelve worst cells dominate the others: the cells split
    into the reported ones and a rest none of which differs more than
    any reported cell; and among cells of one and the same average
    difference those reported are the first in the order of the grid,
    row by row. *)
Theorem worst_cells_dominate (cells : list grid_cell) :
  (exists rest,
     Permutation (worst_cells cells ++ rest) cells /\
     forall c d, In c (worst_cells cells) -> In d rest ->
                 (c_avgDiff d <= c_avgDiff c)%Q) /\
  (forall k, exists more,
     filter (fun c => Qeq_bool (c_avgDiff c) k) cells
     = filter (fun c => Qeq_bool (c_avgDiff c) k) (worst_cells cells) ++ more).
Proof.
  unfold worst_cells. split.
  - exists (skipn 12 (sorted_desc c_avgDiff cells)).
    rewrite firstn_skipn. split; [apply sorted_desc_perm|].
    intros c d Hc Hd.
    apply (sorted_app_dominates (fun c d => (c_avgDiff d <= c_avgDiff c)%Q)
             (firstn 12 (sorted_desc c_avgDiff cells))
             (skipn 12 (sorted_desc c_avgDiff cells))); try assumption.
    rewrite firstn_skipn. apply sorted_desc_sorted.
  - intros k.
    exists (filter (fun c => Qeq_bool (c_avgDiff c) k)
                   (skipn 12 (sorted_desc c_avgDiff cells))).
    rewrite <- filter_app, firstn_skipn.
    symmetry. apply sorted_desc_same.
Qed.

(** ** The choice of the device *)

Lemma existsb_eqb_In (n : string) (l : list string) :
  existsb (String.eqb n) l = true <-> In n l.
Proof.
  rewrite existsb_exists. split.
  - intros [x [Hx E]]. apply String.eqb_eq in E. now subst.
  - intros H. exists n. split; [exact H | apply String.eqb_refl].
Qed.

Lemma given_spec (o : option string) :
  given o = true <-> exists n, o = Some n /\ n <> EmptyString.
Proof.
  destruct o as [[|c n]|]; cbn; split; try discriminate.
  - intros [n [E H]]. injection E as <-. contradiction.
  - intros _. eexists. split; [reflexivity | discriminate].
  - reflexivity.
  - intros [n [E _]]. discriminate.
Qed.



(** ** Prefixes *)

Lemma prefix_nil (s : string) : prefix "" s = true.
Proof. destruct s; reflexivity. Qed.

Lemma startswith_app (p rest : string) : startswith (p ++ rest) p = true.
Proof.
  unfold startswith. induction p as [|c p IH]; cbn [append prefix].
  - destruct rest; reflexivity.
  - destruct (ascii_dec c c) as [_|N]; [exact IH | contradiction].
Qed.

Lemma startswith_spec (s p : string) :
  startswith s p = true <-> s = (p ++ drop (String.length p) s)%string.
Proof.
  unfold startswith. revert s; induction p as [|c p IH]; intros s.
  - cbn. destruct s; split; auto.
  - destruct s as [|d s]; cbn [prefix String.length drop append].
    + split; discriminate.
    + destruct (ascii_dec c d) as [<-|N].
      * rewrite IH. split; [intros <-; reflexivity | intros H; now injection H].
      * split; [discriminate|]. intros H. injection H as H _. congruence.
Qed.

Lemma drop_app (p rest : string) : drop (String.length p) (p ++ rest) = rest.
Proof. induction p as [|c p IH]; [now destruct rest | exact IH]. Qed.

(** X13. [execute_adb_shell_command] sends exactly one command to the
    device and returns its answer; the command sent is the argument
    without its prefix "adb shell ", or else without its prefix "adb ",
    or else the argument itself: the two slices cut exactly the prefix
    tested, and only one prefix is removed. *)
Theorem shell_prefix_removed (D : device) (command : string) (log : list string) :
  exists sent,
    execute_adb_shell_command D command log = (D log sent, log ++ [sent]) /\
    ((command = ("adb shell " ++ sent)%string) \/
     (command = ("adb " ++ sent)%string /\ startswith sent "shell " = false) \/
     (command = sent /\ startswith command "adb " = false)) /\
    (forall rest, command = ("adb shell " ++ rest)%string -> sent = rest) /\
    (forall rest, command = ("adb " ++ rest)%string ->
       startswith rest "shell " = false -> sent = rest).
Proof.
  unfold execute_adb_shell_command, shell.
  destruct (startswith command "adb shell ") eqn:E1.
  - exists (drop 10 command). split; [reflexivity|].
    apply startswith_spec in E1. cbn [String.length] in E1.
    split; [left; exact E1|]. split.
    + intros rest ->. apply (drop_app "adb shell ").
    + intros rest -> Hr. exfalso. cbn in E1. injection E1 as E1.
      unfold startswith in Hr. rewrite E1 in Hr. cbn in Hr.
      rewrite prefix_nil in Hr. discriminate.
  - destruct (startswith command "adb ") eqn:E2.
    + exists (drop 4 command). split; [reflexivity|].
      apply startswith_spec in E2. split; [|split].
      * right. left. split; [exact E2|].
        destruct (startswith (drop 4 command) "shell ") eqn:E; [|reflexivity].
        apply startswith_spec in E. cbn [String.length] in E, E2.
        rewrite E in E2. unfold startswith in E1. rewrite E2 in E1.
        cbn in E1. rewrite prefix_nil in E1. discriminate.
      * intros rest ->. rewrite (startswith_app "adb shell ") in E1. discriminate.
      * intros rest -> _. apply (drop_app "adb ").
    + exists command. split; [reflexivity|]. split; [|split].
      * right. right. auto.
      * intros rest ->. rewrite (startswith_app "adb shell ") in E1. discriminate.
      * intros rest ->. rewrite (startswith_app "adb ") in E2. discriminate.
Qed.

Lemma shell_prefix_removed_witness :
  execute_adb_shell_command (echo_device "ok") "adb shell ls" []
  = (echo_device "ok" [] "ls"%string, [] ++ ["ls"%string]).
Proof.
  destruct (shell_prefix_removed (echo_device "ok") "adb shell ls" [])
    as [sent [Hrun [_ [Hshell _]]]].
  rewrite (Hshell "ls"%string eq_refl) in Hrun. exact Hrun.
Defined.

(** ** Lines *)

Lemma char_in_app (c : ascii) (a b : string) :
  char_in c (a ++ b) = char_in c a || char_in c b.
Proof.
  induction a as [|d a IH]; [reflexivity|].
  cbn [append char_in]. now rewrite IH, orb_assoc.
Qed.

Lemma split_cons (sep : ascii) (s : string) :
  exists w ws, split sep s = w :: ws.
Proof.
  induction s as [|c s [w [ws IH]]]; cbn [split]; [eauto|].
  destruct (Ascii.eqb c sep); [eauto|]. rewrite IH. eauto.
Qed.

Lemma split_no_sep (sep : ascii) (s : string) :
  char_in sep s = false -> split sep s = [s].
Proof.
  induction s as [|c s IH]; [reflexivity|].
  cbn [char_in split]. intros H. apply orb_false_elim in H. destruct H as [Hc Hs].
  rewrite Hc, (IH Hs). reflexivity.
Qed.

Lemma split_app_sep (sep : ascii) (s rest : string) :
  char_in sep s = false ->
  split sep (s ++ String sep rest) = s :: split sep rest.
Proof.
  induction s as [|c s IH]; cbn [append char_in split].
  - intros _. now rewrite Ascii.eqb_refl.
  - intros H. apply orb_false_elim in H. destruct H as [Hc Hs].
    rewrite Hc, (IH Hs). reflexivity.
Qed.

Lemma split_pieces (sep : ascii) (s : string) :
  Forall (fun w => char_in sep w = false) (split sep s).
Proof.
  induction s as [|c s IH]; cbn [split]; [repeat constructor|].
  destruct (Ascii.eqb c sep) eqn:E; [constructor; [reflexivity | exact IH]|].
  destruct (split sep s) as [|w ws]; [repeat constructor; cbn; now rewrite E|].
  inversion IH as [|? ? Hw Hws]; subst.
  constructor; [cbn; now rewrite E, Hw | exact Hws].
Qed.

Lemma join_cons (sep x y : string) (l : list string) :
  join sep (x :: y :: l) = (x ++ sep ++ join sep (y :: l))%string.
Proof. reflexivity. Qed.

(** Splitting what was joined gives the pieces back. *)
Lemma split_join (sep : ascii) (l : list string) :
  l <> [] -> Forall (fun w => char_in sep w = false) l ->
  split sep (join (String sep "") l) = l.
Proof.
  induction l as [|x l IH]; [congruence|]. intros _ Hl.
  inversion Hl as [|? ? Hx Hl']; subst.
  destruct l as [|y l]; [now apply split_no_sep|].
  rewrite join_cons. cbn [append].
  rewrite split_app_sep by exact Hx.
  rewrite IH; [reflexivity | discriminate | exact Hl'].
Qed.

Lemma drop_keeps_lines (sep : ascii) (n : nat) (w : string) :
  char_in sep w = false -> char_in sep (drop n w) = false.
Proof.
  revert w; induction n as [|n IH]; intros w H; [exact H|].
  destruct w as [|c w]; [reflexivity|]. cbn [drop]. apply IH.
  cbn [char_in] in H. now apply orb_false_elim in H.
Qed.

(** ** White space at the ends *)

Lemma rstrip_no_blank (s : string) : no_blank s = true -> rstrip s = s.
Proof.
  induction s as [|c s IH]; [reflexivity|].
  cbn [no_blank rstrip]. intros H. apply andb_prop in H. destruct H as [Hc Hs].
  rewrite (IH Hs). apply negb_true_iff in Hc.
  destruct s; [now rewrite Hc | reflexivity].
Qed.

Lemma rstrip_app_no_blank (a b : string) :
  no_blank b = true -> b <> EmptyString -> rstrip (a ++ b) = (a ++ b)%string.
Proof.
  intros Hb Hne. induction a as [|c a IH]; [now apply rstrip_no_blank|].
  cbn [append rstrip]. rewrite IH.
  destruct (a ++ b)%string eqn:E; [|reflexivity].
  destruct a; [cbn in E; contradiction | discriminate].
Qed.

Lemma rstrip_app_blank (s : string) (c : ascii) :
  is_space c = true -> rstrip (s ++ String c "") = rstrip s.
Proof.
  intros Hc. induction s as [|d s IH]; cbn [append rstrip].
  - now rewrite Hc.
  - now rewrite IH.
Qed.

Lemma no_blank_no_LF (s : string) : no_blank s = true -> char_in LF s = false.
Proof.
  induction s as [|c s IH]; [reflexivity|].
  cbn [no_blank char_in]. intros H. apply andb_prop in H. destruct H as [Hc Hs].
  rewrite (IH Hs), orb_false_r.
  destruct (Ascii.eqb c LF) eqn:E; [|reflexivity].
  apply Ascii.eqb_eq in E. subst c. discriminate.
Qed.

(** ** [get_packages] *)

Lemma pm_list_snoc (ns : list string) (n : string) :
  pm_list (ns ++ [n])
  = (join (String LF "") (map (append "package:") (ns ++ [n])) ++ String LF "")%string.
Proof.
  induction ns as [|m ns IH]; [reflexivity|].
  cbn [app map pm_list fold_right]. fold (pm_list (ns ++ [n])). rewrite IH.
  destruct (map (append "package:") (ns ++ [n])) as [|y l] eqn:E.
  - destruct ns; discriminate.
  - rewrite join_cons. rewrite !string_app_assoc. reflexivity.
Qed.

Lemma join_snoc_tail (sep : string) (l : list string) (x : string) :
  exists a, join sep (l ++ [x]) = (a ++ x)%string.
Proof.
  induction l as [|y l [a IH]]; [now exists EmptyString|].
  cbn [app]. destruct (l ++ [x]) as [|z l'] eqn:E; [destruct l; discriminate|].
  rewrite join_cons, IH. exists (y ++ sep ++ a)%string.
  now rewrite !string_app_assoc.
Qed.

Lemma no_blank_package (n : string) :
  no_blank ("package:" ++ n) = no_blank n.
Proof. reflexivity. Qed.

(** X14. [get_packages] sends the one command "pm list packages"; its
    result has a line for every line of the stripped answer, which is
    that line without its first eight characters; and when the answer
    is the listing of packages whose names hold no white space, one line
    "package:<name>" each, the result is exactly the names, one per
    line. *)
Theorem get_packages_lists_names (D : device) (log : list string) :
  (forall out, D log "pm list packages"%string = Ok out ->
     exists result,
       get_packages D log = (Ok result, log ++ ["pm list packages"%string]) /\
       split LF result = map (drop 8) (split LF (strip out))) /\
  (forall names, Forall (fun n => no_blank n = true) names ->
     D log "pm list packages"%string = Ok (pm_list names) ->
     get_packages D log
     = (Ok (join (String LF "") names), log ++ ["pm list packages"%string])).
Proof.
  split.
  - intros out Hout. unfold get_packages, adb_bind, shell, adb_ret. rewrite Hout.
    eexists. split; [reflexivity|].
    apply split_join.
    + destruct (split_cons LF (strip out)) as [w [ws ->]]. discriminate.
    + rewrite Forall_map. eapply Forall_impl; [|apply split_pieces].
      intros w Hw. now apply drop_keeps_lines.
  - intros names Hn Hout. unfold get_packages, adb_bind, shell, adb_ret.
    rewrite Hout. do 2 f_equal.
    destruct names as [|n0 names]; [reflexivity|]. f_equal.
    destruct (exists_last (l := n0 :: names) ltac:(discriminate)) as [ns [n E]].
    assert (Hhead : lstrip (pm_list (n0 :: names)) = pm_list (n0 :: names))
      by reflexivity.
    unfold strip. rewrite Hhead, E in *. clear Hhead.
    rewrite pm_list_snoc, rstrip_app_blank by reflexivity.
    assert (Hlast : no_blank n = true).
    { rewrite Forall_forall in Hn. apply Hn. apply in_or_app. right. now left. }
    destruct (join_snoc_tail (String LF "") (map (append "package:") ns)
                ("package:" ++ n)) as [a Ha].
    rewrite map_app. cbn [map]. rewrite Ha.
    rewrite rstrip_app_no_blank by (rewrite ?no_blank_package; auto; discriminate).
    rewrite <- Ha. change [("package:" ++ n)%string] with (map (append "package:") [n]).
    rewrite <- map_app.
    rewrite split_join.
    + rewrite map_map. clear. induction (ns ++ [n]) as [|x l IH]; [reflexivity|].
      cbn [map]. now rewrite IH.
    + destruct ns; discriminate.
    + rewrite Forall_map. eapply Forall_impl; [|exact Hn].
      intros x Hx. apply no_blank_no_LF. now rewrite no_blank_package.
Qed.

Lemma get_packages_lists_names_witness :
  (forall out, echo_device (pm_list ["com.a"; "org.b"]%string) [] "pm list packages"%string = Ok out ->
     exists result,
       get_packages (echo_device (pm_list ["com.a"; "org.b"]%string)) []
       = (Ok result, [] ++ ["pm list packages"%string]) /\
       split LF result = map (drop 8) (split LF (strip out))) /\
  get_packages (echo_device (pm_list ["com.a"; "org.b"]%string)) []
  = (Ok (join (String LF "") ["com.a"; "org.b"]%string),
     [] ++ ["pm list packages"%string]).
Proof.
  destruct (get_packages_lists_names
              (echo_device (pm_list ["com.a"; "org.b"]%string)) []) as [H1 H2].
  split; [exact H1|].
  apply H2; [repeat constructor | reflexivity].
Defined.

(** ** [launch_app] *)

Lemma truthy_true (s : string) : truthy s = true <-> s <> EmptyString.
Proof. destruct s; cbn; split; try congruence; intros; discriminate. Qed.

Lemma startswith_refl (s : string) : startswith s s = true.
Proof.
  unfold startswith. induction s as [|c s IH]; [reflexivity|].
  cbn [prefix]. destruct (ascii_dec c c) as [_|N]; [exact IH | contradiction].
Qed.

(** X15. [launch_app] sends the force-stop first when asked to, then
    exactly one launch command; a failure of the force-stop means that
    nothing is launched.  The launch command is the monkey launcher when
    no activity is given and "am start -n <component>" otherwise, with a
    component that always holds a slash: the activity itself when it has
    one, and the package, a slash and the activity when not.  The text
    returned is never empty: it starts with the force-stop notice when
    one was sent, ends with the stripped answer of the device when that
    is not blank, and is the notice "Launch command sent for <package>"
    when there is nothing else to say. *)
Theorem launch_app_commands (D : device) (package_name : string)
    (activity_name : option string) (stop_first : bool) :
  let run := launch_app D package_name activity_name stop_first [] in
  let stop := ("am force-stop " ++ package_name)%string in
  let before := if stop_first then [stop] else [] in
  exists launch,
    (given activity_name = false ->
     launch = ("monkey -p " ++ package_name
               ++ " -c android.intent.category.LAUNCHER 1")%string) /\
    (forall a, activity_name = Some a -> a <> EmptyString ->
       exists component,
         launch = ("am start -n " ++ component)%string /\
         char_in "/" component = true /\
         component = if char_in "/" a then a
                     else (package_name ++ "/" ++ a)%string) /\
    (forall e, stop_first = true -> D [] stop = Raise e ->
       run = (Raise e, [stop])) /\
    ((stop_first = true -> exists o, D [] stop = Ok o) ->
     (forall e, D before launch = Raise e -> run = (Raise e, before ++ [launch])) /\
     (forall o, D before launch = Ok o ->
        exists result,
          run = (Ok result, before ++ [launch]) /\
          result <> EmptyString /\
          (stop_first = true ->
           startswith result ("Force-stopped " ++ package_name) = true) /\
          (strip o <> EmptyString -> exists pre, result = (pre ++ strip o)%string) /\
          (stop_first = false -> strip o = EmptyString ->
           result = ("Launch command sent for " ++ package_name)%string))).
Proof.
  intros run stop before.
  set (launch :=
         if given activity_name
         then ("am start -n "
               ++ (if char_in "/" (match activity_name with
                                   | Some a => a | None => EmptyString end)
                   then match activity_name with
                        | Some a => a | None => EmptyString end
                   else package_name ++ "/"
                        ++ match activity_name with
                           | Some a => a | None => EmptyString end))%string
         else ("monkey -p " ++ package_name
               ++ " -c android.intent.category.LAUNCHER 1")%string).
  assert (Hrun : run =
            (output_parts <-
               (if stop_first
                then _ <- shell D stop ;;
                     adb_ret [("Force-stopped " ++ package_name)%string]
                else adb_ret []) ;;
             launch_output <- shell D launch ;;
             let launch_output := strip launch_output in
             let output_parts :=
               if truthy launch_output then output_parts ++ [launch_output]
               else output_parts in
             if (List.length output_parts =? 0)%nat
             then adb_ret ("Launch command sent for " ++ package_name)%string
             else adb_ret (join (String LF "") output_parts))%adb []).
  { unfold run, launch_app, launch. destruct (given activity_name); reflexivity. }
  exists launch. split; [|split; [|split]].
  - intros Hg. unfold launch. now rewrite Hg.
  - intros a -> Ha. unfold launch.
    assert (Hg : given (Some a) = true) by (apply given_spec; eauto).
    rewrite Hg. eexists. split; [reflexivity|]. split; [|reflexivity].
    destruct (char_in "/" a) eqn:E; [exact E|].
    rewrite char_in_app. cbn. apply orb_true_r.
  - intros e -> He. rewrite Hrun. unfold adb_bind, shell. cbn [app].
    now rewrite He.
  - intros Hstop. rewrite Hrun. clear Hrun. unfold before.
    destruct stop_first.
    + destruct (Hstop eq_refl) as [o0 Ho0].
      unfold adb_bind, shell, adb_ret. cbn [app]. rewrite Ho0. split.
      * intros e He. now rewrite He.
      * intros o Ho. rewrite Ho. cbv zeta.
        destruct (strip o) as [|c t] eqn:Es; cbn [truthy app List.length Nat.eqb].
        -- eexists. split; [reflexivity|]. cbn [join concat].
           split; [discriminate|]. split; [intros _; apply startswith_refl|].
           split; [congruence | discriminate].
        -- eexists. split; [reflexivity|]. rewrite join_cons. cbn [join concat].
           split; [discriminate|]. split; [intros _; apply startswith_app|].
           split; [|discriminate]. intros _. eexists.
           rewrite <- string_app_assoc. reflexivity.
    + unfold adb_bind, shell, adb_ret. cbn [app]. split.
      * intros e He. now rewrite He.
      * intros o Ho. rewrite Ho. cbv zeta.
        destruct (strip o) as [|c t] eqn:Es; cbn [truthy app List.length Nat.eqb].
        -- eexists. split; [reflexivity|]. split; [discriminate|].
           split; [discriminate|]. split; [congruence | reflexivity].
        -- eexists. split; [reflexivity|]. cbn [join concat].
           split; [discriminate|]. split; [discriminate|].
           split; [|discriminate]. intros _. now exists EmptyString.
Qed.

Lemma launch_app_commands_witness :
  exists result,
    launch_app (echo_device "Starting: Intent") "com.example.app"
      (Some ".MainActivity"%string) true []
    = (Ok result,
       ["am force-stop com.example.app";
        "am start -n com.example.app/.MainActivity"]%string) /\
    result <> EmptyString /\
    startswith result "Force-stopped com.example.app" = true.
Proof.
  destruct (launch_app_commands (echo_device "Starting: Intent") "com.example.app"
              (Some ".MainActivity"%string) true)
    as [launch [_ [Hc [_ Hrun]]]].
  destruct (Hc ".MainActivity"%string eq_refl ltac:(discriminate))
    as [component [-> [_ ->]]].
  destruct (Hrun ltac:(intros _; eexists; reflexivity)) as [_ Hok].
  destruct (Hok "Starting: Intent"%string eq_refl) as [result [Hres [Hne [Hst _]]]].
  exists result. split; [exact Hres|]. split; [exact Hne | exact (Hst eq_refl)].
Defined.

(** ** The tail of a log *)

Lemma slice_from_split {A : Type} (l : list A) (start : Z) :
  exists dropped,
    l = dropped ++ slice_from l start /\
    Z.of_nat (List.length dropped)
    = if start <? 0 then Z.max 0 (Z.of_nat (List.length l) + start)
      else Z.min start (Z.of_nat (List.length l)).
Proof.
  unfold slice_from.
  set (i := if start <? 0 then Z.max 0 (Z.of_nat (List.length l) + start)
            else Z.min start (Z.of_nat (List.length l))).
  exists (firstn (Z.to_nat i) l). split; [now rewrite firstn_skipn|].
  rewrite length_firstn. unfold i. destruct (start <? 0) eqn:E.
  - apply Z.ltb_lt in E. lia.
  - apply Z.ltb_ge in E. lia.
Qed.

Lemma tail_split (file_lines : list string) (file_path : string) (lines : Z) :
  file_lines <> [] ->
  exists dropped kept,
    file_lines = dropped ++ kept /\
    _tail_file (Lines file_lines) file_path lines = Ok (rstrip (join "" kept)) /\
    (0 < lines ->
     Z.of_nat (List.length kept) = Z.min lines (Z.of_nat (List.length file_lines))
     /\ kept <> []) /\
    (lines = 0 -> kept = file_lines) /\
    (lines < 0 ->
     Z.of_nat (List.length dropped)
     = Z.min (- lines) (Z.of_nat (List.length file_lines))).
Proof.
  intros Hne. set (n := Z.of_nat (List.length file_lines)).
  destruct (slice_from_split file_lines (- lines)) as [dropped [Hsplit Hlen]].
  exists dropped, (slice_from file_lines (- lines)).
  split; [exact Hsplit|].
  assert (Hn : 0 < n) by (destruct file_lines; [contradiction | unfold n; cbn; lia]).
  assert (Hsum : n = Z.of_nat (List.length dropped)
                     + Z.of_nat (List.length (slice_from file_lines (- lines)))).
  { unfold n. rewrite Hsplit at 1. rewrite length_app. lia. }
  split.
  { unfold _tail_file. destruct file_lines; [contradiction|]. reflexivity. }
  fold n in Hlen. split; [|split].
  - intros Hl. replace (- lines <? 0) with true in Hlen
      by (symmetry; apply Z.ltb_lt; lia).
    split; [lia|]. intros E. rewrite E in Hsum. cbn in Hsum. lia.
  - intros ->. cbn in Hlen. replace (Z.min 0 n) with 0 in Hlen by lia.
    destruct dropped; [exact (eq_sym Hsplit) | cbn in Hlen; lia].
  - intros Hl. replace (- lines <? 0) with false in Hlen
      by (symmetry; apply Z.ltb_ge; lia).
    exact Hlen.
Qed.

(** X16. On a log file that holds lines, [_tail_file] returns the last
    lines of the file, joined and without white space at the end: for
    [lines] >= 1 the last min(lines, n) of the n lines.  A count of 0
    returns the whole file, and a negative count drops the first
    -[lines] lines instead of keeping the last ones. *)
Theorem tail_keeps_last_lines (file_lines : list string) (file_path : string)
    (lines : Z) :
  file_lines <> [] ->
  let n := Z.of_nat (List.length file_lines) in
  exists dropped kept text,
    file_lines = dropped ++ kept /\
    _tail_file (Lines file_lines) file_path lines = Ok text /\
    text = rstrip (join "" kept) /\ rstrip text = text /\
    (0 < lines -> Z.of_nat (List.length kept) = Z.min lines n /\ kept <> []) /\
    (lines = 0 -> kept = file_lines) /\
    (lines < 0 -> Z.of_nat (List.length dropped) = Z.min (- lines) n).
Proof.
  intros Hne n.
  destruct (tail_split file_lines file_path lines Hne)
    as [dropped [kept [Hsplit [Htail [Hpos [Hzero Hneg]]]]]].
  exists dropped, kept, (rstrip (join "" kept)).
  split; [exact Hsplit|]. split; [exact Htail|]. split; [reflexivity|].
  split; [apply rstrip_idempotent|]. auto.
Qed.

Lemma tail_keeps_last_lines_witness :
  exists dropped kept text,
    sample_log = dropped ++ kept /\
    _tail_file (Lines sample_log) "run.log" 2 = Ok text /\
    text = rstrip (join "" kept) /\ rstrip text = text /\
    (0 < 2 -> Z.of_nat (List.length kept) = Z.min 2 (Z.of_nat (List.length sample_log))
              /\ kept <> []) /\
    (2 = 0 -> kept = sample_log) /\
    (2 < 0 -> Z.of_nat (List.length dropped)
              = Z.min (- 2) (Z.of_nat (List.length sample_log))).
Proof.
  apply (tail_keeps_last_lines sample_log "run.log" 2). discriminate.
Defined.

(** ** The managed process *)

Ltac run_method :=
  unfold start_flutter_run, stop_flutter_run, hot_reload_flutter_run,
    hot_restart_flutter_run, get_flutter_run_log, running_process,
    _cleanup_flutter_process_state, _resolve_flutter_executable, tail_file,
    write_stdin, wait, try_wait, kill, poll,
    m_bind, m_ret, m_raise, self, assign, host_call.

Lemma cleanup_runs (st : manager) (log : list host_event) :
  exists evs,
    _cleanup_flutter_process_state st log
    = (Ok tt,
       {| device_serial := device_serial st;
          flutter_process := None;
          flutter_log_path := flutter_log_path st;
          _flutter_log_handle := None |},
       log ++ evs) /\
    (forall ev, In ev evs ->
       exists h, _flutter_log_handle st = Some h /\ closed h = false /\
                 ev = HClose (h_path h)) /\
    (forall h, _flutter_log_handle st = Some h -> closed h = false ->
               evs = [HClose (h_path h)]).
Proof.
  run_method. destruct (_flutter_log_handle st) as [[path [|]]|]; cbn.
  - exists []. rewrite app_nil_r. split; [reflexivity|].
    split; [intros ev []|]. intros h E. injection E as <-. discriminate.
  - exists [HClose path]. split; [reflexivity|]. split.
    + intros ev [<-|[]]. eexists. split; [reflexivity|]. split; reflexivity.
    + intros h E _. injection E as <-. reflexivity.
  - exists []. rewrite app_nil_r. split; [reflexivity|].
    split; [intros ev []|]. intros h E. discriminate.
Qed.

(** X17. [get_flutter_run_log] never changes the manager; without a log
    path it answers that no log is available and touches nothing; with
    one it flushes the log handle exactly when the manager holds one
    that is not closed, and then returns the tail of the log with the
    count clamped to at least 1, so that on a file that holds n lines it
    returns the last min(max(1, lines), n) lines, never the whole file
    by way of a count of 0 or below. *)
Theorem log_tail_clamped (H : host) (lines : Z) (st : manager)
    (log : list host_event) :
  (given (flutter_log_path st) = false ->
   get_flutter_run_log H lines st log
   = (Ok "No flutter log available yet. Start flutter run first."%string, st, log)) /\
  (forall path, flutter_log_path st = Some path -> path <> EmptyString ->
     exists flushed,
       (forall h, _flutter_log_handle st = Some h -> closed h = false ->
                  flushed = [HFlush (h_path h)]) /\
       (forall h, _flutter_log_handle st = Some h -> closed h = true ->
                  flushed = []) /\
       (_flutter_log_handle st = None -> flushed = []) /\
       get_flutter_run_log H lines st log
       = (_tail_file (found_at H (log ++ flushed) path) path (Z.max 1 lines),
          st, log ++ flushed ++ [HRead path]) /\
       forall file_lines,
         found_at H (log ++ flushed) path = Lines file_lines -> file_lines <> [] ->
         exists dropped kept,
           file_lines = dropped ++ kept /\ kept <> [] /\
           Z.of_nat (List.length kept)
           = Z.min (Z.max 1 lines) (Z.of_nat (List.length file_lines)) /\
           get_flutter_run_log H lines st log
           = (Ok (rstrip (join "" kept)), st, log ++ flushed ++ [HRead path])).
Proof.
  split.
  - intros Hg. run_method. now rewrite Hg.
  - intros path Hp Hne.
    assert (Hg : given (flutter_log_path st) = true)
      by (rewrite Hp; apply given_spec; eauto).
    assert (Hrun : exists flushed,
              (forall h, _flutter_log_handle st = Some h -> closed h = false ->
                         flushed = [HFlush (h_path h)]) /\
              (forall h, _flutter_log_handle st = Some h -> closed h = true ->
                         flushed = []) /\
              (_flutter_log_handle st = None -> flushed = []) /\
              get_flutter_run_log H lines st log
              = (_tail_file (found_at H (log ++ flushed) path) path (Z.max 1 lines),
                 st, log ++ flushed ++ [HRead path])).
    { run_method. rewrite Hg, Hp. cbn [negb].
      destruct (_flutter_log_handle st) as [[hp [|]]|] eqn:Eh; cbn.
      - exists []. split; [intros h [= <-]; discriminate|].
        split; [reflexivity|]. split; [reflexivity|]. now rewrite app_nil_r.
      - exists [HFlush hp]. split; [intros h [= <-] _; reflexivity|].
        split; [intros h [= <-]; discriminate|]. split; [discriminate|].
        now rewrite <- app_assoc.
      - exists []. split; [discriminate|]. split; [reflexivity|].
        split; [reflexivity|]. now rewrite app_nil_r. }
    destruct Hrun as [flushed [Hopen [Hclosed [Hnone Hrun]]]]. exists flushed.
    split; [exact Hopen|]. split; [exact Hclosed|]. split; [exact Hnone|].
    split; [exact Hrun|].
    intros file_lines Hfound Hlines. rewrite Hrun, Hfound.
    destruct (tail_split file_lines path (Z.max 1 lines) Hlines)
      as [dropped [kept [Hsplit [Htail [Hlen _]]]]].
    exists dropped, kept. split; [exact Hsplit|].
    destruct (Hlen ltac:(lia)) as [Hk Hkne].
    split; [exact Hkne|]. split; [exact Hk|]. now rewrite Htail.
Qed.

Lemma log_tail_clamped_witness :
  exists dropped kept,
    sample_log = dropped ++ kept /\ kept <> [] /\
    Z.of_nat (List.length kept)
    = Z.min (Z.max 1 0) (Z.of_nat (List.length sample_log)) /\
    get_flutter_run_log calm_host 0 busy_manager []
    = (Ok (rstrip (join "" kept)), busy_manager,
       [HFlush "app/.mcp_flutter_run.log"; HRead "app/.mcp_flutter_run.log"]).
Proof.
  destruct (proj2 (log_tail_clamped calm_host 0 busy_manager [])
              "app/.mcp_flutter_run.log"%string eq_refl ltac:(discriminate))
    as [flushed [Hopen [_ [_ [_ Htail]]]]].
  destruct (Htail sample_log eq_refl ltac:(discriminate))
    as [dropped [kept [Hsplit [Hne [Hlen Hrun]]]]].
  rewrite (Hopen (mkHandle "app/.mcp_flutter_run.log" false) eq_refl eq_refl)
    in Hrun.
  exists dropped, kept. auto.
Defined.

Ltac in_events :=
  repeat match goal with
         | H : In _ (_ :: _) |- _ => destruct H as [H|H]
         | H : In _ [] |- _ => destruct H
         | H : _ \/ _ |- _ => destruct H as [H|H]
         | H : False |- _ => destruct H
         | H : HKill _ = HKill _ |- _ => injection H as H; subst
         | H : _ = HKill _ |- _ => discriminate H
         end.

Ltac stop_case :=
  intros [= <- <- <-]; split; [reflexivity|];
  eexists; split;
  [ first [ rewrite <- ?app_assoc; cbn [app]; reflexivity
          | symmetry; apply app_nil_r ]
  | split;
    [ intros k' Hin; cbn [In app] in Hin; in_events; reflexivity
    | intros h Hh Hc; first [discriminate Hh | injection Hh as <-];
      first [discriminate Hc | cbn; tauto] ] ].

(** X18. Whenever [stop_flutter_run] returns, the manager holds neither
    a process nor a log handle and keeps its device and its log path; a
    log handle that was open has been closed; the process is killed
    only when the text returned says so.  After that there is nothing
    left to act on: a second stop, a hot reload and a hot restart answer
    that no process is active and do nothing on the host. *)
Theorem stop_leaves_no_process (H : host) (graceful_wait_seconds : Z)
    (st : manager) (log : list host_event)
    (msg : string) (st' : manager) (log' : list host_event) :
  stop_flutter_run H graceful_wait_seconds st log = (Ok msg, st', log') ->
  st' = {| device_serial := device_serial st;
           flutter_process := None;
           flutter_log_path := flutter_log_path st;
           _flutter_log_handle := None |} /\
  (exists evs, log' = log ++ evs /\
     (forall k, In (HKill k) evs ->
        msg = ("Force-killed flutter run process (pid: "
               ++ str_of_int k ++ ").")%string) /\
     (forall h, _flutter_log_handle st = Some h -> closed h = false ->
        In (HClose (h_path h)) evs)) /\
  (forall g, stop_flutter_run H g st' log'
             = (Ok "No active flutter run process."%string, st', log')) /\
  hot_reload_flutter_run H st' log'
  = (Ok "No active flutter run process. Start one with start_flutter_run first."%string,
     st', log') /\
  hot_restart_flutter_run H st' log'
  = (Ok "No active flutter run process. Start one with start_flutter_run first."%string,
     st', log').
Proof.
  intros Hrun.
  assert (Hst : st' = {| device_serial := device_serial st;
                         flutter_process := None;
                         flutter_log_path := flutter_log_path st;
                         _flutter_log_handle := None |} /\
                exists evs, log' = log ++ evs /\
                  (forall k, In (HKill k) evs ->
                     msg = ("Force-killed flutter run process (pid: "
                            ++ str_of_int k ++ ").")%string) /\
                  (forall h, _flutter_log_handle st = Some h -> closed h = false ->
                     In (HClose (h_path h)) evs)).
  { revert Hrun. run_method.
    destruct (flutter_process st) as [[k sin]|]; cbn.
    - destruct (poll_answer H log k) as [code|]; cbn.
      + destruct (_flutter_log_handle st) as [[hp [|]]|]; cbn; stop_case.
      + destruct sin; cbn.
        * destruct (write_answer H (log ++ [HPoll k]) k) as [[]|e]; cbn;
            [|intros E; discriminate E].
          destruct (wait_answer H _ k); cbn.
          -- destruct (_flutter_log_handle st) as [[hp [|]]|]; cbn; stop_case.
          -- destruct (wait_answer H _ k); cbn; [|intros E; discriminate E].
             destruct (_flutter_log_handle st) as [[hp [|]]|]; cbn; stop_case.
        * destruct (wait_answer H _ k); cbn.
          -- destruct (_flutter_log_handle st) as [[hp [|]]|]; cbn; stop_case.
          -- destruct (wait_answer H _ k); cbn; [|intros E; discriminate E].
             destruct (_flutter_log_handle st) as [[hp [|]]|]; cbn; stop_case.
    - destruct (_flutter_log_handle st) as [[hp [|]]|]; cbn; stop_case. }
  destruct Hst as [-> Hevs]. split; [reflexivity|]. split; [exact Hevs|].
  repeat split.
Qed.

Lemma stop_leaves_no_process_witness :
  exists msg log',
    stop_flutter_run calm_host 10 busy_manager [] =
    (Ok msg, mkManager "emulator-5554" None
                       (Some "app/.mcp_flutter_run.log"%string) None, log') /\
    In (HClose "app/.mcp_flutter_run.log") log' /\
    hot_reload_flutter_run calm_host
      (mkManager "emulator-5554" None (Some "app/.mcp_flutter_run.log"%string) None)
      log'
    = (Ok "No active flutter run process. Start one with start_flutter_run first."%string,
       mkManager "emulator-5554" None (Some "app/.mcp_flutter_run.log"%string) None,
       log').
Proof.
  destruct (stop_flutter_run calm_host 10 busy_manager []) as [[[msg|e] st'] log']
    eqn:E; [|discriminate E].
  destruct (stop_leaves_no_process calm_host 10 busy_manager [] msg st' log' E)
    as [-> [[evs [-> [_ Hc]]] [_ [Hr _]]]].
  exists msg, ([] ++ evs). split; [reflexivity|]. split; [|exact Hr].
  apply (Hc (mkHandle "app/.mcp_flutter_run.log" false)); reflexivity.
Defined.

Ltac key_case :=
  intros [= <- <- <-]; split; [reflexivity|];
  eexists; split;
  [ first [ rewrite <- ?app_assoc; cbn [app]; reflexivity
          | symmetry; apply app_nil_r ]
  | split; [|split];
    [ intros k' text Hin; cbn [In] in Hin;
      repeat match goal with
             | H : _ \/ _ |- _ => destruct H as [H|H]
             | H : False |- _ => destruct H
             | H : HWrite _ _ = HWrite _ _ |- _ => injection H as H H'; subst
             | H : _ = HWrite _ _ |- _ => discriminate H
             end; auto
    | intros ev Hin; cbn [In] in Hin;
      repeat match goal with
             | H : _ \/ _ |- _ => destruct H as [H|H]
             | H : False |- _ => destruct H
             end; subst; eauto
    | intros E; first [discriminate E | eauto] ] ].

(** X19. [hot_reload_flutter_run] and [hot_restart_flutter_run] never
    change the manager and do nothing on the host but poll the process
    and write to its standard input; what they write is their own key,
    "r" or "R" and a line feed, and they write it only to the process
    of the manager, after a poll that found it running, and only when
    it has a standard input.  They report the command as sent only
    after that write. *)
Theorem reload_and_restart_write_their_key (H : host) (st : manager)
    (log : list host_event) (r : result string) (st' : manager)
    (log' : list host_event) (restart : bool) :
  (if restart then hot_restart_flutter_run H st log
   else hot_reload_flutter_run H st log) = (r, st', log') ->
  let key := String (if restart then "R" else "r")%char (String LF "") in
  st' = st /\
  exists evs, log' = log ++ evs /\
    (forall k text, In (HWrite k text) evs ->
       text = key /\ flutter_process st = Some (mkProcess k true) /\
       poll_answer H log k = None) /\
    (forall ev, In ev evs ->
       (exists k, ev = HPoll k) \/ (exists k, ev = HWrite k key)) /\
    (r = Ok (if restart then "Hot restart command sent to flutter run."
             else "Hot reload command sent to flutter run.")%string ->
     exists k, evs = [HPoll k; HWrite k key]).
Proof.
  destruct restart; cbv zeta; run_method;
    (destruct (flutter_process st) as [[k sin]|] eqn:Ep; cbn;
     [ destruct (poll_answer H log k) as [code|] eqn:Epoll; cbn;
       [ key_case
       | destruct sin; cbn;
         [ destruct (write_answer H (log ++ [HPoll k]) k) as [[]|e]; cbn; key_case
         | key_case ] ]
     | key_case ]).
Qed.

Lemma reload_and_restart_write_their_key_witness :
  snd (fst (hot_reload_flutter_run calm_host busy_manager [])) = busy_manager /\
  exists evs, snd (hot_reload_flutter_run calm_host busy_manager []) = [] ++ evs /\
    (forall k text, In (HWrite k text) evs ->
       text = String "r" (String LF "") /\
       flutter_process busy_manager = Some (mkProcess k true) /\
       poll_answer calm_host [] k = None) /\
    (forall ev, In ev evs ->
       (exists k, ev = HPoll k) \/ (exists k, ev = HWrite k (String "r" (String LF "")))) /\
    (fst (fst (hot_reload_flutter_run calm_host busy_manager []))
     = Ok "Hot reload command sent to flutter run."%string ->
     exists k, evs = [HPoll k; HWrite k (String "r" (String LF ""))]).
Proof.
  apply (reload_and_restart_write_their_key calm_host busy_manager []
           (fst (fst (hot_reload_flutter_run calm_host busy_manager [])))
           (snd (fst (hot_reload_flutter_run calm_host busy_manager [])))
           (snd (hot_reload_flutter_run calm_host busy_manager [])) false).
  reflexivity.
Defined.

Ltac destruct_match :=
  match goal with
  | |- context [match ?x with _ => _ end] =>
      lazymatch x with
      | context [match _ with _ => _ end] => fail
      | _ => destruct x eqn:?
      end
  end.

Ltac tidy_case Ht :=
  unfold tidy in *; cbn in *;
  first
    [ exact Ht
    | intros Hp; first [ congruence
                       | split; first [discriminate | apply Ht; congruence] ] ].

(** X20. A manager that has a process always has a log path and a log
    handle: [start_flutter_run] and [stop_flutter_run] keep this true
    however they end, with a result or with an exception, and whatever
    the host answers. *)
Theorem manager_stays_tidy (H : host) (st : manager) (log : list host_event) :
  tidy st ->
  (forall project_dir target flutter_executable additional_args startup_wait_seconds,
     tidy (snd (fst (start_flutter_run H project_dir target flutter_executable
                       additional_args startup_wait_seconds st log)))) /\
  (forall graceful_wait_seconds,
     tidy (snd (fst (stop_flutter_run H graceful_wait_seconds st log)))).
Proof.
  intros Ht. split.
  - intros project_dir target flutter_executable additional_args w.
    run_method. repeat (cbn; destruct_match); tidy_case Ht.
  - intros g. run_method. repeat (cbn; destruct_match); tidy_case Ht.
Qed.

Lemma manager_stays_tidy_witness :
  tidy (snd (fst (start_flutter_run calm_host "app" "lib/main.dart" "flutter"
                    None 8 idle_manager []))) /\
  tidy (snd (fst (stop_flutter_run calm_host 10 idle_manager []))).
Proof.
  destruct (manager_stays_tidy calm_host idle_manager []) as [H1 H2].
  - intros Hp. now contradiction Hp.
  - split; [apply H1 | apply H2].
Defined.

Section StartRun.
Variable H : host.
Variables project_dir target flutter_executable : string.
Variable additional_args : option string.
Variable startup_wait_seconds : Z.
Variable st : manager.
Variable log : list host_event.
Variable flutter_cmd : string.
Variable extra : list string.
Variable p : process.

Let log_path := os_path_join H project_dir ".mcp_flutter_run.log".
Let command :=
  [flutter_cmd; "run"; "-d"; device_serial st; "-t"; target]%string ++ extra.
Let started :=
  log ++ [HOpen log_path; HSpawn command project_dir;
          HSleep (Z.max 0 startup_wait_seconds)].
Let run :=
  start_flutter_run H project_dir target flutter_executable additional_args
    startup_wait_seconds st log.

Hypothesis idle : flutter_process st = None.
Hypothesis dir_found : isdir H project_dir = true.
Hypothesis flutter_found :
  _resolve_flutter_executable H flutter_executable st log = (Ok flutter_cmd, st, log).
Hypothesis args_split :
  (given additional_args = false /\ extra = []) \/
  (exists a, additional_args = Some a /\ a <> EmptyString /\
             shlex_split H a = Ok extra).
Hypothesis log_opened : open_answer H log log_path = Ok tt.
Hypothesis spawned : spawn_answer H (log ++ [HOpen log_path]) command = Ok p.

(** X21. From a manager without a process, with the project directory
    found, the flutter executable resolved, the log opened and the
    process spawned, [start_flutter_run] spawns
    [flutter run -d <device> -t <target>] followed by the additional
    arguments, in the project directory, and sleeps.  If the process
    still runs after that, the manager holds it with the log path and
    the open log handle, and a further start spawns nothing but answers
    "Flutter run already active (pid: <pid>). Use hot_reload_flutter_run
    / hot_restart_flutter_run or stop_flutter_run." as long as the
    process runs.  If the process
    has ended, the tail of the log is read, the handle is closed, the
    manager holds no process but keeps the log path, and the text
    returned names the exit code. *)
Theorem start_flutter_run_outcomes :
  (poll_answer H started (pid p) = None ->
   let st1 := {| device_serial := device_serial st;
                 flutter_process := Some p;
                 flutter_log_path := Some log_path;
                 _flutter_log_handle := Some (mkHandle log_path false) |} in
   let log1 := started ++ [HPoll (pid p)] in
   run = (Ok ("Started flutter run (pid: " ++ str_of_int (pid p)
              ++ ") on device " ++ device_serial st ++ "."
              ++ String LF "Log file: " ++ log_path)%string, st1, log1) /\
   forall pd t fe aa w log2,
     poll_answer H (log1 ++ log2) (pid p) = None ->
     start_flutter_run H pd t fe aa w st1 (log1 ++ log2)
     = (Ok ("Flutter run already active (pid: " ++ str_of_int (pid p) ++ "). "
            ++ "Use hot_reload_flutter_run / hot_restart_flutter_run or "
            ++ "stop_flutter_run.")%string,
        st1, (log1 ++ log2) ++ [HPoll (pid p)])) /\
  (forall exit_code failure_tail,
     poll_answer H started (pid p) = Some exit_code ->
     _tail_file (found_at H (started ++ [HPoll (pid p)]) log_path) log_path 80
     = Ok failure_tail ->
     run = (Ok ("flutter run exited early with code " ++ str_of_int exit_code
                ++ "." ++ String LF "Log tail:" ++ String LF failure_tail)%string,
            {| device_serial := device_serial st;
               flutter_process := None;
               flutter_log_path := Some log_path;
               _flutter_log_handle := None |},
            started ++ [HPoll (pid p); HRead log_path; HClose log_path])).
Proof.
  assert (Hcmd :
    (if given additional_args
     then match shlex_split H (match additional_args with
                               | Some a => a | None => EmptyString end) with
          | Ok extra0 =>
              m_ret ([flutter_cmd; "run"; "-d"; device_serial st; "-t"; target]%string
                     ++ extra0)
          | Raise e => m_raise e
          end
     else m_ret [flutter_cmd; "run"; "-d"; device_serial st; "-t"; target]%string)
    = m_ret command).
  { unfold command. destruct args_split as [[Hg ->]|[a [-> [Ha Hs]]]].
    - rewrite Hg. reflexivity.
    - assert (Hg : given (Some a) = true) by (apply given_spec; eauto).
      rewrite Hg, Hs. reflexivity. }
  assert (Hstart :
    run =
    (code <- poll H p ;;
     match code with
     | Some exit_code =>
         failure_tail <- tail_file H log_path 80 ;;
         _ <- _cleanup_flutter_process_state ;;
         m_ret ("flutter run exited early with code " ++ str_of_int exit_code
                ++ "." ++ String LF "Log tail:" ++ String LF failure_tail)%string
     | None =>
         m_ret ("Started flutter run (pid: " ++ str_of_int (pid p)
                ++ ") on device " ++ device_serial st ++ "."
                ++ String LF "Log file: " ++ log_path)%string
     end)%method
      {| device_serial := device_serial st;
         flutter_process := Some p;
         flutter_log_path := Some log_path;
         _flutter_log_handle := Some (mkHandle log_path false) |}
      started).
  { unfold run, start_flutter_run, running_process.
    unfold m_bind, self. rewrite idle. unfold m_ret at 1. cbv beta iota.
    rewrite idle. unfold m_ret at 1. cbv beta iota.
    rewrite dir_found. cbn [negb]. rewrite flutter_found. cbv beta iota.
    rewrite Hcmd. fold log_path. unfold m_ret at 1. cbv beta iota.
    unfold assign at 1, host_call at 1. cbv beta iota. rewrite log_opened.
    unfold assign at 1, host_call at 1. cbv beta iota. rewrite spawned.
    unfold assign at 1, host_call at 1. cbv beta iota.
    rewrite ?idle.
    unfold started. rewrite <- !app_assoc. cbn [app]. reflexivity. }
  split.
  - intros Hpoll st1 log1. split.
    + rewrite Hstart. run_method. now rewrite Hpoll.
    + intros pd t fe aa w log2 Hp2.
      run_method. cbn [flutter_process st1]. rewrite Hp2.
      reflexivity.
  - intros exit_code failure_tail Hpoll Htail.
    rewrite Hstart.
    run_method. rewrite Hpoll. cbv beta iota. rewrite Htail.
    cbn [_flutter_log_handle closed negb h_path].
    rewrite <- !app_assoc. reflexivity.
Qed.

End StartRun.

Lemma start_flutter_run_outcomes_witness :
  start_flutter_run calm_host "app" "lib/main.dart" "flutter" None 8 idle_manager []
  = (Ok ("Started flutter run (pid: 4242) on device emulator-5554."
         ++ String LF "Log file: app/.mcp_flutter_run.log")%string,
     busy_manager,
     [HOpen "app/.mcp_flutter_run.log";
      HSpawn ["/opt/flutter/bin/flutter"; "run"; "-d"; "emulator-5554"; "-t";
              "lib/main.dart"]%string "app";
      HSleep 8; HPoll 4242]) /\
  start_flutter_run calm_host "app" "lib/main.dart" "flutter" None 8 busy_manager
    [HOpen "app/.mcp_flutter_run.log";
     HSpawn ["/opt/flutter/bin/flutter"; "run"; "-d"; "emulator-5554"; "-t";
             "lib/main.dart"]%string "app";
     HSleep 8; HPoll 4242]
  = (Ok ("Flutter run already active (pid: 4242). Use hot_reload_flutter_run / "
         ++ "hot_restart_flutter_run or stop_flutter_run.")%string,
     busy_manager,
     [HOpen "app/.mcp_flutter_run.log";
      HSpawn ["/opt/flutter/bin/flutter"; "run"; "-d"; "emulator-5554"; "-t";
              "lib/main.dart"]%string "app";
      HSleep 8; HPoll 4242; HPoll 4242]).
Proof.
  pose proof (proj1 (start_flutter_run_outcomes calm_host "app" "lib/main.dart"
                       "flutter" None 8 idle_manager []
                       "/opt/flutter/bin/flutter" [] (mkProcess 4242 true)
                       eq_refl eq_refl eq_refl
                       (or_introl (conj eq_refl eq_refl)) eq_refl eq_refl)
                    eq_refl) as Hstart.
  cbv zeta in Hstart. destruct Hstart as [Hfirst Hfurther].
  split; [exact Hfirst|].
  exact (Hfurther "app"%string "lib/main.dart"%string "flutter"%string None 8 []
                  eq_refl).
Defined.

(** ** Attaching to a running app *)

Lemma resolve_flutter_pure (H : host) (flutter_executable : string) :
  exists r, forall st log,
    _resolve_flutter_executable H flutter_executable st log = (r, st, log).
Proof.
  unfold _resolve_flutter_executable.
  destruct (has_separator H flutter_executable).
  - destruct (path_exists H flutter_executable); cbn [negb]; eexists; reflexivity.
  - destruct (which H flutter_executable) as [resolved|]; [|eexists; reflexivity].
    destruct (truthy resolved); eexists; reflexivity.
Qed.

Section AttachCommand.
Variable H : host.
Variable attach_session :
  forall (command : list string) (project_dir package_name action : string)
         (debug_port : option Z)
         (attach_wait_seconds action_wait_seconds : Z), method string.
Variables project_dir package_name action target flutter_executable : string.
Variable debug_port : option Z.
Variables debug_url additional_args : option string.
Variables attach_wait_seconds action_wait_seconds : Z.
Variable st : manager.
Variable log : list host_event.
Variable flutter_cmd : string.
Variable extra : list string.

Let run :=
  _run_attach_and_trigger_action H attach_session project_dir package_name action
    target flutter_executable debug_port debug_url additional_args
    attach_wait_seconds action_wait_seconds st log.
Let base : list string :=
  [flutter_cmd; "attach"; "-d"; device_serial st; "--app-id"; package_name;
   "-t"; target; "--no-dds"]%string.
Let session (endpoint : list string) (port : option Z) (evs : list host_event) :=
  attach_session (base ++ endpoint ++ extra) project_dir package_name action port
    attach_wait_seconds action_wait_seconds st (log ++ evs).

Hypothesis action_known : action = "reload"%string \/ action = "restart"%string.
Hypothesis dir_found : isdir H project_dir = true.
Hypothesis flutter_found :
  forall st log,
    _resolve_flutter_executable H flutter_executable st log = (Ok flutter_cmd, st, log).
Hypothesis args_split :
  (given additional_args = false /\ extra = []) \/
  (exists a, additional_args = Some a /\ a <> EmptyString /\
             shlex_split H a = Ok extra).

(** The arguments that name the endpoint. *)
Let endpoint_of (url : option string) (port : option Z) : list string :=
  if given url
  then ["--debug-url"%string; match url with Some u => u | None => EmptyString end]
  else match port with
       | Some p => if p =? 0 then [] else ["--debug-port"%string; str_of_int p]
       | None => []
       end.

(** What follows the choice of the endpoint. *)
Let attach_with (endpoint : option string * option Z) : method string :=
  (let debug_url := fst endpoint in
   let debug_port := snd endpoint in
   flutter_cmd <- _resolve_flutter_executable H flutter_executable ;;
   st <- self ;;
   let command :=
     [flutter_cmd; "attach"; "-d"; device_serial st; "--app-id"; package_name;
      "-t"; target; "--no-dds"]%string in
   let command :=
     if given debug_url
     then command ++ ["--debug-url"%string;
                      match debug_url with Some u => u | None => EmptyString end]
     else
       match debug_port with
       | Some port =>
           if port =? 0 then command
           else command ++ ["--debug-port"%string; str_of_int port]
       | None => command
       end in
   command <-
     (if given additional_args
      then
        match shlex_split H (match additional_args with
                             | Some a => a | None => EmptyString end) with
        | Ok extra => m_ret (command ++ extra)
        | Raise e => m_raise e
        end
      else m_ret command) ;;
   attach_session command project_dir package_name action debug_port
                  attach_wait_seconds action_wait_seconds)%method.

Lemma attach_with_runs (url : option string) (port : option Z)
    (evs : list host_event) :
  attach_with (url, port) st (log ++ evs) = session (endpoint_of url port) port evs.
Proof.
  unfold attach_with, session, endpoint_of. cbn [fst snd].
  unfold m_bind at 1. rewrite flutter_found.
  unfold m_bind at 1, self at 1.
  assert (Hargs : forall command,
    (if given additional_args
     then match shlex_split H (match additional_args with
                               | Some a => a | None => EmptyString end) with
          | Ok extra0 => m_ret (command ++ extra0)
          | Raise e => m_raise e
          end
     else m_ret command)
    = m_ret (command ++ extra)).
  { intros command. destruct args_split as [[Hg ->]|[a [-> [Ha Hs]]]].
    - rewrite Hg, app_nil_r. reflexivity.
    - assert (Hg : given (Some a) = true) by (apply given_spec; eauto).
      rewrite Hg, Hs. reflexivity. }
  rewrite Hargs. unfold m_bind, m_ret. unfold base.
  destruct (given url); [now rewrite <- app_assoc|].
  destruct port as [p|]; [|now rewrite app_nil_l].
  destruct (p =? 0); [now rewrite app_nil_l | now rewrite <- app_assoc].
Qed.

Lemma run_as_endpoint :
  run =
  (endpoint <-
     (if negb (given debug_url)
         && match debug_port with
            | None => true
            | Some port => port <=? 0
            end
      then
        discovered_url <- _discover_vm_service_debug_url H package_name ;;
        discovered_url <-
          (if negb (given discovered_url)
           then _discover_vm_service_debug_url_from_host H
           else m_ret discovered_url) ;;
        if given discovered_url
        then m_ret (discovered_url, debug_port)
        else
          discovered_port <- _discover_vm_service_port H package_name ;;
          match discovered_port with
          | None =>
              m_raise (RuntimeError
                         ("Could not discover Dart VM service endpoint from logcat. "
                          ++ "Pass debug_url/debug_port explicitly."))
          | Some port => m_ret (debug_url, Some port)
          end
      else m_ret (debug_url, debug_port)) ;;
   attach_with endpoint)%method st log.
Proof.
  unfold run, _run_attach_and_trigger_action.
  replace (String.eqb action "reload" || String.eqb action "restart") with true
    by (destruct action_known as [-> | ->]; reflexivity).
  cbn [negb]. rewrite dir_found. cbn [negb]. reflexivity.
Qed.

Let search : method (option string * option Z) :=
  (discovered_url <- _discover_vm_service_debug_url H package_name ;;
   discovered_url <-
     (if negb (given discovered_url)
      then _discover_vm_service_debug_url_from_host H
      else m_ret discovered_url) ;;
   if given discovered_url
   then m_ret (discovered_url, debug_port)
   else
     discovered_port <- _discover_vm_service_port H package_name ;;
     match discovered_port with
     | None =>
         m_raise (RuntimeError
                    ("Could not discover Dart VM service endpoint from logcat. "
                     ++ "Pass debug_url/debug_port explicitly."))
     | Some port => m_ret (debug_url, Some port)
     end)%method.

Let searches : list host_event :=
  [HDiscoverUrl package_name; HDiscoverUrlFromHost; HDiscoverPort package_name].

(** What the three searches find, each after the ones before it. *)
Let url_on_device := vm_service_url_on_device H log package_name.
Let url_on_host := vm_service_url_on_host H (log ++ [HDiscoverUrl package_name]).
Let port_on_device :=
  vm_service_port_on_device H
    (log ++ [HDiscoverUrl package_name; HDiscoverUrlFromHost]) package_name.

Let not_found : exn :=
  RuntimeError ("Could not discover Dart VM service endpoint from logcat. "
                ++ "Pass debug_url/debug_port explicitly.").

Lemma run_given :
  (given debug_url = true \/ exists p, debug_port = Some p /\ 0 < p) ->
  run = attach_with (debug_url, debug_port) st (log ++ []).
Proof.
  intros Hg. rewrite run_as_endpoint. unfold m_bind.
  replace (negb (given debug_url)
           && match debug_port with
              | None => true
              | Some port => port <=? 0
              end) with false.
  - unfold m_ret at 1. now rewrite app_nil_r.
  - destruct Hg as [Eg | [p [-> Hp]]]; [now rewrite Eg|].
    replace (p <=? 0) with false by (symmetry; apply Z.leb_gt; lia).
    now rewrite andb_false_r.
Qed.

Lemma run_searches :
  given debug_url = false ->
  (debug_port = None \/ exists p, debug_port = Some p /\ p <= 0) ->
  run = (endpoint <- search ;; attach_with endpoint)%method st log.
Proof.
  intros Eg Hp. rewrite run_as_endpoint. fold search. unfold m_bind.
  replace (negb (given debug_url)
           && match debug_port with
              | None => true
              | Some port => port <=? 0
              end) with true; [reflexivity|].
  rewrite Eg. destruct Hp as [-> | [p [-> Hp]]]; cbn [negb andb]; [reflexivity|].
  symmetry. apply Z.leb_le. lia.
Qed.

(** X22. With a known action, the project directory found and the
    flutter executable resolved, [_run_attach_and_trigger_action]
    attaches with [flutter attach -d <device> --app-id <package> -t
    <target> --no-dds], one endpoint at most and the additional
    arguments.  A debug URL that is given is passed as it is and nothing
    is searched, whatever the port; a positive port given without a URL
    is passed as it is and nothing is searched.  Without a URL and
    without a positive port the endpoint is searched: first the URL in
    the logcat of the device, and a failure to read the logcat ends the
    run with that failure; if none is found there, the URL among the
    processes of the host; if none is found there either, the port in
    the logcat of the device, again failing when the logcat cannot be
    read.  The first endpoint found is the one passed, the later
    searches are not made, the port given stays the one handed to the
    session when a URL is found, and when nothing is found the run
    raises the error that asks for an explicit endpoint.  A port found
    that is 0 is not passed; the command never holds both --debug-url
    and --debug-port. *)
Theorem attach_command_endpoint :
  (forall u, debug_url = Some u -> u <> EmptyString ->
     run = session ["--debug-url"%string; u] debug_port []) /\
  (forall p, given debug_url = false -> debug_port = Some p -> 0 < p ->
     run = session ["--debug-port"%string; str_of_int p] (Some p) []) /\
  (given debug_url = false ->
   (debug_port = None \/ exists p, debug_port = Some p /\ p <= 0) ->
   (forall e, url_on_device = Raise e ->
      run = (Raise e, st, log ++ [HDiscoverUrl package_name])) /\
   (forall u, url_on_device = Ok (Some u) -> u <> EmptyString ->
      run = session ["--debug-url"%string; u] debug_port
                    [HDiscoverUrl package_name]) /\
   (forall d, url_on_device = Ok d -> given d = false ->
      (forall u, url_on_host = Some u -> u <> EmptyString ->
         run = session ["--debug-url"%string; u] debug_port
                       [HDiscoverUrl package_name; HDiscoverUrlFromHost]) /\
      (given url_on_host = false ->
       (forall e, port_on_device = Raise e ->
          run = (Raise e, st, log ++ searches)) /\
       (port_on_device = Ok None ->
          run = (Raise not_found, st, log ++ searches)) /\
       (forall q, port_on_device = Ok (Some q) ->
          run = session (if q =? 0 then []
                         else ["--debug-port"%string; str_of_int q])
                        (Some q) searches)))).
Proof.
  split; [|split].
  - intros u Eu Hu.
    assert (Hg : given debug_url = true) by (apply given_spec; eauto).
    rewrite run_given by now left.
    rewrite attach_with_runs. unfold endpoint_of. now rewrite Hg, Eu.
  - intros p Eg Ep Hp.
    rewrite run_given by (right; eauto).
    rewrite attach_with_runs. unfold endpoint_of. rewrite Eg, Ep.
    now replace (p =? 0) with false by (symmetry; apply Z.eqb_neq; lia).
  - intros Eg Hneed. rewrite (run_searches Eg Hneed).
    unfold search, _discover_vm_service_debug_url,
      _discover_vm_service_debug_url_from_host, _discover_vm_service_port,
      url_on_device, url_on_host, port_on_device, not_found, searches.
    unfold m_bind, host_call.
    split; [|split].
    + intros e Ee. rewrite Ee. reflexivity.
    + intros u Eu Hu. rewrite Eu.
      assert (Hg : given (Some u) = true) by (apply given_spec; eauto).
      rewrite Hg. cbn [negb]. unfold m_ret at 1. cbv beta iota. rewrite Hg.
      unfold m_ret at 1. cbv beta iota. rewrite attach_with_runs.
      unfold endpoint_of. now rewrite Hg.
    + intros d Ed Hd. rewrite Ed. cbv beta iota. rewrite Hd. cbn [negb].
      split.
      * intros u Eu Hu. rewrite Eu.
        assert (Hg : given (Some u) = true) by (apply given_spec; eauto).
        rewrite Hg. unfold m_ret at 1. cbv beta iota.
        rewrite <- app_assoc. cbn [app]. rewrite attach_with_runs.
        unfold endpoint_of. now rewrite Hg.
      * intros Hh. rewrite Hh.
        rewrite <- !app_assoc. cbn [app].
        split; [|split].
        -- intros e Ee. rewrite Ee. reflexivity.
        -- intros Ee. rewrite Ee. reflexivity.
        -- intros q Ee. rewrite Ee. unfold m_ret at 1. cbv beta iota.
           rewrite attach_with_runs.
           unfold endpoint_of. now rewrite Eg.
Qed.

End AttachCommand.

Lemma attach_command_endpoint_witness :
  _run_attach_and_trigger_action calm_host quick_session "app" "com.example.app"
    "reload" "lib/main.dart" "flutter" (Some 0) None None 20 4 idle_manager []
  = (Ok "attached"%string, idle_manager,
     [HDiscoverUrl "com.example.app"; HDiscoverUrlFromHost;
      HSpawn ["/opt/flutter/bin/flutter"; "attach"; "-d"; "emulator-5554";
              "--app-id"; "com.example.app"; "-t"; "lib/main.dart"; "--no-dds";
              "--debug-url"; "http://127.0.0.1:5001/abc=/"]%string "app"]).
Proof.
  destruct (attach_command_endpoint calm_host quick_session "app" "com.example.app"
              "reload" "lib/main.dart" "flutter" (Some 0) None None 20 4
              idle_manager [] "/opt/flutter/bin/flutter" []
              (or_introl eq_refl) eq_refl (fun _ _ => eq_refl)
              (or_introl (conj eq_refl eq_refl)))
    as [_ [_ Hsearch]].
  destruct (Hsearch eq_refl
              (or_intror (ex_intro _ 0 (conj eq_refl (Z.le_refl 0)))))
    as [_ [_ Hhost]].
  destruct (Hhost None eq_refl eq_refl) as [Hfound _].
  rewrite (Hfound "http://127.0.0.1:5001/abc=/"%string eq_refl
             ltac:(discriminate)).
  reflexivity.
Defined.

(** ** Substrings *)

Lemma contains_refl (s : string) : contains s s.
Proof. exists EmptyString, EmptyString. cbn. induction s as [|c s IH]; cbn; congruence. Qed.

Lemma string_app_nil_r (s : string) : (s ++ "")%string = s.
Proof. induction s as [|c s IH]; cbn; congruence. Qed.

Lemma contains_trans (a b c : string) : contains a b -> contains b c -> contains a c.
Proof.
  intros [p1 [q1 ->]] [p2 [q2 ->]].
  exists (p1 ++ p2)%string, (q2 ++ q1)%string.
  now rewrite !string_app_assoc.
Qed.

Lemma take_drop (n : nat) (s : string) : s = (take n s ++ drop n s)%string.
Proof.
  revert s; induction n as [|n IH]; intros [|c s]; cbn; try reflexivity.
  now rewrite <- IH.
Qed.

Lemma contains_drop (n : nat) (s : string) : contains s (drop n s).
Proof.
  exists (take n s), EmptyString. rewrite string_app_nil_r. apply take_drop.
Qed.

Lemma contains_take (n : nat) (s : string) : contains s (take n s).
Proof. exists EmptyString, (drop n s). cbn. apply take_drop. Qed.

Lemma contains_lstrip (s : string) : contains s (lstrip s).
Proof.
  induction s as [|c s [p [q IH]]]; [apply contains_refl|]. cbn [lstrip].
  destruct (is_space c); [|apply contains_refl].
  exists (String c p), q. cbn. now rewrite <- IH.
Qed.

Lemma rstrip_prefix (s : string) : exists q, s = (rstrip s ++ q)%string.
Proof.
  induction s as [|c s [q IH]]; [now exists EmptyString|]. cbn [rstrip].
  destruct (rstrip s) as [|d t] eqn:E.
  - destruct (is_space c).
    + now exists (String c s).
    + exists s. reflexivity.
  - exists q. cbn in *. now f_equal.
Qed.

Lemma contains_strip (s : string) : contains s (strip s).
Proof.
  apply (contains_trans _ (lstrip s)); [apply contains_lstrip|].
  unfold strip. destruct (rstrip_prefix (lstrip s)) as [q Hq].
  exists EmptyString, q. exact Hq.
Qed.

Lemma split_first (sep : ascii) (s : string) :
  exists q, s = (hd EmptyString (split sep s) ++ q)%string.
Proof.
  induction s as [|c s [q IH]]; [now exists EmptyString|]. cbn [split].
  destruct (Ascii.eqb c sep); [now exists (String c s)|].
  destruct (split sep s) as [|w0 ws]; cbn [hd] in *.
  - now exists s.
  - exists q. cbn. now rewrite <- IH.
Qed.

Lemma contains_piece (sep : ascii) (s w : string) :
  In w (split sep s) -> contains s w.
Proof.
  revert w; induction s as [|c s IH]; intros w; cbn [split].
  - intros [<-|[]]. apply contains_refl.
  - destruct (Ascii.eqb c sep).
    + intros [<-|Hin].
      * exists EmptyString, (String c s). reflexivity.
      * destruct (IH w Hin) as [p [q ->]]. now exists (String c p), q.
    + pose proof (split_first sep s) as [q0 Hq0].
      destruct (split sep s) as [|w0 ws] eqn:E.
      * intros [<-|[]]. exists EmptyString, s. reflexivity.
      * intros [<-|Hin].
        -- cbn [hd] in Hq0. exists EmptyString, q0. cbn. now rewrite <- Hq0.
        -- destruct (IH w (or_intror Hin)) as [p [q ->]]. now exists (String c p), q.
Qed.

(** ** Where an empty line is first found *)

Lemma find_skip_char (c : ascii) (s : string) :
  Ascii.eqb c LF = false ->
  find (String c s) (String LF (String LF ""))
  = option_map S (find s (String LF (String LF ""))).
Proof.
  intros Hc. unfold find. cbn [index prefix].
  destruct (ascii_dec LF c) as [E|_]; [subst; now rewrite Ascii.eqb_refl in Hc|].
  destruct (index 0 _ s); reflexivity.
Qed.

Lemma find_skip_line (l s : string) :
  char_in LF l = false ->
  find (l ++ s) (String LF (String LF ""))
  = option_map (Nat.add (String.length l))
               (find s (String LF (String LF ""))).
Proof.
  induction l as [|c l IH]; cbn [append char_in String.length].
  - intros _. destruct (find s (String LF (String LF ""))); reflexivity.
  - intros H. apply orb_false_elim in H. destruct H as [Hc Hl].
    rewrite (find_skip_char c _ Hc), (IH Hl).
    destruct (find s (String LF (String LF ""))); reflexivity.
Qed.

Lemma find_skip_break (l s : string) :
  char_in LF l = false -> l <> EmptyString ->
  find (String LF (l ++ s)) (String LF (String LF ""))
  = option_map S (find (l ++ s) (String LF (String LF ""))).
Proof.
  intros Hl Hne. destruct l as [|c l]; [congruence|].
  cbn [char_in] in Hl. apply orb_false_elim in Hl. destruct Hl as [Hc _].
  unfold find. cbn [append index prefix].
  destruct (ascii_dec LF LF) as [_|N]; [|contradiction].
  destruct (ascii_dec LF c) as [E|_]; [subst; now rewrite Ascii.eqb_refl in Hc|].
  reflexivity.
Qed.

Lemma length_string_app (a b : string) :
  String.length (a ++ b) = (String.length a + String.length b)%nat.
Proof. induction a as [|c a IH]; cbn [append String.length]; lia. Qed.

(** In lines that hold no line break and of which only the first may be
    empty, no empty line is found: one is found first after them. *)
Lemma find_after_lines (lines : list string) (s : string) :
  lines <> [] ->
  Forall (fun l => char_in LF l = false) lines ->
  Forall (fun l => l <> EmptyString) (tl lines) ->
  find (join (String LF "") lines ++ s) (String LF (String LF ""))
  = option_map (Nat.add (String.length (join (String LF "") lines)))
               (find s (String LF (String LF ""))).
Proof.
  induction lines as [|x lines IH]; [congruence|]. intros _ Hlf Hne.
  inversion Hlf as [|? ? Hx Hlf']; subst. cbn [tl] in Hne.
  destruct lines as [|y lines]; [exact (find_skip_line x s Hx)|].
  inversion Hne as [|? ? Hy Hne']; subst.
  inversion Hlf' as [|? ? Hy' _]; subst.
  rewrite join_cons. rewrite !string_app_assoc. cbn [append].
  rewrite (find_skip_line x _ Hx).
  assert (Hrest : Forall (fun l => l <> EmptyString) (tl (y :: lines))).
  { destruct lines as [|z lines]; [constructor|]. now inversion Hne. }
  specialize (IH ltac:(discriminate) Hlf' Hrest).
  assert (Hbreak :
    find (String LF (join (String LF "") (y :: lines) ++ s)) (String LF (String LF ""))
    = option_map S (find (join (String LF "") (y :: lines) ++ s) (String LF (String LF "")))).
  { destruct lines as [|z lines].
    - exact (find_skip_break y s Hy' Hy).
    - rewrite join_cons, !string_app_assoc.
      exact (find_skip_break y _ Hy' Hy). }
  rewrite Hbreak, IH.
  destruct (find s (String LF (String LF ""))) as [n|]; cbn [option_map]; [|reflexivity].
  f_equal. rewrite !length_string_app. cbn [String.length]. lia.
Qed.

Lemma take_app (p rest : string) : take (String.length p) (p ++ rest) = p.
Proof. induction p as [|c p IH]; [now destruct rest | cbn; now rewrite IH]. Qed.

(** X23. [get_package_action_intents] sends the one command
    "dumpsys package <package>" and returns only lines that start with
    "android." or "com.", without white space at either end, each of
    them a part of the answer; it returns nothing when the answer has no
    "Activity Resolver Table:" or no "Non-Data Actions:" heading after
    it.  When both headings are found, the section runs from the second
    heading to the first empty line after it, or to the end of the
    answer: the actions returned are then the lines of that section,
    stripped, that start with "android." or "com.", every one of them
    and in the order of the answer. *)
Theorem action_intents_are_lines (D : device) (package_name : string)
    (log : list string) (output : string) :
  D log ("dumpsys package " ++ package_name)%string = Ok output ->
  exists actions,
    get_package_action_intents D package_name log
    = (Ok actions, log ++ [("dumpsys package " ++ package_name)%string]) /\
    (forall a, In a actions ->
       (startswith a "android." = true \/ startswith a "com." = true) /\
       strip a = a /\ contains output a) /\
    (find output "Activity Resolver Table:" = None -> actions = []) /\
    (forall start,
       find output "Activity Resolver Table:" = Some start ->
       find (drop start output) (String LF "  Non-Data Actions:") = None ->
       actions = []) /\
    (forall start non_data_start section_lines rest,
       find output "Activity Resolver Table:" = Some start ->
       find (drop start output) (String LF "  Non-Data Actions:")
       = Some non_data_start ->
       drop non_data_start (drop start output)
       = (join (String LF "") section_lines ++ rest)%string ->
       section_lines <> [] ->
       Forall (fun l => char_in LF l = false) section_lines ->
       Forall (fun l => l <> EmptyString) (tl section_lines) ->
       rest = EmptyString \/ startswith rest (String LF (String LF "")) = true ->
       actions
       = filter (fun line => startswith line "android." || startswith line "com.")
                (map strip section_lines)).
Proof.
  intros Hout. unfold get_package_action_intents, adb_bind, shell. rewrite Hout.
  destruct (find output "Activity Resolver Table:") as [start|] eqn:E1.
  2:{ exists []. unfold adb_ret. split; [reflexivity|]. split; [intros a []|].
      split; [reflexivity|]. split; discriminate. }
  destruct (find (drop start output) (String LF "  Non-Data Actions:"))
    as [nd|] eqn:E2.
  2:{ exists []. unfold adb_ret. split; [reflexivity|]. split; [intros a []|].
      split; [reflexivity|]. split; [reflexivity|].
      intros start' nd' ls rest E. injection E as <-. rewrite E2. discriminate. }
  set (section := match find (drop nd (drop start output))
                              (String LF (String LF "")) with
                  | Some section_end => slice (drop start output) nd (nd + section_end)
                  | None => drop nd (drop start output)
                  end).
  assert (Hsec : contains output section).
  { apply (contains_trans _ (drop start output)); [apply contains_drop|].
    apply (contains_trans _ (drop nd (drop start output))); [apply contains_drop|].
    unfold section, slice.
    destruct (find (drop nd (drop start output)) (String LF (String LF "")));
      [apply contains_take | apply contains_refl]. }
  eexists. unfold adb_ret. split; [reflexivity|]. split; [|split; [|split]].
  - intros a Ha. apply filter_In in Ha. destruct Ha as [Ha Hp].
    apply in_map_iff in Ha. destruct Ha as [line [<- Hline]].
    split; [now apply orb_prop in Hp|]. split; [apply strip_idempotent|].
    apply (contains_trans _ section); [exact Hsec|].
    apply (contains_trans _ line); [now apply (contains_piece LF) | apply contains_strip].
  - discriminate.
  - intros start' E. injection E as <-. rewrite E2. discriminate.
  - intros start' nd' ls rest Es End Hshape Hne Hlf Hfull Hrest.
    injection Es as <-. rewrite E2 in End. injection End as <-.
    assert (Hsection : section = join (String LF "") ls).
    { unfold section, slice. rewrite Hshape.
      rewrite (find_after_lines ls rest Hne Hlf Hfull).
      destruct Hrest as [-> | Hrest].
      - cbn. apply string_app_nil_r.
      - unfold startswith in Hrest.
        destruct rest as [|c1 rest]; cbn [prefix] in Hrest; [discriminate|].
        destruct (ascii_dec LF c1) as [<-|]; [|discriminate].
        destruct rest as [|c2 rest]; cbn [prefix] in Hrest; [discriminate|].
        destruct (ascii_dec LF c2) as [<-|]; [|discriminate].
        assert (Hfound : find (String LF (String LF rest)) (String LF (String LF "")) = Some 0%nat).
        { unfold find. cbn [index prefix].
          destruct (ascii_dec LF LF) as [_|N]; [|contradiction].
          now destruct rest. }
        rewrite Hfound. cbn [option_map].
        replace (nd + (String.length (join (String LF "") ls) + 0) - nd)%nat
          with (String.length (join (String LF "") ls)) by lia.
        apply take_app. }
    fold section. rewrite Hsection, (split_join LF ls Hne Hlf). reflexivity.
Qed.

Lemma action_intents_are_lines_witness :
  get_package_action_intents (echo_device sample_dumpsys) "com.example.app" []
  = (Ok (filter (fun line => startswith line "android." || startswith line "com.")
           (map strip [""; "  Non-Data Actions:";
                       "      android.intent.action.MAIN:";
                       "        4f2a com.example.app/.MainActivity filter 91c";
                       "      com.example.app.OPEN:"]%string)),
     ["dumpsys package com.example.app"%string]) /\
  filter (fun line => startswith line "android." || startswith line "com.")
    (map strip [""; "  Non-Data Actions:";
                "      android.intent.action.MAIN:";
                "        4f2a com.example.app/.MainActivity filter 91c";
                "      com.example.app.OPEN:"]%string)
  = ["android.intent.action.MAIN:"; "com.example.app.OPEN:"]%string.
Proof.
  destruct (action_intents_are_lines (echo_device sample_dumpsys) "com.example.app"
              [] sample_dumpsys eq_refl) as [actions [Hrun [_ [_ [_ Hlines]]]]].
  split; [|reflexivity].
  rewrite Hrun. f_equal. f_equal.
  apply (Hlines 0%nat 24%nat
           [""; "  Non-Data Actions:";
            "      android.intent.action.MAIN:";
            "        4f2a com.example.app/.MainActivity filter 91c";
            "      com.example.app.OPEN:"]%string
           (String LF (String LF "Receiver Resolver Table:") ++ String LF
            "      android.intent.action.BOOT_COMPLETED:" ++ String LF "")%string).
  - reflexivity.
  - reflexivity.
  - reflexivity.
  - discriminate.
  - repeat constructor.
  - repeat constructor; discriminate.
  - right. reflexivity.
Defined.
